(** * voidraft: the window-snapping service

    A shallow embedding of [internal/services/window_snap_service.go]
    and the properties its specification states about it, followed by
    the window service that registers the document windows and by the
    field detection of the configuration migrator.

    Conventions of the embedding.
    - Go's [int] is the 64-bit two's-complement integer of the desktop
      targets the application is built for; it is a [Z] and every
      arithmetic operation wraps ([Int.wrap]).
    - Go's [float64] is IEEE-754 binary64, taken from the Standard
      Library's executable specification [SpecFloat] (precision 53,
      [emax] 1024), so rounding is the code's rounding.
    - [time.Time] is a reading of the monotonic clock in nanoseconds. The
      readings a handler takes are supplied by its caller, in the order in
      which the handler takes them ([Clock]). [time.Since] is the
      difference of two readings; the readings of one run of the process
      are far from the range in which it saturates.
    - The windowing layer is the [Desktop]: the geometry of the primary
      window and of the document windows, and the list of the
      [SetPosition] calls received. A document window is identified by its
      document id, as the window service names each window after the id.
    - A Go map holding pointers is a [gmap] of records; a write through a
      pointer is a write to the entry ([on_info]). A loop over a map visits
      its keys in some order; each turn of the loops here touches the
      window of its own key only.
    - [sync.RWMutex] is not modelled: handlers run one at a time. What the
      lock discipline makes possible, a move hook re-entered from inside
      [SetPosition], is modelled: [SetPosition] runs the hook it is given
      on the state as it is at the time of the write. *)

From Stdlib Require Import ZArith Lia Bool List.
From Stdlib Require Import SpecFloat.
From stdpp Require Import gmap.

Open Scope Z_scope.

(** ** Machine integers *)

Module Int.

Definition min_int : Z := - 2 ^ 63.
Definition max_int : Z := 2 ^ 63 - 1.

Definition in_range (z : Z) : Prop := min_int <= z <= max_int.

Definition in_rangeb (z : Z) : bool := (min_int <=? z) && (z <=? max_int).

(** Two's-complement wrap-around to 64 bits. *)
Definition wrap (z : Z) : Z := (z + 2 ^ 63) mod 2 ^ 64 - 2 ^ 63.

Definition add (a b : Z) : Z := wrap (a + b).
Definition sub (a b : Z) : Z := wrap (a - b).
Definition mul (a b : Z) : Z := wrap (a * b).

End Int.

(** ** binary64 *)

Module F64.

Definition prec : Z := 53.
Definition emax : Z := 1024.

(** [float64(n)] for an [int] n: round to nearest, ties to even. *)
Definition of_int (z : Z) : spec_float := binary_normalize prec emax z 0 false.

Definition mul : spec_float -> spec_float -> spec_float := SFmul prec emax.

(** [math.Sqrt]. *)
Definition sqrt : spec_float -> spec_float := SFsqrt prec emax.

(** [math.Abs]. *)
Definition abs : spec_float -> spec_float := SFabs.

Definition ltb : spec_float -> spec_float -> bool := SFltb.
Definition leb : spec_float -> spec_float -> bool := SFleb.
Definition gtb (x y : spec_float) : bool := SFltb y x.

Definition is_nan (x : spec_float) : bool :=
    match x with S754_nan => true | _ => false end.

Definition is_pinf (x : spec_float) : bool :=
    match x with S754_infinity false => true | _ => false end.

Definition is_zero (x : spec_float) : bool :=
    match x with S754_zero _ => true | _ => false end.

Definition signbit (x : spec_float) : bool :=
    match x with
    | S754_zero s | S754_infinity s | S754_finite s _ _ => s
    | S754_nan => false
    end.

(** [math.Max], with the special cases of the Go library in its order:
    an argument +Inf, an argument NaN, two zeros, then [x > y]. *)
Definition max (x y : spec_float) : spec_float :=
    if is_pinf x || is_pinf y then S754_infinity false
    else if is_nan x || is_nan y then S754_nan
    else if is_zero x && is_zero y then (if signbit x then y else x)
    else if gtb x y then x else y.

(** The integer part of a float, towards zero; [None] for NaN and the
    infinities. *)
Definition trunc (x : spec_float) : option Z :=
    match x with
    | S754_zero _ => Some 0
    | S754_finite s m e =>
        Some (cond_Zopp s
                (if 0 <=? e then Z.pos m * 2 ^ e else Z.pos m / 2 ^ (- e)))
    | _ => None
    end.

(** [int(x)] for a [float64] x. The conversion discards the fraction.
    For a value that does not fit the language leaves the result to the
    implementation; the 64-bit x86 conversion instruction gives the
    smallest integer. The one conversion of the service, in
    [calculateAdaptiveThreshold], never meets such a value. *)
Definition to_int (x : spec_float) : Z :=
    match trunc x with
    | Some z => if Int.in_rangeb z then z else Int.min_int
    | None => Int.min_int
    end.

(** The constant [0.025] : the binary64 nearest to it, 0x1.999999999999ap-6. *)
Definition c0_025 : spec_float := S754_finite false 7205759403792794 (-58).

(** The constant [1.5], exact. *)
Definition c1_5 : spec_float := S754_finite false 6755399441055744 (-52).

End F64.

(** ** Package [models] *)

Module models.

(** Modelled from the spec: the declaration of [models.WindowPosition]
    is not among the sources; the fields are the ones the service reads. *)
Record WindowPosition := mkPos { X : Z; Y : Z }.

(** Modelled from the spec: the declaration of [models.SnapPosition]
    (the type of [SnapOffset]) is not among the sources. Its fields [X]
    and [Y] are [dX] and [dY] here. *)
Record SnapPosition := mkOff { dX : Z; dY : Z }.

(** Modelled from the spec: the declaration of [models.SnapEdge] is not
    among the sources; the constructors are the constants the service
    uses. *)
Inductive SnapEdge :=
  | SnapEdgeNone
  | SnapEdgeTop
  | SnapEdgeBottom
  | SnapEdgeLeft
  | SnapEdgeRight
  | SnapEdgeTopLeft
  | SnapEdgeTopRight
  | SnapEdgeBottomLeft
  | SnapEdgeBottomRight.

(** Modelled from the spec: the declaration of [models.WindowInfo] is
    not among the sources; the fields are the ones [RegisterWindow]
    initialises. The field [SnapEdge] of the source is [Edge] here. *)
Record WindowInfo := mkInfo {
    DocumentID : Z;
    IsSnapped : bool;
    SnapOffset : SnapPosition;
    Edge : SnapEdge;
    LastPos : WindowPosition;
    MoveTime : Z
  }.

End models.

Export models.

#[global] Instance SnapEdge_eq_dec : EqDecision SnapEdge.
Proof. solve_decision. Defined.

#[global] Instance WindowPosition_eq_dec : EqDecision WindowPosition.
Proof. solve_decision. Defined.

#[global] Instance SnapPosition_eq_dec : EqDecision SnapPosition.
Proof. solve_decision. Defined.

#[global] Instance WindowInfo_eq_dec : EqDecision WindowInfo.
Proof. solve_decision. Defined.

Definition is_corner (e : SnapEdge) : bool :=
  match e with
  | SnapEdgeTopLeft | SnapEdgeTopRight | SnapEdgeBottomLeft | SnapEdgeBottomRight => true
  | _ => false
  end.

Definition is_side (e : SnapEdge) : bool :=
  match e with
  | SnapEdgeTop | SnapEdgeBottom | SnapEdgeLeft | SnapEdgeRight => true
  | _ => false
  end.

(** ** The windowing layer *)

Record Window := mkWindow { winPos : WindowPosition; winSize : Z * Z }.

(** The primary window, when the application has one; the document
    windows by document id; the [SetPosition] calls received, the latest
    first. *)
Record Desktop := mkDesktop {
  mainWindow : option Window;
  windows : gmap Z Window;
  moves : list (Z * WindowPosition)
}.

(** [window.Position()] and [window.Size()]. *)
Definition window_Position (d : Desktop) (id : Z) : WindowPosition :=
  match windows d !! id with Some w => winPos w | None => mkPos 0 0 end.

Definition window_Size (d : Desktop) (id : Z) : Z * Z :=
  match windows d !! id with Some w => winSize w | None => (0, 0) end.

(** The effect of [window.SetPosition(x, y)] on the windowing layer. *)
Definition place (id : Z) (p : WindowPosition) (d : Desktop) : Desktop :=
  {| mainWindow := mainWindow d;
     windows := <[id := mkWindow p (window_Size d id)]> (windows d);
     moves := (id, p) :: moves d |}.

(** The user (or the window manager) moves a document window. *)
Definition drag (id : Z) (p : WindowPosition) (d : Desktop) : Desktop :=
  {| mainWindow := mainWindow d;
     windows := <[id := mkWindow p (window_Size d id)]> (windows d);
     moves := moves d |}.

(** The user moves the primary window. *)
Definition drag_main (p : WindowPosition) (d : Desktop) : Desktop :=
  {| mainWindow :=
       Some (mkWindow p (match mainWindow d with Some w => winSize w | None => (0, 0) end));
     windows := windows d;
     moves := moves d |}.

(** ** The service *)

(** [debounceThreshold] and [dragDetectionThreshold], in nanoseconds. *)
Definition debounceThreshold : Z := 30 * 1000000.
Definition dragDetectionThreshold : Z := 40 * 1000000.

(** The fields of the Go struct that carry state. [mainMoveUnhook] tells
    whether the hook on the primary window is installed, and
    [windowMoveUnhooks] which document windows have a move hook. *)
Record WindowSnapService := mkService {
  snapEnabled : bool;
  baseThresholdRatio : spec_float;
  minThreshold : Z;
  maxThreshold : Z;
  lastMainWindowPos : WindowPosition;
  lastMainWindowSize : Z * Z;
  managedWindows : gmap Z WindowInfo;
  windowRefs : gset Z;
  windowSizeCache : gmap Z (Z * Z);
  isUpdatingPosition : gmap Z bool;
  mainMoveUnhook : bool;
  windowMoveUnhooks : gset Z
}.

(** The service together with the windowing layer it talks to. *)
Record System := mkSystem { svc : WindowSnapService; desk : Desktop }.

(** The readings of the clock a move handler takes: [t_now] is the
    [time.Now()] stored in [MoveTime], [t_since] the later reading inside
    [time.Since]. *)
Record Clock := mkClock { t_now : Z; t_since : Z }.

(** The values a configuration observer can be handed as [interface{}]. *)
Inductive GoValue :=
| VNil
| VBool (b : bool)
| VInt (n : Z)
| VFloat (f : spec_float)
| VString (s : list Z).

(** *** Field updates *)

Definition set_snapEnabled (b : bool) (w : WindowSnapService) : WindowSnapService :=
  mkService b (baseThresholdRatio w) (minThreshold w) (maxThreshold w)
    (lastMainWindowPos w) (lastMainWindowSize w) (managedWindows w) (windowRefs w)
    (windowSizeCache w) (isUpdatingPosition w) (mainMoveUnhook w) (windowMoveUnhooks w).

Definition set_mainCache (p : WindowPosition) (sz : Z * Z) (w : WindowSnapService)
  : WindowSnapService :=
  mkService (snapEnabled w) (baseThresholdRatio w) (minThreshold w) (maxThreshold w)
    p sz (managedWindows w) (windowRefs w)
    (windowSizeCache w) (isUpdatingPosition w) (mainMoveUnhook w) (windowMoveUnhooks w).

Definition set_managedWindows (m : gmap Z WindowInfo) (w : WindowSnapService)
  : WindowSnapService :=
  mkService (snapEnabled w) (baseThresholdRatio w) (minThreshold w) (maxThreshold w)
    (lastMainWindowPos w) (lastMainWindowSize w) m (windowRefs w)
    (windowSizeCache w) (isUpdatingPosition w) (mainMoveUnhook w) (windowMoveUnhooks w).

Definition set_windowRefs (r : gset Z) (w : WindowSnapService) : WindowSnapService :=
  mkService (snapEnabled w) (baseThresholdRatio w) (minThreshold w) (maxThreshold w)
    (lastMainWindowPos w) (lastMainWindowSize w) (managedWindows w) r
    (windowSizeCache w) (isUpdatingPosition w) (mainMoveUnhook w) (windowMoveUnhooks w).

Definition set_windowSizeCache (c : gmap Z (Z * Z)) (w : WindowSnapService)
  : WindowSnapService :=
  mkService (snapEnabled w) (baseThresholdRatio w) (minThreshold w) (maxThreshold w)
    (lastMainWindowPos w) (lastMainWindowSize w) (managedWindows w) (windowRefs w)
    c (isUpdatingPosition w) (mainMoveUnhook w) (windowMoveUnhooks w).

Definition set_isUpdatingPosition (g : gmap Z bool) (w : WindowSnapService)
  : WindowSnapService :=
  mkService (snapEnabled w) (baseThresholdRatio w) (minThreshold w) (maxThreshold w)
    (lastMainWindowPos w) (lastMainWindowSize w) (managedWindows w) (windowRefs w)
    (windowSizeCache w) g (mainMoveUnhook w) (windowMoveUnhooks w).

Definition set_mainMoveUnhook (h : bool) (w : WindowSnapService) : WindowSnapService :=
  mkService (snapEnabled w) (baseThresholdRatio w) (minThreshold w) (maxThreshold w)
    (lastMainWindowPos w) (lastMainWindowSize w) (managedWindows w) (windowRefs w)
    (windowSizeCache w) (isUpdatingPosition w) h (windowMoveUnhooks w).

Definition set_windowMoveUnhooks (h : gset Z) (w : WindowSnapService) : WindowSnapService :=
  mkService (snapEnabled w) (baseThresholdRatio w) (minThreshold w) (maxThreshold w)
    (lastMainWindowPos w) (lastMainWindowSize w) (managedWindows w) (windowRefs w)
    (windowSizeCache w) (isUpdatingPosition w) (mainMoveUnhook w) h.

Definition on_svc (f : WindowSnapService -> WindowSnapService) (s : System) : System :=
  mkSystem (f (svc s)) (desk s).

Definition on_desk (f : Desktop -> Desktop) (s : System) : System :=
  mkSystem (svc s) (f (desk s)).

(** A [*models.WindowInfo] is shared between [managedWindows] and the
    hook of its window: a write through the pointer is a write to the
    entry of the map. *)
Definition on_info (id : Z) (f : WindowInfo -> WindowInfo) (s : System) : System :=
  on_svc (fun w => set_managedWindows (alter f id (managedWindows w)) w) s.

Definition set_IsSnapped (b : bool) (i : WindowInfo) : WindowInfo :=
  mkInfo (DocumentID i) b (SnapOffset i) (Edge i) (LastPos i) (MoveTime i).

Definition set_SnapOffset (o : SnapPosition) (i : WindowInfo) : WindowInfo :=
  mkInfo (DocumentID i) (IsSnapped i) o (Edge i) (LastPos i) (MoveTime i).

Definition set_Edge (e : SnapEdge) (i : WindowInfo) : WindowInfo :=
  mkInfo (DocumentID i) (IsSnapped i) (SnapOffset i) e (LastPos i) (MoveTime i).

Definition set_LastPos (p : WindowPosition) (i : WindowInfo) : WindowInfo :=
  mkInfo (DocumentID i) (IsSnapped i) (SnapOffset i) (Edge i) p (MoveTime i).

Definition set_MoveTime (t : Z) (i : WindowInfo) : WindowInfo :=
  mkInfo (DocumentID i) (IsSnapped i) (SnapOffset i) (Edge i) (LastPos i) t.

(** [wss.isUpdatingPosition[id]]: a missing key reads [false]. *)
Definition updating (s : System) (id : Z) : bool :=
  default false (isUpdatingPosition (svc s) !! id).

Definition set_updating (id : Z) (b : bool) (s : System) : System :=
  on_svc (fun w => set_isUpdatingPosition (<[id := b]> (isUpdatingPosition w)) w) s.

(** [window.SetPosition(x, y)] on the window of document [id]. The
    windowing layer may run the move hook of that window before the call
    returns: [echo] is that hook. *)
Definition SetPosition (echo : Z -> System -> System) (id : Z) (p : WindowPosition)
    (s : System) : System :=
  echo id (on_desk (place id p) s).

(** No hook runs inside [SetPosition]. *)
Definition no_echo : Z -> System -> System := fun _ s => s.

(** *** Construction and configuration *)

(** [NewWindowSnapService]; [config] is [None] when [GetConfig] returns an
    error, and the value of [General.EnableWindowSnap] otherwise. *)
Definition NewWindowSnapService (config : option bool) : WindowSnapService :=
  let snapEnabled := match config with Some b => b | None => true end in
  mkService snapEnabled F64.c0_025 8 40 (mkPos 0 0) (0, 0) ∅ ∅ ∅ ∅ false ∅.

Definition SetSnapEnabled (enabled : bool) (s : System) : System :=
  if bool_decide (snapEnabled (svc s) = enabled) then s
  else
    let s := on_svc (set_snapEnabled enabled) s in
    if negb enabled then
      on_svc (fun w =>
        set_managedWindows
          ((fun i => if IsSnapped i then set_Edge SnapEdgeNone (set_IsSnapped false i) else i)
             <$> managedWindows w) w) s
    else s.

Definition OnWindowSnapConfigChanged (enabled : bool) (s : System) : System :=
  SetSnapEnabled enabled s.

(** The value [onWindowSnapConfigChange] passes on. *)
Definition parse_enabled (newValue : GoValue) : bool :=
  match newValue with
  | VBool val => val
  | _ => false
  end.

Definition onWindowSnapConfigChange (oldValue newValue : GoValue) (s : System) : System :=
  OnWindowSnapConfigChanged (parse_enabled newValue) s.

(** *** Thresholds and caches *)

Definition calculateAdaptiveThreshold (w : WindowSnapService) : Z :=
  let mainWidth := fst (lastMainWindowSize w) in
  if mainWidth =? 0 then minThreshold w
  else
    let adaptiveThreshold :=
      F64.to_int (F64.mul (F64.of_int mainWidth) (baseThresholdRatio w)) in
    if adaptiveThreshold <? minThreshold w then minThreshold w
    else if maxThreshold w <? adaptiveThreshold then maxThreshold w
    else adaptiveThreshold.

(** [GetCurrentThreshold]: the value returned and the state it leaves. *)
Definition GetCurrentThreshold (s : System) : Z * System :=
  (calculateAdaptiveThreshold (svc s), s).

Definition updateMainWindowCacheLocked (s : System) : System :=
  match mainWindow (desk s) with
  | None => s
  | Some mw => on_svc (set_mainCache (winPos mw) (winSize mw)) s
  end.

Definition UpdateMainWindowCache (s : System) : System :=
  updateMainWindowCacheLocked s.

Definition updateWindowSizeCacheLocked (id : Z) (s : System) : System :=
  on_svc (fun w =>
    set_windowSizeCache (<[id := window_Size (desk s) id]> (windowSizeCache w)) w) s.

Definition getWindowSizeCached (id : Z) (s : System) : (Z * Z) * System :=
  match windowSizeCache (svc s) !! id with
  | Some size => (size, s)
  | None =>
      let s := updateWindowSizeCacheLocked id s in
      match windowSizeCache (svc s) !! id with
      | Some size => (size, s)
      | None => (window_Size (desk s) id, s)
      end
  end.

(** *** Registration *)

Definition setupMainWindowEvents (s : System) : System :=
  if mainMoveUnhook (svc s) then s
  else
    match mainWindow (desk s) with
    | None => s
    | Some _ => on_svc (set_mainMoveUnhook true) s
    end.

Definition cleanupMainWindowEvents (s : System) : System :=
  if mainMoveUnhook (svc s) then on_svc (set_mainMoveUnhook false) s else s.

Definition setupWindowEvents (id : Z) (s : System) : System :=
  on_svc (fun w => set_windowMoveUnhooks ({[id]} ∪ windowMoveUnhooks w) w) s.

(** [RegisterWindow]; [now] is the reading of [time.Now()]. *)
Definition RegisterWindow (documentID : Z) (now : Z) (s : System) : System :=
  let p := window_Position (desk s) documentID in
  let windowInfo := mkInfo documentID false (mkOff 0 0) SnapEdgeNone p now in
  let s := on_svc (fun w =>
             set_windowRefs ({[documentID]} ∪ windowRefs w)
               (set_managedWindows (<[documentID := windowInfo]> (managedWindows w)) w)) s in
  let s := updateWindowSizeCacheLocked documentID s in
  let s := if bool_decide (size (managedWindows (svc s)) = 1%nat)
           then setupMainWindowEvents s else s in
  setupWindowEvents documentID s.

Definition UnregisterWindow (documentID : Z) (s : System) : System :=
  let s := on_svc (fun w => set_windowMoveUnhooks (windowMoveUnhooks w ∖ {[documentID]}) w) s in
  let s := on_svc (fun w =>
             set_isUpdatingPosition (delete documentID (isUpdatingPosition w))
               (set_windowSizeCache (delete documentID (windowSizeCache w))
                  (set_windowRefs (windowRefs w ∖ {[documentID]})
                     (set_managedWindows (delete documentID (managedWindows w)) w)))) s in
  if bool_decide (size (managedWindows (svc s)) = 0%nat)
  then cleanupMainWindowEvents s else s.

(** *** Snap detection *)

Record snapCheck := mkCheck { edge : SnapEdge; distance : spec_float; priority : Z }.

(** The table [cornerChecks]: edge, dx, dy. *)
Definition cornerChecks (mainLeft mainTop mainRight mainBottom
                         windowLeft windowTop windowRight windowBottom : Z)
  : list (SnapEdge * Z * Z) :=
  [ (SnapEdgeTopRight, Int.sub mainRight windowLeft, Int.sub mainTop windowBottom);
    (SnapEdgeBottomRight, Int.sub mainRight windowLeft, Int.sub mainBottom windowTop);
    (SnapEdgeBottomLeft, Int.sub mainLeft windowRight, Int.sub mainBottom windowTop);
    (SnapEdgeTopLeft, Int.sub mainLeft windowRight, Int.sub mainTop windowBottom) ].

(** The table [edgeChecks]: edge, distance. *)
Definition edgeChecks (mainLeft mainTop mainRight mainBottom
                       windowLeft windowTop windowRight windowBottom : Z)
  : list (SnapEdge * spec_float) :=
  [ (SnapEdgeRight, F64.abs (F64.of_int (Int.sub mainRight windowLeft)));
    (SnapEdgeLeft, F64.abs (F64.of_int (Int.sub mainLeft windowRight)));
    (SnapEdgeBottom, F64.abs (F64.of_int (Int.sub mainBottom windowTop)));
    (SnapEdgeTop, F64.abs (F64.of_int (Int.sub mainTop windowBottom))) ].

(** [math.Sqrt(float64(dx*dx + dy*dy))]. *)
Definition corner_dist (dx dy : Z) : spec_float :=
  F64.sqrt (F64.of_int (Int.add (Int.mul dx dx) (Int.mul dy dy))).

(** One turn of the loop over [cornerChecks]. *)
Definition corner_step (cornerThreshold : spec_float) (bestSnap : option snapCheck)
    (check : SnapEdge * Z * Z) : option snapCheck :=
  let '(e, dx, dy) := check in
  let dist := corner_dist dx dy in
  if F64.leb dist cornerThreshold then
    match bestSnap with
    | None => Some (mkCheck e dist 1)
    | Some b => if F64.ltb dist (distance b) then Some (mkCheck e dist 1) else bestSnap
    end
  else bestSnap.

(** One turn of the loop over [edgeChecks]. *)
Definition edge_step (threshold : spec_float) (bestSnap : option snapCheck)
    (check : SnapEdge * spec_float) : option snapCheck :=
  let '(e, dist) := check in
  if F64.leb dist threshold then
    match bestSnap with
    | None => Some (mkCheck e dist 2)
    | Some b => if F64.ltb dist (distance b) then Some (mkCheck e dist 2) else bestSnap
    end
  else bestSnap.

(** The part of [shouldSnapToMainWindow] after the caches are read. *)
Definition choose_snap (threshold : Z) (mainPos : WindowPosition) (mainSize : Z * Z)
    (currentPos : WindowPosition) (windowSize : Z * Z) : option snapCheck :=
  let threshold := F64.of_int threshold in
  let cornerThreshold := F64.mul threshold F64.c1_5 in
  let mainLeft := X mainPos in
  let mainTop := Y mainPos in
  let mainRight := Int.add (X mainPos) (fst mainSize) in
  let mainBottom := Int.add (Y mainPos) (snd mainSize) in
  let windowLeft := X currentPos in
  let windowTop := Y currentPos in
  let windowRight := Int.add (X currentPos) (fst windowSize) in
  let windowBottom := Int.add (Y currentPos) (snd windowSize) in
  let bestSnap :=
    fold_left (corner_step cornerThreshold)
      (cornerChecks mainLeft mainTop mainRight mainBottom
         windowLeft windowTop windowRight windowBottom) None in
  match bestSnap with
  | None =>
      fold_left (edge_step threshold)
        (edgeChecks mainLeft mainTop mainRight mainBottom
           windowLeft windowTop windowRight windowBottom) None
  | Some _ => bestSnap
  end.

(** [shouldSnapToMainWindow]; [t_since] is the reading of the clock inside
    [time.Since(lastMoveTime)]. *)
Definition shouldSnapToMainWindow (id : Z) (currentPos : WindowPosition)
    (lastMoveTime t_since : Z) (s : System) : (bool * SnapEdge) * System :=
  let timeSinceLastMove := t_since - lastMoveTime in
  if timeSinceLastMove <? debounceThreshold then ((false, SnapEdgeNone), s)
  else
    let s := if (fst (lastMainWindowSize (svc s)) =? 0)
                || (snd (lastMainWindowSize (svc s)) =? 0)
             then updateMainWindowCacheLocked s else s in
    let mainPos := lastMainWindowPos (svc s) in
    let mainSize := lastMainWindowSize (svc s) in
    let '(windowSize, s) := getWindowSizeCached id s in
    let threshold := calculateAdaptiveThreshold (svc s) in
    match choose_snap threshold mainPos mainSize currentPos windowSize with
    | None => ((false, SnapEdgeNone), s)
    | Some bestSnap => ((true, edge bestSnap), s)
    end.

(** The [switch] of [calculateSnapPosition]. *)
Definition snap_position (snapEdge : SnapEdge) (currentPos mainPos : WindowPosition)
    (mainWidth mainHeight windowWidth windowHeight : Z) : WindowPosition :=
  match snapEdge with
  | SnapEdgeRight => mkPos (Int.add (X mainPos) mainWidth) (Y currentPos)
  | SnapEdgeLeft => mkPos (Int.sub (X mainPos) windowWidth) (Y currentPos)
  | SnapEdgeBottom => mkPos (X currentPos) (Int.add (Y mainPos) mainHeight)
  | SnapEdgeTop => mkPos (X currentPos) (Int.sub (Y mainPos) windowHeight)
  | SnapEdgeTopRight =>
      mkPos (Int.add (X mainPos) mainWidth) (Int.sub (Y mainPos) windowHeight)
  | SnapEdgeBottomRight =>
      mkPos (Int.add (X mainPos) mainWidth) (Int.add (Y mainPos) mainHeight)
  | SnapEdgeBottomLeft =>
      mkPos (Int.sub (X mainPos) windowWidth) (Int.add (Y mainPos) mainHeight)
  | SnapEdgeTopLeft =>
      mkPos (Int.sub (X mainPos) windowWidth) (Int.sub (Y mainPos) windowHeight)
  | SnapEdgeNone => currentPos
  end.

Definition calculateSnapPosition (snapEdge : SnapEdge) (currentPos : WindowPosition)
    (documentID : Z) (s : System) : WindowPosition * System :=
  let mainPos := lastMainWindowPos (svc s) in
  let mainWidth := fst (lastMainWindowSize (svc s)) in
  let mainHeight := snd (lastMainWindowSize (svc s)) in
  let '((windowWidth, windowHeight), s) := getWindowSizeCached documentID s in
  (snap_position snapEdge currentPos mainPos mainWidth mainHeight windowWidth windowHeight, s).

(** *** Move handlers *)

Definition updateSnappedWindowPosition (echo : Z -> System -> System) (id : Z)
    (s : System) : System :=
  match managedWindows (svc s) !! id with
  | None => s
  | Some windowInfo =>
      let expectedX := Int.add (X (lastMainWindowPos (svc s))) (dX (SnapOffset windowInfo)) in
      let expectedY := Int.add (Y (lastMainWindowPos (svc s))) (dY (SnapOffset windowInfo)) in
      if bool_decide (id ∈ windowRefs (svc s)) then
        let s := set_updating id true s in
        let s := SetPosition echo id (mkPos expectedX expectedY) s in
        let s := set_updating id false s in
        on_info id (set_LastPos (mkPos expectedX expectedY)) s
      else s
  end.

(** [handleSnappedWindow]; [t_since] is the reading of the clock inside
    [time.Since(windowInfo.MoveTime)]. *)
Definition handleSnappedWindow (id : Z) (currentPos : WindowPosition) (t_since : Z)
    (s : System) : System :=
  match managedWindows (svc s) !! id with
  | None => s
  | Some windowInfo =>
      let expectedX := Int.add (X (lastMainWindowPos (svc s))) (dX (SnapOffset windowInfo)) in
      let expectedY := Int.add (Y (lastMainWindowPos (svc s))) (dY (SnapOffset windowInfo)) in
      let distanceX := F64.abs (F64.of_int (Int.sub (X currentPos) expectedX)) in
      let distanceY := F64.abs (F64.of_int (Int.sub (Y currentPos) expectedY)) in
      let maxDistance := F64.max distanceX distanceY in
      let userDragThreshold := F64.of_int (calculateAdaptiveThreshold (svc s)) in
      let isUserDrag :=
        F64.gtb maxDistance userDragThreshold
        && (t_since - MoveTime windowInfo <? dragDetectionThreshold) in
      if isUserDrag then
        on_info id (set_Edge SnapEdgeNone) (on_info id (set_IsSnapped false) s)
      else s
  end.

Definition handleUnsnappedWindow (echo : Z -> System -> System) (id : Z)
    (currentPos : WindowPosition) (lastMoveTime t_since : Z) (s : System)
  : bool * System :=
  let '((should, snapEdge), s) :=
    shouldSnapToMainWindow id currentPos lastMoveTime t_since s in
  if should then
    let s := on_info id (set_IsSnapped true) s in
    let s := on_info id (set_Edge snapEdge) s in
    let '(targetPos, s) := calculateSnapPosition snapEdge currentPos id s in
    let s := set_updating id true s in
    let s := SetPosition echo id targetPos s in
    let s := set_updating id false s in
    let s := on_info id (set_SnapOffset
                 (mkOff (Int.sub (X targetPos) (X (lastMainWindowPos (svc s))))
                        (Int.sub (Y targetPos) (Y (lastMainWindowPos (svc s)))))) s in
    let s := on_info id (set_LastPos targetPos) s in
    (true, s)
  else (false, s).

(** [onChildWindowMoved] for the window of document [id]; the
    [*models.WindowInfo] its hook holds is the entry of [managedWindows]. *)
Definition onChildWindowMoved (echo : Z -> System -> System) (id : Z) (clk : Clock)
    (s : System) : System :=
  if negb (snapEnabled (svc s)) then s
  else
    match managedWindows (svc s) !! id with
    | None => s
    | Some windowInfo =>
        if updating s id then s
        else
          let currentPos := window_Position (desk s) id in
          if (X currentPos =? X (LastPos windowInfo))
             && (Y currentPos =? Y (LastPos windowInfo))
          then s
          else
            let lastMoveTime := MoveTime windowInfo in
            let s := on_info id (set_MoveTime (t_now clk)) s in
            if IsSnapped windowInfo then
              let s := handleSnappedWindow id currentPos (t_since clk) s in
              on_info id (set_LastPos currentPos) s
            else
              let '(isSnapped, s) :=
                handleUnsnappedWindow echo id currentPos lastMoveTime (t_since clk) s in
              if isSnapped then s else on_info id (set_LastPos currentPos) s
    end.

(** The loop of [onMainWindowMoved] over the windows of [ids]. *)
Definition update_snapped (echo : Z -> System -> System) (ids : list Z) (s : System)
  : System :=
  fold_left
    (fun s id =>
       match managedWindows (svc s) !! id with
       | Some windowInfo =>
           if IsSnapped windowInfo then updateSnappedWindowPosition echo id s else s
       | None => s
       end)
    ids s.

Definition onMainWindowMoved (echo : Z -> System -> System) (s : System) : System :=
  if negb (snapEnabled (svc s)) then s
  else
    match mainWindow (desk s) with
    | None => s
    | Some mw =>
        let s := on_svc (set_mainCache (winPos mw) (winSize mw)) s in
        update_snapped echo (map_to_list (managedWindows (svc s))).*1 s
    end.

(** The move hook of a document window as the windowing layer runs it
    from inside [SetPosition], nested at most [n] deep. *)
Fixpoint hook (n : nat) (clk : Clock) (id : Z) (s : System) : System :=
  match n with
  | O => s
  | S k =>
      if bool_decide (id ∈ windowMoveUnhooks (svc s))
      then onChildWindowMoved (hook k clk) id clk s
      else s
  end.

(** *** Events *)

(** The window of document [id] is moved to [p] and its hook, if it has
    one, runs. *)
Definition child_moved (n : nat) (id : Z) (p : WindowPosition) (clk : Clock)
    (s : System) : System :=
  let s := on_desk (drag id p) s in
  if bool_decide (id ∈ windowMoveUnhooks (svc s))
  then onChildWindowMoved (hook n clk) id clk s
  else s.

(** The primary window is moved to [p] and its hook, if installed, runs. *)
Definition main_moved (n : nat) (p : WindowPosition) (clk : Clock) (s : System) : System :=
  let s := on_desk (drag_main p) s in
  if mainMoveUnhook (svc s) then onMainWindowMoved (hook n clk) s else s.

(** The states the service goes through, from its construction on. *)
Inductive reachable : System -> Prop :=
| R_new config d :
    reachable (mkSystem (NewWindowSnapService config) d)
| R_desktop s d :
    reachable s -> reachable (mkSystem (svc s) d)
| R_register s id now :
    reachable s -> reachable (RegisterWindow id now s)
| R_unregister s id :
    reachable s -> reachable (UnregisterWindow id s)
| R_enable s b :
    reachable s -> reachable (SetSnapEnabled b s)
| R_config s old new :
    reachable s -> reachable (onWindowSnapConfigChange old new s)
| R_cache s :
    reachable s -> reachable (UpdateMainWindowCache s)
| R_child s n id p clk :
    reachable s -> reachable (child_moved n id p clk s)
| R_main s n p clk :
    reachable s -> reachable (main_moved n p clk s).

(** *** Scenario of the specification *)

Definition primary_A : Window := mkWindow (mkPos 100 100) (700, 800).

Definition desk_A : Desktop :=
  mkDesktop (Some primary_A) {[ 1 := mkWindow (mkPos 1500 300) (400, 300) ]} [].

(** The service after start-up with one document window registered at
    time 0. *)
Definition sys_A : System :=
  RegisterWindow 1 0
    (UpdateMainWindowCache (mkSystem (NewWindowSnapService (Some true)) desk_A)).

Definition ms (n : Z) : Z := n * 1000000.


(** ** Auxiliary definitions of the statements *)

(** The parameters [NewWindowSnapService] gives the service; no operation
    changes them. *)
Definition configured (w : WindowSnapService) : Prop :=
  baseThresholdRatio w = F64.c0_025 /\ minThreshold w = 8 /\ maxThreshold w = 40.

(** [calculateAdaptiveThreshold] of a configured service, as a function
    of the cached width of the primary window. *)
Definition adaptive (mainWidth : Z) : Z :=
  calculateAdaptiveThreshold
    (set_mainCache (mkPos 0 0) (mainWidth, 0) (NewWindowSnapService None)).

(** [clamp(x, lo, hi)]. *)
Definition clamp (x lo hi : Z) : Z := Z.max lo (Z.min hi x).

(** [P] holds of the [n] integers from [lo] on. *)
Fixpoint forall_from (P : Z -> bool) (lo : Z) (n : nat) : bool :=
  match n with
  | O => true
  | S k => P lo && forall_from P (lo + 1) k
  end.

(** A hook that returns at once for a window whose re-entrancy flag is
    set. *)
Definition respects_guard (echo : Z -> System -> System) : Prop :=
  forall id s, updating s id = true -> echo id s = s.

(** A state of the service with snapping switched off. *)
Definition sys_off : System :=
  RegisterWindow 1 0 (mkSystem (NewWindowSnapService (Some false)) desk_A).

(** The position of a float that is not NaN in the order [SFcompare]
    decides: sign class, then exponent, then mantissa. *)
Definition rank (x : spec_float) : Z * Z * Z :=
  match x with
  | S754_infinity true => (-2, 0, 0)
  | S754_finite true m e => (-1, - e, - Z.pos m)
  | S754_zero _ => (0, 0, 0)
  | S754_nan => (0, 0, 0)
  | S754_finite false m e => (1, e, Z.pos m)
  | S754_infinity false => (2, 0, 0)
  end.

Definition lex_lt (a b : Z * Z * Z) : Prop :=
  let '(a1, a2, a3) := a in
  let '(b1, b2, b3) := b in
  a1 < b1 \/ (a1 = b1 /\ (a2 < b2 \/ (a2 = b2 /\ a3 < b3))).

(** The candidates of the two loops of [shouldSnapToMainWindow], each
    with the distance the loop compares. *)
Definition corner_candidates (mainPos : WindowPosition) (mainSize : Z * Z)
    (currentPos : WindowPosition) (windowSize : Z * Z) : list (SnapEdge * spec_float) :=
  map (fun c : SnapEdge * Z * Z => let '(e, dx, dy) := c in (e, corner_dist dx dy))
    (cornerChecks (X mainPos) (Y mainPos)
       (Int.add (X mainPos) (fst mainSize)) (Int.add (Y mainPos) (snd mainSize))
       (X currentPos) (Y currentPos)
       (Int.add (X currentPos) (fst windowSize)) (Int.add (Y currentPos) (snd windowSize))).

Definition side_candidates (mainPos : WindowPosition) (mainSize : Z * Z)
    (currentPos : WindowPosition) (windowSize : Z * Z) : list (SnapEdge * spec_float) :=
  edgeChecks (X mainPos) (Y mainPos)
    (Int.add (X mainPos) (fst mainSize)) (Int.add (Y mainPos) (snd mainSize))
    (X currentPos) (Y currentPos)
    (Int.add (X currentPos) (fst windowSize)) (Int.add (Y currentPos) (snd windowSize)).

(** [c] is accepted under [thr] and no accepted candidate of [l] is
    strictly nearer. *)
Definition nearest_accepted (thr : spec_float) (l : list (SnapEdge * spec_float))
    (c : SnapEdge * spec_float) : Prop :=
  In c l /\ F64.leb (snd c) thr = true
  /\ forall c', In c' l -> F64.leb (snd c') thr = true -> F64.ltb (snd c') (snd c) = false.

Definition none_accepted (thr : spec_float) (l : list (SnapEdge * spec_float)) : Prop :=
  forall c, In c l -> F64.leb (snd c) thr = false.

(** [s'] differs from [s] in the cached geometry at most. *)
Definition caches_only (s s' : System) : Prop :=
  desk s' = desk s
  /\ snapEnabled (svc s') = snapEnabled (svc s)
  /\ baseThresholdRatio (svc s') = baseThresholdRatio (svc s)
  /\ minThreshold (svc s') = minThreshold (svc s)
  /\ maxThreshold (svc s') = maxThreshold (svc s)
  /\ managedWindows (svc s') = managedWindows (svc s)
  /\ windowRefs (svc s') = windowRefs (svc s)
  /\ isUpdatingPosition (svc s') = isUpdatingPosition (svc s)
  /\ mainMoveUnhook (svc s') = mainMoveUnhook (svc s)
  /\ windowMoveUnhooks (svc s') = windowMoveUnhooks (svc s).

(** The invariant of a window: attached exactly when it has an edge. *)
Definition info_ok (i : WindowInfo) : Prop :=
  IsSnapped i = true <-> Edge i <> SnapEdgeNone.

(** The invariant of the service. *)
Definition inv (s : System) : Prop :=
  configured (svc s)
  /\ (forall id i, managedWindows (svc s) !! id = Some i -> info_ok i)
  /\ (snapEnabled (svc s) = false ->
      forall id i, managedWindows (svc s) !! id = Some i -> IsSnapped i = false)
  /\ (forall id, id ∈ windowRefs (svc s) <-> is_Some (managedWindows (svc s) !! id)).

(** What no move handler changes: the switch, the parameters, the
    registry of references and hooks, and the re-entrancy flags as read. *)
Definition same_frame (s s' : System) : Prop :=
  snapEnabled (svc s') = snapEnabled (svc s)
  /\ baseThresholdRatio (svc s') = baseThresholdRatio (svc s)
  /\ minThreshold (svc s') = minThreshold (svc s)
  /\ maxThreshold (svc s') = maxThreshold (svc s)
  /\ windowRefs (svc s') = windowRefs (svc s)
  /\ mainMoveUnhook (svc s') = mainMoveUnhook (svc s)
  /\ windowMoveUnhooks (svc s') = windowMoveUnhooks (svc s)
  /\ (forall j, updating s' j = updating s j).

(** The service with one window attached to the right edge of the
    primary window (scenario A), at 100 ms. *)
Definition sys_snapped : System :=
  child_moved 1 1 (mkPos 805 250) (mkClock (ms 100) (ms 100)) sys_A.

(** The attached window after the user has nudged it by 5 pixels, within
    the threshold, at 300 ms. *)
Definition sys_nudged : System :=
  child_moved 1 1 (mkPos 805 250) (mkClock (ms 300) (ms 300)) sys_snapped.

(** The position [updateSnappedWindowPosition] computes for a window:
    the cached position of the primary window plus the stored offset. *)
Definition resync_target (main : WindowPosition) (i : WindowInfo) : WindowPosition :=
  mkPos (Int.add (X main) (dX (SnapOffset i))) (Int.add (Y main) (dY (SnapOffset i))).

(** What the loop of [onMainWindowMoved] leaves as it is. *)
Definition loop_frame (s s' : System) : Prop :=
  snapEnabled (svc s') = snapEnabled (svc s)
  /\ baseThresholdRatio (svc s') = baseThresholdRatio (svc s)
  /\ minThreshold (svc s') = minThreshold (svc s)
  /\ maxThreshold (svc s') = maxThreshold (svc s)
  /\ lastMainWindowPos (svc s') = lastMainWindowPos (svc s)
  /\ lastMainWindowSize (svc s') = lastMainWindowSize (svc s)
  /\ windowSizeCache (svc s') = windowSizeCache (svc s)
  /\ windowRefs (svc s') = windowRefs (svc s)
  /\ mainMoveUnhook (svc s') = mainMoveUnhook (svc s)
  /\ windowMoveUnhooks (svc s') = windowMoveUnhooks (svc s)
  /\ mainWindow (desk s') = mainWindow (desk s).

(** Whether the loop over [ids] moves window [j], whose record is [i]. *)
Definition resynced (s : System) (ids : list Z) (j : Z) (i : WindowInfo) : bool :=
  IsSnapped i && bool_decide (j ∈ ids) && bool_decide (j ∈ windowRefs (svc s)).

(** The record [SetSnapEnabled(false)] leaves for a window. *)
Definition detached (i : WindowInfo) : WindowInfo :=
  mkInfo (DocumentID i) false (SnapOffset i) SnapEdgeNone (LastPos i) (MoveTime i).

(** The nudged window of [sys_nudged] at the moment the primary window
    has been moved by (+30, +15). *)
Definition sys_primary_moved : System :=
  on_desk (drag_main (mkPos 130 115)) sys_nudged.

(** Scenario A at the moment of the event: the window of document 1 has
    been dragged to 5 pixels right of the right edge of the primary
    window, 100 ms after its registration. *)
Definition clk_100 : Clock := mkClock (ms 100) (ms 100).


(** Scenario B at the moment of the event: the same window dragged to
    within 10 pixels of the top-right corner of the primary window. *)
Definition sys_B_dragged : System := on_desk (drag 1 (mkPos 807 (-206))) sys_A.

Definition info_A : WindowInfo :=
  mkInfo 1 false (mkOff 0 0) SnapEdgeNone (mkPos 1500 300) 0.

(** [math.Sqrt(float64(n))]. *)
Definition sqrt_of_int (n : Z) : spec_float := F64.sqrt (F64.of_int n).

(** The corner threshold of a threshold [t]: [float64(t) * 1.5]. *)
Definition corner_threshold (t : Z) : spec_float := F64.mul (F64.of_int t) F64.c1_5.

(** ** Shutdown *)

(** [Cleanup]: the hook of the primary window is removed, the loop removes
    the hook of every document window, and the five maps are replaced by
    empty ones. The switch, the parameters and the cached geometry of the
    primary window stay. *)
Definition Cleanup (s : System) : System :=
  let s := cleanupMainWindowEvents s in
  let s := on_svc (fun w =>
             set_windowMoveUnhooks
               (fold_left (fun h documentID => h ∖ {[documentID]})
                  (elements (windowMoveUnhooks w)) (windowMoveUnhooks w)) w) s in
  on_svc (fun w =>
    set_windowMoveUnhooks ∅
      (set_isUpdatingPosition ∅
         (set_windowSizeCache ∅
            (set_windowRefs ∅
               (set_managedWindows ∅ w))))) s.


(** ** Runs of the service *)

(** The calls and events a service receives after its construction. *)
Inductive Op :=
| OpDesktop (d : Desktop)
| OpRegisterWindow (documentID now : Z)
| OpUnregisterWindow (documentID : Z)
| OpSetSnapEnabled (enabled : bool)
| OpConfigChange (oldValue newValue : GoValue)
| OpUpdateMainWindowCache
| OpChildMoved (n : nat) (id : Z) (p : WindowPosition) (clk : Clock)
| OpMainMoved (n : nat) (p : WindowPosition) (clk : Clock)
| OpCleanup.

Definition run_op (o : Op) (s : System) : System :=
  match o with
  | OpDesktop d => mkSystem (svc s) d
  | OpRegisterWindow documentID now => RegisterWindow documentID now s
  | OpUnregisterWindow documentID => UnregisterWindow documentID s
  | OpSetSnapEnabled enabled => SetSnapEnabled enabled s
  | OpConfigChange oldValue newValue => onWindowSnapConfigChange oldValue newValue s
  | OpUpdateMainWindowCache => UpdateMainWindowCache s
  | OpChildMoved n id p clk => child_moved n id p clk s
  | OpMainMoved n p clk => main_moved n p clk s
  | OpCleanup => Cleanup s
  end.

Definition run (ops : list Op) (s : System) : System :=
  fold_left (fun s o => run_op o s) ops s.

(** The service as [NewWindowSnapService] returns it, on desktop [d]. *)
Definition boot (config : option bool) (d : Desktop) : System :=
  mkSystem (NewWindowSnapService config) d.

(** The five maps of the service describe the same windows, no
    re-entrancy flag is left set, and the primary window is hooked only
    while a window is registered. *)
Definition registry_ok (s : System) : Prop :=
  (forall id, id ∈ windowRefs (svc s) <-> is_Some (managedWindows (svc s) !! id))
  /\ (forall id, id ∈ windowMoveUnhooks (svc s) <-> is_Some (managedWindows (svc s) !! id))
  /\ (forall id, is_Some (windowSizeCache (svc s) !! id)
                 <-> is_Some (managedWindows (svc s) !! id))
  /\ (forall id, is_Some (isUpdatingPosition (svc s) !! id)
                 -> is_Some (managedWindows (svc s) !! id))
  /\ (forall id, updating s id = false)
  /\ (mainMoveUnhook (svc s) = true -> managedWindows (svc s) <> ∅)
  /\ (forall id i, managedWindows (svc s) !! id = Some i -> DocumentID i = id).

(** The conditions on which [onChildWindowMoved] returns at once. *)
Definition ignores (id : Z) (s : System) : Prop :=
  snapEnabled (svc s) = false
  \/ managedWindows (svc s) !! id = None
  \/ updating s id = true
  \/ exists i, managedWindows (svc s) !! id = Some i
               /\ window_Position (desk s) id = LastPos i.

(** The run that leads to scenario A. *)
Definition ops_A : list Op := [OpUpdateMainWindowCache; OpRegisterWindow 1 0].

(** Whether an operation registers or drops the window of document [id]. *)
Definition changes_registration (id : Z) (o : Op) : bool :=
  match o with
  | OpRegisterWindow documentID _ => bool_decide (documentID = id)
  | OpUnregisterWindow documentID => bool_decide (documentID = id)
  | OpCleanup => true
  | _ => false
  end.

(** The move events of one drag of the window of document [id]: the
    positions it passes, each with the clock readings of its event. *)
Definition drag_events (n : nat) (id : Z) (events : list (WindowPosition * Clock))
    (s : System) : System :=
  fold_left (fun s event => child_moved n id (fst event) (snd event) s) events s.

(** Every event shows a new position less than 30 ms after the previous
    position was recorded at time [t]. *)
Fixpoint rapid (last : WindowPosition) (t : Z) (events : list (WindowPosition * Clock))
  : Prop :=
  match events with
  | [] => True
  | (p, clk) :: events =>
      p <> last /\ t_since clk - t < debounceThreshold /\ rapid p (t_now clk) events
  end.

(** ** Package [services]: the window service *)

(** [VOIDRAFT_WINDOW_WIDTH] and [VOIDRAFT_WINDOW_HEIGHT] of package
    [constant]. *)
Definition VOIDRAFT_WINDOW_WIDTH : Z := 700.
Definition VOIDRAFT_WINDOW_HEIGHT : Z := 800.

(** The window service holds a pointer to the snap service, which may be
    nil, and works on the windows of the application. *)
Record App := mkApp { windowSnapService : option WindowSnapService; screen : Desktop }.

(** A call of the snap service through the pointer, skipped when it is
    nil. *)
Definition with_snap (f : System -> System) (a : App) : App :=
  match windowSnapService a with
  | Some w => let s := f (mkSystem w (screen a)) in mkApp (Some (svc s)) (desk s)
  | None => a
  end.

(** The name of a window: the primary window has the fixed name
    [VOIDRAFT_MAIN_WINDOW_NAME], a document window the decimal form of its
    document id. *)
Inductive WindowName :=
| MainWindowName
| DocumentName (documentID : Z).

#[global] Instance WindowName_eq_dec : EqDecision WindowName.
Proof. solve_decision. Defined.

(** [strconv.ParseInt(name, 10, 64)]: the name of the primary window is
    no number. *)
Definition ParseInt (name : WindowName) : option Z :=
  match name with
  | MainWindowName => None
  | DocumentName documentID => Some documentID
  end.

(** [GetOpenWindows]: the names of all windows of the application. *)
Definition GetOpenWindows (a : App) : list WindowName :=
  match mainWindow (screen a) with Some _ => [MainWindowName] | None => [] end
  ++ (DocumentName <$> (map_to_list (windows (screen a))).*1).

Definition IsDocumentWindowOpen (documentID : Z) (a : App) : bool :=
  bool_decide (is_Some (windows (screen a) !! documentID)).

(** The results of [documentService.GetDocumentByID]: an error, a nil
    document, or a document. *)
Inductive DocLookup := LookupFailed | LookupNil | LookupFound.

(** The errors of [OpenDocumentWindow]. *)
Inductive OpenError := ErrFailedToGetDocument | ErrDocumentNotFound.


(** [OpenDocumentWindow]. For a window that exists, [Show], [Restore] and
    [Focus] leave its geometry. Otherwise the windowing layer creates the
    window at [p0]; [now] is the reading of the clock in [RegisterWindow];
    [Center] moves the window to [pc], and the move event of the window
    follows with the clock readings [clk]. *)
Definition OpenDocumentWindow (documentID : Z) (doc : DocLookup) (p0 pc : WindowPosition)
    (now : Z) (n : nat) (clk : Clock) (a : App) : option OpenError * App :=
  if IsDocumentWindowOpen documentID a then (None, a)
  else
    match doc with
    | LookupFailed => (Some ErrFailedToGetDocument, a)
    | LookupNil => (Some ErrDocumentNotFound, a)
    | LookupFound =>
        let newWindow := mkWindow p0 (VOIDRAFT_WINDOW_WIDTH, VOIDRAFT_WINDOW_HEIGHT) in
        let a := mkApp (windowSnapService a)
                   (mkDesktop (mainWindow (screen a))
                      (<[documentID := newWindow]> (windows (screen a)))
                      (moves (screen a))) in
        let a := with_snap (RegisterWindow documentID now) a in
        let a := match windowSnapService a with
                 | Some _ => with_snap (child_moved n documentID pc clk) a
                 | None => mkApp None (drag documentID pc (screen a))
                 end in
        (None, a)
    end.

(** [ServiceStartup] of the window service calls the snap service without
    a nil check: [None] is the nil dereference. *)
Definition WindowService_ServiceStartup (a : App) : option App :=
  match windowSnapService a with
  | Some _ => Some (with_snap UpdateMainWindowCache a)
  | None => None
  end.

(** The loop of [ServiceShutdown] of the window service. *)
Definition unregister_all (names : list WindowName) (a : App) : App :=
  fold_left
    (fun a name =>
       match ParseInt name with
       | Some documentID => with_snap (UnregisterWindow documentID) a
       | None => a
       end)
    names a.

Definition WindowService_ServiceShutdown (a : App) : App :=
  match windowSnapService a with
  | Some _ => unregister_all (GetOpenWindows a) a
  | None => a
  end.

(** ** Package [services]: the configuration migrator *)

(** A Go string, as the list of its bytes. *)
Definition GoString : Type := list Z.

(** A value of a [map[string]interface{}]: a nested
    [map[string]interface{}], or a value of another type. A map is given
    by its entries, in the order in which [range] visits them. *)
#[local] Unset Elimination Schemes.
Inductive ConfigValue :=
| Leaf (v : GoValue)
| Nested (m : list (GoString * ConfigValue)).
#[local] Set Elimination Schemes.

Definition ConfigMap : Type := list (GoString * ConfigValue).

(** [m[key]]. *)
Fixpoint map_get (key : GoString) (m : ConfigMap) : option ConfigValue :=
  match m with
  | [] => None
  | (k, v) :: m => if decide (k = key) then Some v else map_get key m
  end.

(** [fullKey]: [key], or [prefix + "." + key] when the prefix is not
    empty. *)
Definition full_key (prefix key : GoString) : GoString :=
  if decide (prefix = []) then key else prefix ++ [46] ++ key.

(** [findMissing] from the two values it is called on: its loop runs when
    both are maps. [missing] is the slice the calls append to. *)
Fixpoint findMissing_value (prefix : GoString) (defaultVal currentVal : ConfigValue)
    (missing : list GoString) : list GoString :=
  match defaultVal, currentVal with
  | Nested defaultMap, Nested currentMap =>
      (fix range (entries : ConfigMap) (missing : list GoString) : list GoString :=
         match entries with
         | [] => missing
         | (key, defaultVal) :: entries =>
             let fullKey := full_key prefix key in
             range entries
               (match map_get key currentMap with
                | None => missing ++ [fullKey]
                | Some currentVal => findMissing_value fullKey defaultVal currentVal missing
                end)
         end) defaultMap missing
  | _, _ => missing
  end.

Definition findMissing (prefix : GoString) (defaultMap currentMap : ConfigMap)
    (missing : list GoString) : list GoString :=
  findMissing_value prefix (Nested defaultMap) (Nested currentMap) missing.

Definition detectMissingFields (current defaultConfig : ConfigMap) : list GoString :=
  findMissing [] defaultConfig current [].

(** The keys of a Go map are distinct, at every level. *)
Fixpoint unique_keys_value (v : ConfigValue) : Prop :=
  match v with
  | Leaf _ => True
  | Nested m =>
      NoDup m.*1
      /\ (fix all (m : ConfigMap) : Prop :=
            match m with
            | [] => True
            | (_, v) :: m => unique_keys_value v /\ all m
            end) m
  end.

Definition unique_keys (m : ConfigMap) : Prop := unique_keys_value (Nested m).

(** The map reached from [m] through the nested maps under the keys
    [keys]. *)
Fixpoint descend (keys : list GoString) (m : ConfigMap) : option ConfigMap :=
  match keys with
  | [] => Some m
  | key :: keys =>
      match map_get key m with
      | Some (Nested m') => descend keys m'
      | _ => None
      end
  end.

(** The path [findMissing] builds for the keys [keys] below [prefix]. *)
Definition path_of (prefix : GoString) (keys : list GoString) : GoString :=
  fold_left full_key keys prefix.

(** A default configuration, and a current one that lacks two of its
    keys and holds a number where the default holds a map. *)
Definition config_default : ConfigMap :=
  [ ([103], Nested [ ([97], Leaf (VBool true)); ([98], Leaf (VInt 1)) ]);
    ([101], Nested [ ([102], Leaf (VInt 12)) ]);
    ([109], Leaf VNil) ].

Definition config_current : ConfigMap :=
  [ ([103], Nested [ ([97], Leaf (VBool false)) ]);
    ([101], Leaf (VInt 3)) ].

(** * Properties *)

(** Reduction leaves the numeric kernels folded. *)
Arguments Int.wrap : simpl never.
Arguments Int.add : simpl never.
Arguments Int.sub : simpl never.
Arguments Int.mul : simpl never.
Arguments F64.of_int : simpl never.
Arguments F64.mul : simpl never.
Arguments F64.sqrt : simpl never.
Arguments F64.max : simpl never.
Arguments F64.to_int : simpl never.
Arguments corner_dist : simpl never.
Arguments choose_snap : simpl never.
Arguments calculateAdaptiveThreshold : simpl never.
Arguments debounceThreshold : simpl never.
Arguments dragDetectionThreshold : simpl never.

(** ** Machine integers and bounded checks *)

Lemma forall_from_spec P n : forall lo,
  forall_from P lo n = true -> forall z, lo <= z < lo + Z.of_nat n -> P z = true.
Proof.
  induction n as [|n IH]; intros lo H z Hz; [lia|].
  simpl in H. apply andb_true_iff in H as [H0 H1].
  destruct (Z.eq_dec z lo) as [->|Hne]; [exact H0|].
  apply (IH (lo + 1)); [exact H1|lia].
Qed.

Lemma wrap_in_range z : Int.in_range (Int.wrap z).
Proof.
  unfold Int.in_range, Int.wrap, Int.min_int, Int.max_int.
  pose proof (Z.mod_pos_bound (z + 2 ^ 63) (2 ^ 64) ltac:(lia)). lia.
Qed.

Lemma wrap_small z : Int.in_range z -> Int.wrap z = z.
Proof.
  unfold Int.in_range, Int.wrap, Int.min_int, Int.max_int. intros H.
  rewrite Z.mod_small by lia. lia.
Qed.

(** ** binary64: the shape of a rounded result *)

Lemma digits2_size p : digits2_pos p = Pos.size p.
Proof. induction p; simpl; congruence. Qed.

Lemma digits2_bounds p :
  2 ^ (Z.pos (digits2_pos p) - 1) <= Z.pos p < 2 ^ Z.pos (digits2_pos p).
Proof.
  rewrite digits2_size. split.
  - pose proof (Pos.size_le p) as H.
    assert (Z.pos (2 ^ Pos.size p) <= Z.pos p~0) by (apply Pos2Z.pos_le_pos; exact H).
    rewrite Pos2Z.inj_pow in H0.
    replace (Z.pos (Pos.size p)) with (Z.succ (Z.pos (Pos.size p) - 1)) in H0 by lia.
    rewrite Z.pow_succ_r in H0 by lia. lia.
  - pose proof (Pos.size_gt p) as H.
    assert (Z.pos p < Z.pos (2 ^ Pos.size p)) by (apply Pos2Z.pos_lt_pos; exact H).
    now rewrite Pos2Z.inj_pow in H0.
Qed.

Lemma digits2_unique p d :
  2 ^ (d - 1) <= Z.pos p < 2 ^ d -> Z.pos (digits2_pos p) = d.
Proof.
  intros [Hl Hu]. pose proof (digits2_bounds p) as [Hl' Hu'].
  assert (0 < d).
  { destruct (Z_lt_le_dec 0 d); auto.
    assert (2 ^ d <= 1).
    { destruct (Z.eq_dec d 0); subst; simpl; try lia.
      rewrite Z.pow_neg_r; lia. } lia. }
  destruct (Z_lt_le_dec (Z.pos (digits2_pos p)) d).
  - assert (2 ^ Z.pos (digits2_pos p) <= 2 ^ (d - 1)) by (apply Z.pow_le_mono_r; lia). lia.
  - destruct (Z_lt_le_dec d (Z.pos (digits2_pos p))); try lia.
    assert (2 ^ d <= 2 ^ (Z.pos (digits2_pos p) - 1)) by (apply Z.pow_le_mono_r; lia). lia.
Qed.

Lemma shr_1_m r : 0 <= shr_m r -> shr_m (shr_1 r) = shr_m r / 2.
Proof.
  destruct r as [m r s]; simpl. intros H.
  destruct m as [|[p|p|]|p]; simpl; try lia; try reflexivity.
  - rewrite Pos2Z.inj_xI. apply Z.div_unique with 1; lia.
  - rewrite Pos2Z.inj_xO. apply Z.div_unique with 0; lia.
Qed.

Lemma iter_shr_1_m n : forall r, 0 <= shr_m r ->
  shr_m (SpecFloat.iter_pos shr_1 n r) = shr_m r / 2 ^ Z.pos n.
Proof.
  induction n; intros r Hr; simpl SpecFloat.iter_pos.
  - assert (H1 : 0 <= shr_m (shr_1 r)) by (rewrite shr_1_m by auto; apply Z.div_pos; lia).
    assert (H2 : 0 <= shr_m (SpecFloat.iter_pos shr_1 n (shr_1 r)))
      by (rewrite IHn by auto; apply Z.div_pos; lia).
    rewrite IHn, IHn, shr_1_m by auto.
    rewrite !Z.div_div by lia. f_equal.
    replace (Z.pos n~1) with (1 + Z.pos n + Z.pos n) by lia.
    rewrite !Z.pow_add_r by lia. lia.
  - assert (H2 : 0 <= shr_m (SpecFloat.iter_pos shr_1 n r))
      by (rewrite IHn by auto; apply Z.div_pos; lia).
    rewrite IHn, IHn by auto.
    rewrite !Z.div_div by lia. f_equal.
    replace (Z.pos n~0) with (Z.pos n + Z.pos n) by lia.
    rewrite !Z.pow_add_r by lia. lia.
  - rewrite shr_1_m by auto. reflexivity.
Qed.

Lemma rne_bounds m l : m <= round_nearest_even m l <= m + 1.
Proof. destruct l as [|[ | | ]]; simpl; try lia. destruct (Z.even m); lia. Qed.

Lemma shr_record_of_loc_m m l : shr_m (shr_record_of_loc m l) = m.
Proof. destruct l as [|[ | | ]]; reflexivity. Qed.

Lemma Zdigits2_unique m d : 0 < m -> 2 ^ (d - 1) <= m < 2 ^ d -> Zdigits2 m = d.
Proof. destruct m; try lia. intros _. apply digits2_unique. Qed.

Lemma shr_fexp_m m e l :
  0 < m -> 53 <= Zdigits2 m -> -1074 <= e ->
  let n := Zdigits2 m - 53 in
  exists r, shr_fexp 53 1024 m e l = (r, e + n) /\ shr_m r = m / 2 ^ n.
Proof.
  intros Hm Hd He n. unfold shr_fexp, fexp, emin.
  replace (Z.max (Zdigits2 m + e - 53) (3 - 1024 - 53) - e) with n by (unfold n; lia).
  unfold shr. destruct n as [|p|p] eqn:Hn.
  - eexists; split; [rewrite Z.add_0_r; reflexivity|].
    rewrite shr_record_of_loc_m. simpl. now rewrite Z.div_1_r.
  - eexists; split; [reflexivity|].
    rewrite iter_shr_1_m; rewrite shr_record_of_loc_m; [reflexivity|lia].
  - lia.
Qed.

Lemma binary_round_aux_shape sx mx ex lx :
  let d := Z.pos (digits2_pos mx) in
  53 <= d -> -1074 <= ex -> d + ex <= 1023 ->
  exists m e,
    binary_round_aux 53 1024 sx (Z.pos mx) ex lx = S754_finite sx m e /\
    2 ^ 52 <= Z.pos m < 2 ^ 53 /\
    ex + d - 53 <= e <= ex + d - 52 /\
    let q := Z.pos mx / 2 ^ (d - 53) in
    q * 2 ^ (d - 53) <= Z.pos m * 2 ^ (e - ex) <= (q + 1) * 2 ^ (d - 53).
Proof.
  intros d Hd He Hmax.
  pose proof (digits2_bounds mx) as Hb. fold d in Hb.
  set (n := d - 53). set (q := Z.pos mx / 2 ^ n).
  assert (Hpow : 2 ^ d = 2 ^ 53 * 2 ^ n)
    by (unfold n; rewrite <- Z.pow_add_r by lia; f_equal; lia).
  assert (Hpow' : 2 ^ (d - 1) = 2 ^ 52 * 2 ^ n)
    by (unfold n; rewrite <- Z.pow_add_r by lia; f_equal; lia).
  assert (Hn0 : 0 < 2 ^ n) by (apply Z.pow_pos_nonneg; unfold n; lia).
  assert (Hq : 2 ^ 52 <= q < 2 ^ 53).
  { unfold q; split.
    - apply Z.div_le_lower_bound; lia.
    - apply Z.div_lt_upper_bound; lia. }
  unfold binary_round_aux.
  destruct (shr_fexp_m (Z.pos mx) ex lx) as (r & Hr & Hrm); try (simpl Zdigits2; lia).
  simpl Zdigits2 in Hr, Hrm. fold d in Hr, Hrm. fold n in Hr, Hrm. fold q in Hrm.
  rewrite Hr, Hrm.
  pose proof (rne_bounds q (loc_of_shr_record r)) as Hrne.
  set (m1 := round_nearest_even q (loc_of_shr_record r)) in *.
  destruct (Z_lt_le_dec m1 (2 ^ 53)) as [Hlt|Hge].
  - assert (Hd1 : Zdigits2 m1 = 53) by (apply Zdigits2_unique; simpl; lia).
    destruct (shr_fexp_m m1 (ex + n) loc_Exact) as (r2 & Hr2 & Hrm2); try lia.
    rewrite Hd1 in Hr2, Hrm2. simpl in Hr2, Hrm2.
    rewrite Hr2, Hrm2. rewrite Z.div_1_r.
    destruct m1 as [|pm|pm] eqn:Hm1; try lia.
    match goal with |- context [?a <=? ?b] => destruct (Z.leb_spec a b); [|unfold n in *; lia] end.
    exists pm, (ex + n + 0). split; [reflexivity|]. split; [lia|]. split; [unfold n; lia|].
    replace (ex + n + 0 - ex) with n by lia. fold n. fold q. nia.
  - assert (Hm1 : m1 = 2 ^ 53) by lia.
    assert (Hd1 : Zdigits2 m1 = 54) by (apply Zdigits2_unique; rewrite Hm1; simpl; lia).
    destruct (shr_fexp_m m1 (ex + n) loc_Exact) as (r2 & Hr2 & Hrm2); try lia.
    rewrite Hd1 in Hr2, Hrm2. simpl in Hr2, Hrm2.
    rewrite Hr2, Hrm2. rewrite Hm1. change (2 ^ 53 / 2) with (Z.pos (2 ^ 52)).
    cbv iota beta.
    match goal with |- context [?a <=? ?b] => destruct (Z.leb_spec a b); [|unfold n in *; lia] end.
    exists (2 ^ 52)%positive, (ex + n + 1). split; [reflexivity|].
    split; [simpl; lia|]. split; [unfold n; lia|].
    replace (ex + n + 1 - ex) with (n + 1) by lia. fold n. fold q.
    rewrite Z.pow_add_r by (unfold n; lia).
    change (Z.pos (2 ^ 52)) with (2 ^ 52). change (2 ^ 1) with 2.
    assert (q + 1 = 2 ^ 53) by lia. nia.
Qed.

Lemma digits2_iter_xO p n :
  Z.pos (digits2_pos (Pos.iter xO p n)) = Z.pos (digits2_pos p) + Z.pos n.
Proof.
  induction n using Pos.peano_ind.
  - simpl. lia.
  - rewrite Pos.iter_succ. simpl digits2_pos. lia.
Qed.

Lemma binary_round_shape sx p :
  let D := Z.pos (digits2_pos p) in
  D <= 64 ->
  exists m e,
    binary_round 53 1024 sx p 0 = S754_finite sx m e /\
    2 ^ 52 <= Z.pos m < 2 ^ 53 /\ D - 53 <= e <= D - 52.
Proof.
  intros D HD. unfold binary_round, shl_align, fexp, emin.
  replace (Z.max (Z.pos (digits2_pos p) + 0 - 53) (3 - 1024 - 53) - 0) with (D - 53)
    by (unfold D; lia).
  destruct (D - 53) as [|d|d] eqn:Hd.
  - destruct (binary_round_aux_shape sx p 0 loc_Exact) as (m & e & H1 & H2 & H3 & _);
      try (fold D; lia).
    exists m, e. fold D in H3. repeat split; try tauto; lia.
  - destruct (binary_round_aux_shape sx p 0 loc_Exact) as (m & e & H1 & H2 & H3 & _);
      try (fold D; lia).
    exists m, e. fold D in H3. repeat split; try tauto; lia.
  - replace (Z.max (Z.pos (digits2_pos p) + 0 - 53) (3 - 1024 - 53)) with (D - 53)
      by (unfold D; lia).
    pose proof (digits2_iter_xO p d) as Hdig. fold D in Hdig.
    destruct (binary_round_aux_shape sx (Pos.iter xO p d) (D - 53) loc_Exact)
      as (m & e & H1 & H2 & H3 & _); try lia.
    exists m, e. rewrite Hdig in H3. repeat split; try tauto; lia.
Qed.

Lemma digits2_ge p k : 0 <= k -> 2 ^ k <= Z.pos p -> k + 1 <= Z.pos (digits2_pos p).
Proof.
  intros Hk H. pose proof (digits2_bounds p) as [_ Hu].
  destruct (Z_lt_le_dec (Z.pos (digits2_pos p)) (k + 1)) as [Hlt|]; [|lia].
  assert (2 ^ Z.pos (digits2_pos p) <= 2 ^ k) by (apply Z.pow_le_mono_r; lia). lia.
Qed.

Lemma digits2_le p k : 0 <= k -> Z.pos p < 2 ^ k -> Z.pos (digits2_pos p) <= k.
Proof.
  intros Hk H. pose proof (digits2_bounds p) as [Hl _].
  destruct (Z_lt_le_dec k (Z.pos (digits2_pos p))) as [Hlt|]; [|lia].
  assert (2 ^ k <= 2 ^ (Z.pos (digits2_pos p) - 1)) by (apply Z.pow_le_mono_r; lia). lia.
Qed.

(** [float64(n)] of a positive or negative [int]: a normal number whose
    exponent is given by the number of bits of [n]. *)
Lemma of_int_pos_shape p :
  Z.pos p <= Int.max_int ->
  exists m e,
    F64.of_int (Z.pos p) = S754_finite false m e /\
    2 ^ 52 <= Z.pos m < 2 ^ 53 /\
    Z.pos (digits2_pos p) - 53 <= e <= Z.pos (digits2_pos p) - 52.
Proof.
  intros Hr. apply (binary_round_shape false p).
  apply digits2_le; [lia|]. unfold Int.max_int in Hr. lia.
Qed.

Lemma of_int_neg_shape p :
  Int.min_int <= Z.neg p ->
  exists m e,
    F64.of_int (Z.neg p) = S754_finite true m e /\
    2 ^ 52 <= Z.pos m < 2 ^ 53 /\
    Z.pos (digits2_pos p) - 53 <= e <= Z.pos (digits2_pos p) - 52.
Proof.
  intros Hr. apply (binary_round_shape true p).
  destruct (Z.eq_dec (Z.pos p) (2 ^ 63)) as [E|NE].
  - assert (Z.pos (digits2_pos p) = 64) by (apply digits2_unique; rewrite E; simpl; lia). lia.
  - apply digits2_le; [lia|]. unfold Int.min_int in Hr. lia.
Qed.

(** The product of a normal number with [0.025]. *)
Lemma mul_c0_025_shape sx m e :
  2 ^ 52 <= Z.pos m < 2 ^ 53 -> -1000 <= e <= 900 ->
  exists m' e',
    F64.mul (S754_finite sx m e) F64.c0_025 = S754_finite sx m' e' /\
    2 ^ 52 <= Z.pos m' < 2 ^ 53 /\ e - 6 <= e' <= e - 4.
Proof.
  intros Hm He. unfold F64.mul, F64.c0_025, SFmul. rewrite xorb_false_r.
  set (mc := 7205759403792794%positive).
  assert (Hmc : 2 ^ 52 <= Z.pos mc < 2 ^ 53) by (unfold mc; simpl; lia).
  assert (Hlo : 2 ^ 104 <= Z.pos (m * mc)).
  { rewrite Pos2Z.inj_mul. change (2 ^ 104) with (2 ^ 52 * 2 ^ 52). nia. }
  assert (Hhi : Z.pos (m * mc) < 2 ^ 106).
  { rewrite Pos2Z.inj_mul. change (2 ^ 106) with (2 ^ 53 * 2 ^ 53). nia. }
  pose proof (digits2_ge _ 104 ltac:(lia) Hlo) as Hd1.
  pose proof (digits2_le _ 106 ltac:(lia) Hhi) as Hd2.
  destruct (binary_round_aux_shape sx (m * mc) (e + -58) loc_Exact)
    as (m' & e' & H1 & H2 & H3 & _); try lia.
  exists m', e'. repeat split; try tauto; lia.
Qed.

(** Truncation of a normal number. *)
Lemma to_int_neg m e : F64.to_int (S754_finite true m e) <= 0.
Proof.
  unfold F64.to_int, F64.trunc, cond_Zopp.
  set (v := if 0 <=? e then Z.pos m * 2 ^ e else Z.pos m / 2 ^ (- e)).
  assert (0 <= v).
  { unfold v. destruct (0 <=? e) eqn:E.
    - apply Z.mul_nonneg_nonneg; [lia|]. apply Z.pow_nonneg; lia.
    - apply Z.div_pos; [lia|]. apply Z.pow_pos_nonneg; lia. }
  destruct (Int.in_rangeb (- v)); [lia|]. unfold Int.min_int. lia.
Qed.

Lemma to_int_pos_ge m e :
  2 ^ 52 <= Z.pos m < 2 ^ 53 -> -46 <= e <= 9 -> 64 <= F64.to_int (S754_finite false m e).
Proof.
  intros Hm He. unfold F64.to_int, F64.trunc, cond_Zopp.
  set (v := if 0 <=? e then Z.pos m * 2 ^ e else Z.pos m / 2 ^ (- e)).
  assert (Hv : 64 <= v <= 2 ^ 62).
  { unfold v. destruct (Z.leb_spec 0 e).
    - assert (1 <= 2 ^ e) by (apply (Z.pow_le_mono_r 2 0 e); lia).
      assert (2 ^ e <= 2 ^ 9) by (apply Z.pow_le_mono_r; lia).
      change (2 ^ 62) with (2 ^ 53 * 2 ^ 9). nia.
    - assert (0 < 2 ^ (- e)) by (apply Z.pow_pos_nonneg; lia).
      assert (2 ^ (- e) <= 2 ^ 46) by (apply Z.pow_le_mono_r; lia).
      split.
      + apply Z.div_le_lower_bound; [lia|].
        change (2 ^ 52) with (64 * 2 ^ 46) in Hm. nia.
      + apply Z.div_le_upper_bound; [lia|]. nia. }
  assert (Int.in_rangeb v = true) as ->; [|lia].
  unfold Int.in_rangeb, Int.min_int, Int.max_int.
  apply andb_true_iff; split; apply Z.leb_le; lia.
Qed.

(** ** binary64: the order of [SFcompare] *)

Lemma lex_lt_irrefl a : ~ lex_lt a a.
Proof. destruct a as [[a1 a2] a3]. unfold lex_lt. lia. Qed.

Lemma lex_lt_trans a b c : lex_lt a b -> lex_lt b c -> lex_lt a c.
Proof.
  destruct a as [[a1 a2] a3], b as [[b1 b2] b3], c as [[c1 c2] c3].
  unfold lex_lt. lia.
Qed.

Lemma lex_lt_total a b : lex_lt a b \/ a = b \/ lex_lt b a.
Proof.
  destruct a as [[a1 a2] a3], b as [[b1 b2] b3]. unfold lex_lt.
  destruct (Z.lt_trichotomy a1 b1) as [?|[?|?]]; try lia.
  destruct (Z.lt_trichotomy a2 b2) as [?|[?|?]]; try lia.
  destruct (Z.lt_trichotomy a3 b3) as [?|[?|?]]; try lia.
  right; left. congruence.
Qed.

Lemma SFcompare_rank x y :
  F64.is_nan x = false -> F64.is_nan y = false ->
  (SFcompare x y = Some Lt <-> lex_lt (rank x) (rank y))
  /\ (SFcompare x y = Some Gt <-> lex_lt (rank y) (rank x))
  /\ (SFcompare x y = Some Eq <-> rank x = rank y).
Proof.
  intros Hx Hy.
  assert (T : forall c : comparison, (Some c = Some Lt <-> c = Lt)
              /\ (Some c = Some Gt <-> c = Gt) /\ (Some c = Some Eq <-> c = Eq)).
  { intros c. repeat split; intros H; congruence. }
  destruct x as [sx|sx| |sx mx ex], y as [sy|sy| |sy my ey]; try discriminate;
    try destruct sx; try destruct sy; simpl; unfold lex_lt;
    rewrite ?(proj1 (T _)), ?(proj1 (proj2 (T _))), ?(proj2 (proj2 (T _)));
    try solve [split; [|split]; split; intros H; try discriminate H; try lia; try reflexivity].
  all: change (Pos.compare_cont Eq mx my) with (Pos.compare mx my).
  all: destruct (Z.compare_spec ex ey) as [He|He|He];
    destruct (Pos.compare_spec mx my) as [Hm|Hm|Hm]; simpl;
    (split; [|split]; split; intros H; try discriminate H; try reflexivity;
     try (inversion H; lia); try lia; try (subst; reflexivity)).
Qed.

Lemma ltb_not_nan x y : F64.ltb x y = true -> F64.is_nan x = false /\ F64.is_nan y = false.
Proof.
  unfold F64.ltb, SFltb. destruct x, y; simpl; try discriminate; auto.
Qed.

Lemma leb_not_nan x y : F64.leb x y = true -> F64.is_nan x = false /\ F64.is_nan y = false.
Proof.
  unfold F64.leb, SFleb. destruct x, y; simpl; try discriminate; auto.
Qed.

Lemma ltb_rank x y :
  F64.ltb x y = true <->
  F64.is_nan x = false /\ F64.is_nan y = false /\ lex_lt (rank x) (rank y).
Proof.
  split.
  - intros H. destruct (ltb_not_nan _ _ H) as [Hx Hy]. repeat split; auto.
    apply (SFcompare_rank x y Hx Hy). unfold F64.ltb, SFltb in H.
    destruct (SFcompare x y) as [[ | | ]|]; try discriminate; reflexivity.
  - intros (Hx & Hy & H). apply (SFcompare_rank x y Hx Hy) in H.
    unfold F64.ltb, SFltb. now rewrite H.
Qed.

Lemma ltb_irrefl x : F64.ltb x x = false.
Proof.
  destruct (F64.ltb x x) eqn:E; [|reflexivity].
  apply ltb_rank in E as (_ & _ & H). now apply lex_lt_irrefl in H.
Qed.

Lemma ltb_trans x y z : F64.ltb x y = true -> F64.ltb y z = true -> F64.ltb x z = true.
Proof.
  intros H1 H2. apply ltb_rank in H1 as (Hx & Hy & H1). apply ltb_rank in H2 as (_ & Hz & H2).
  apply ltb_rank. repeat split; auto. eapply lex_lt_trans; eauto.
Qed.

Lemma leb_rank x y :
  F64.is_nan x = false -> F64.is_nan y = false ->
  (F64.leb x y = true <-> ~ lex_lt (rank y) (rank x)).
Proof.
  intros Hx Hy. destruct (SFcompare_rank x y Hx Hy) as (HLt & HGt & HEq).
  unfold F64.leb, SFleb.
  destruct (SFcompare x y) as [[ | | ]|] eqn:E.
  - split; [|reflexivity]. intros _ H. assert (rank x = rank y) as R by now apply HEq.
    rewrite R in H. now apply lex_lt_irrefl in H.
  - split; [|reflexivity]. intros _ H. assert (lex_lt (rank x) (rank y)) by now apply HLt.
    apply (lex_lt_irrefl (rank x)). eapply lex_lt_trans; eauto.
  - split; [discriminate|]. intros H. exfalso. apply H. now apply HGt.
  - destruct x, y; simpl in *; discriminate.
Qed.

(** ** binary64: square roots of converted integers *)

Lemma sqrt_shape m e :
  2 ^ 52 <= Z.pos m < 2 ^ 53 -> -60 <= e <= 20 ->
  exists m' e',
    F64.sqrt (S754_finite false m e) = S754_finite false m' e'
    /\ 2 ^ 52 <= Z.pos m' < 2 ^ 53
    /\ Z.div2 e - 26 <= e' <= Z.div2 e - 25.
Proof.
  intros Hm He. unfold F64.sqrt, SFsqrt, SFsqrt_core_binary.
  assert (Hd : Zdigits2 (Z.pos m) = 53) by (apply digits2_unique; simpl; lia).
  rewrite Hd. unfold fexp, emin.
  assert (Hh : Z.div2 (53 + e + 1) = 27 + Z.div2 e).
  { rewrite !Z.div2_div. replace (53 + e + 1) with (e + 27 * 2) by lia.
    rewrite Z.div_add by lia. lia. }
  rewrite Hh.
  replace (Z.min (Z.max (27 + Z.div2 e - F64.prec) (3 - F64.emax - F64.prec)) (Z.div2 e))
    with (Z.div2 e - 26).
  2:{ unfold F64.prec, F64.emax. rewrite Z.div2_div. 
      assert (-30 <= e / 2 <= 10) by (split; [apply Z.div_le_lower_bound|apply Z.div_le_upper_bound]; lia).
      lia. }
  set (e' := Z.div2 e - 26).
  assert (Hs : e - 2 * e' = 52 \/ e - 2 * e' = 53).
  { unfold e'. rewrite Z.div2_div. pose proof (Z.div_mod e 2 ltac:(lia)).
    pose proof (Z.mod_pos_bound e 2 ltac:(lia)). lia. }
  set (s := e - 2 * e') in *.
  assert (Hm' : (match s with Z.pos _ => Z.shiftl (Z.pos m) s | 0 => Z.pos m | Z.neg _ => 0 end)
                = Z.pos m * 2 ^ s).
  { rewrite <- Z.shiftl_mul_pow2 by lia. destruct Hs as [-> | ->]; reflexivity. }
  rewrite Hm'. set (m' := Z.pos m * 2 ^ s).
  assert (Hb : 2 ^ 104 <= m' < 2 ^ 106).
  { unfold m'. destruct Hs as [-> | ->].
    - change (2 ^ 104) with (2 ^ 52 * 2 ^ 52). change (2 ^ 106) with (2 ^ 54 * 2 ^ 52). lia.
    - change (2 ^ 104) with (2 ^ 51 * 2 ^ 53). change (2 ^ 106) with (2 ^ 53 * 2 ^ 53). lia. }
  pose proof (Z.sqrtrem_sqrt m') as Hq.
  destruct (Z.sqrtrem m') as [q r]. simpl in Hq. subst q.
  assert (Hqb : 2 ^ 52 <= Z.sqrt m' < 2 ^ 53).
  { split.
    - change (2 ^ 52) with (Z.sqrt (2 ^ 104)). apply Z.sqrt_le_mono. lia.
    - apply Z.sqrt_lt_square; lia. }
  destruct (Z.sqrt m') as [|qp|qp] eqn:Eq; try lia.
  assert (Hdq : Z.pos (digits2_pos qp) = 53) by (apply digits2_unique; simpl; lia).
  assert (He' : -56 <= e' <= -16).
  { unfold e'. rewrite Z.div2_div.
    assert (-30 <= e / 2 <= 10) by (split; [apply Z.div_le_lower_bound|apply Z.div_le_upper_bound]; lia).
    lia. }
  match goal with |- context [binary_round_aux _ _ false (Z.pos qp) e' ?l] =>
    destruct (binary_round_aux_shape false qp e' l) as (m2 & e2 & H1 & H2 & H3 & _);
      try lia end.
  exists m2, e2. split; [exact H1|]. split; [exact H2|]. lia.
Qed.

Lemma lex_lt_cases a b c : lex_lt a c -> lex_lt a b \/ lex_lt b c.
Proof.
  destruct a as [[a1 a2] a3], b as [[b1 b2] b3], c as [[c1 c2] c3].
  unfold lex_lt. lia.
Qed.

Lemma leb_refl x : F64.is_nan x = false -> F64.leb x x = true.
Proof. intros H. apply leb_rank; auto. apply lex_lt_irrefl. Qed.

Lemma leb_trans x y z : F64.leb x y = true -> F64.leb y z = true -> F64.leb x z = true.
Proof.
  intros H1 H2. destruct (leb_not_nan _ _ H1) as [Hx Hy].
  destruct (leb_not_nan _ _ H2) as [_ Hz].
  apply leb_rank in H1; auto. apply leb_rank in H2; auto. apply leb_rank; auto.
  intros H. destruct (lex_lt_cases _ (rank y) _ H); contradiction.
Qed.

(** On the integers below 4096 the rounded square root is monotone. *)
Lemma sqrt_of_int_mono a b :
  0 <= a <= b -> b < 4096 -> F64.leb (sqrt_of_int a) (sqrt_of_int b) = true.
Proof.
  assert (T : forall_from (fun n => F64.leb (sqrt_of_int n) (sqrt_of_int (n + 1)))
                0 (Z.to_nat 4096) = true) by (vm_compute; reflexivity).
  assert (Hstep : forall n, 0 <= n < 4096 ->
                F64.leb (sqrt_of_int n) (sqrt_of_int (n + 1)) = true).
  { intros n Hn. apply (forall_from_spec _ _ _ T). lia. }
  intros [Ha Hab] Hb.
  assert (G : forall k : nat, a + Z.of_nat k < 4096 ->
                F64.leb (sqrt_of_int a) (sqrt_of_int (a + Z.of_nat k)) = true).
  { induction k as [|k IH]; intros Hk.
    - rewrite Z.add_0_r. apply leb_refl.
      apply (leb_not_nan _ _ (Hstep a ltac:(lia))).
    - apply (leb_trans _ (sqrt_of_int (a + Z.of_nat k))); [apply IH; lia|].
      replace (a + Z.of_nat (S k)) with (a + Z.of_nat k + 1) by lia.
      apply Hstep. lia. }
  replace b with (a + Z.of_nat (Z.to_nat (b - a))) by lia. apply G. lia.
Qed.

(** For a threshold t in [8, 40], [float64(t) * 1.5] is below 64, and the
    largest integer whose rounded square root it bounds is 9t²/4. *)
Lemma corner_threshold_table t :
  8 <= t <= 40 ->
  (exists m e, corner_threshold t = S754_finite false m e
               /\ 2 ^ 52 <= Z.pos m < 2 ^ 53 /\ e <= -47)
  /\ F64.leb (sqrt_of_int (9 * t * t / 4)) (corner_threshold t) = true
  /\ F64.leb (sqrt_of_int (9 * t * t / 4 + 1)) (corner_threshold t) = false.
Proof.
  intros Ht. split.
  - assert (T : forall_from (fun t =>
                  match corner_threshold t with
                  | S754_finite false m e =>
                      (2 ^ 52 <=? Z.pos m) && (Z.pos m <? 2 ^ 53) && (e <=? -47)
                  | _ => false
                  end) 8 33 = true) by (vm_compute; reflexivity).
    pose proof (forall_from_spec _ _ _ T t ltac:(lia)) as H. cbv beta in H. clear T.
    revert H. generalize (corner_threshold t). intros c H.
    destruct c as [ | | |[|] m e]; try discriminate.
    apply andb_true_iff in H as [H He]. apply andb_true_iff in H as [Hl Hu].
    exists m, e. split; [reflexivity|].
    apply Z.leb_le in Hl, He. apply Z.ltb_lt in Hu. lia.
  - assert (T : forall_from (fun t =>
                  F64.leb (sqrt_of_int (9 * t * t / 4)) (corner_threshold t)
                  && negb (F64.leb (sqrt_of_int (9 * t * t / 4 + 1)) (corner_threshold t)))
                  8 33 = true) by (vm_compute; reflexivity).
    pose proof (forall_from_spec _ _ _ T t ltac:(lia)) as H. cbv beta in H.
    apply andb_true_iff in H as [H2 H3]. split; [exact H2|now apply negb_true_iff].
Qed.

(** The test of the corner loop, in integers: with n the (machine) sum of
    the squares of the two gaps, [math.Sqrt(float64(n)) <= float64(t)*1.5]
    holds exactly when n is not negative and 4n <= 9t². *)
Lemma corner_test n t :
  Int.in_range n -> 8 <= t <= 40 ->
  F64.leb (sqrt_of_int n) (corner_threshold t) = (0 <=? n) && (4 * n <=? 9 * t * t).
Proof.
  intros [Hlo Hhi] Ht.
  destruct (corner_threshold_table t Ht) as ((mc & ec & Ec & Hmc & Hec) & Hb1 & Hb2).
  assert (Hq : 9 * t * t <= 14400) by nia.
  destruct (Z_lt_le_dec n 0) as [Hneg|Hnn].
  - replace (0 <=? n) with false by (symmetry; apply Z.leb_gt; lia).
    destruct n as [|p|p]; try lia. unfold sqrt_of_int.
    destruct (of_int_neg_shape p) as (m & e & -> & _); [lia|]. reflexivity.
  - replace (0 <=? n) with true by (symmetry; apply Z.leb_le; lia). cbn [andb].
    destruct (Z_lt_le_dec n 4096) as [Hs|Hl].
    + pose proof (Z.div_mod (9 * t * t) 4 ltac:(lia)) as Hdm.
      pose proof (Z.mod_pos_bound (9 * t * t) 4 ltac:(lia)) as Hmb.
      destruct (Z.leb_spec (4 * n) (9 * t * t)) as [Hle|Hgt].
      * apply (leb_trans _ (sqrt_of_int (9 * t * t / 4))); [|exact Hb1].
        apply sqrt_of_int_mono; lia.
      * destruct (F64.leb (sqrt_of_int n) (corner_threshold t)) eqn:E; [|reflexivity].
        rewrite <- Hb2. symmetry.
        apply (leb_trans _ (sqrt_of_int n)); [|exact E].
        apply sqrt_of_int_mono; lia.
    + replace (4 * n <=? 9 * t * t) with false by (symmetry; apply Z.leb_gt; lia).
      destruct n as [|p|p]; try lia. unfold sqrt_of_int.
      destruct (of_int_pos_shape p) as (m & e & -> & Hm & He); [lia|].
      assert (Hd : 13 <= Z.pos (digits2_pos p) <= 63).
      { split.
        - apply (digits2_ge p 12); [lia|]. change (2 ^ 12) with 4096. lia.
        - apply digits2_le; [lia|]. unfold Int.max_int in Hhi. lia. }
      destruct (sqrt_shape m e Hm ltac:(lia)) as (m' & e' & -> & Hm' & He').
      rewrite Ec. unfold F64.leb, SFleb, SFcompare.
      assert (-20 <= Z.div2 e).
      { rewrite Z.div2_div. apply Z.div_le_lower_bound; lia. }
      rewrite (proj2 (Z.compare_gt_iff e' ec)) by lia. reflexivity.
Qed.

(** ** binary64: comparisons of converted integers *)

Lemma of_int_compare_large sx m e t :
  2 ^ 52 <= Z.pos m < 2 ^ 53 -> -45 <= e -> 8 <= t <= 40 ->
  F64.gtb (F64.abs (S754_finite sx m e)) (F64.of_int t) = true
  /\ F64.leb (F64.abs (S754_finite sx m e)) (F64.of_int t) = false.
Proof.
  intros Hm He Ht. destruct t as [|q|q]; try lia.
  destruct (of_int_pos_shape q) as (mt & et & -> & Hmt & Het);
    [unfold Int.max_int; lia|].
  assert (Hd : Z.pos (digits2_pos q) <= 6)
    by (apply digits2_le; [lia|]; change (2 ^ 6) with 64; lia).
  unfold F64.gtb, F64.leb, F64.abs, SFltb, SFleb, SFabs, SFcompare.
  assert (et < e) by lia.
  rewrite (proj2 (Z.compare_lt_iff et e)) by lia.
  rewrite (proj2 (Z.compare_gt_iff e et)) by lia.
  split; reflexivity.
Qed.

Lemma of_int_compare_small d t :
  -128 < d < 128 -> 8 <= t <= 40 ->
  F64.gtb (F64.abs (F64.of_int d)) (F64.of_int t) = (t <? Z.abs d)
  /\ F64.leb (F64.abs (F64.of_int d)) (F64.of_int t) = (Z.abs d <=? t).
Proof.
  intros Hd Ht.
  assert (H : forall_from (fun d =>
                forall_from (fun t =>
                  Bool.eqb (F64.gtb (F64.abs (F64.of_int d)) (F64.of_int t)) (t <? Z.abs d)
                  && Bool.eqb (F64.leb (F64.abs (F64.of_int d)) (F64.of_int t)) (Z.abs d <=? t))
                  8 33) (-127) 255 = true)
    by (vm_compute; reflexivity).
  pose proof (forall_from_spec _ _ _ H d ltac:(lia)) as H1. cbv beta in H1.
  pose proof (forall_from_spec _ _ _ H1 t ltac:(lia)) as H2. cbv beta in H2.
  apply andb_true_iff in H2 as [Ha Hb].
  apply Bool.eqb_prop in Ha, Hb. now split.
Qed.

(** For an [int] d and a threshold t in [8, 40], comparing
    [math.Abs(float64(d))] with [float64(t)] is comparing |d| with t. *)
Lemma of_int_compare d t :
  Int.in_range d -> 8 <= t <= 40 ->
  F64.gtb (F64.abs (F64.of_int d)) (F64.of_int t) = (t <? Z.abs d)
  /\ F64.leb (F64.abs (F64.of_int d)) (F64.of_int t) = (Z.abs d <=? t).
Proof.
  intros [Hlo Hhi] Ht.
  destruct (Z_lt_le_dec (Z.abs d) 128) as [Hs|Hl].
  - apply of_int_compare_small; lia.
  - replace (t <? Z.abs d) with true by (symmetry; apply Z.ltb_lt; lia).
    replace (Z.abs d <=? t) with false by (symmetry; apply Z.leb_gt; lia).
    destruct d as [|p|p]; try (simpl in Hl; lia).
    + destruct (of_int_pos_shape p) as (m & e & -> & Hm & He); [lia|].
      assert (8 <= Z.pos (digits2_pos p))
        by (apply (digits2_ge p 7); [lia|]; change (2 ^ 7) with 128; simpl in Hl; lia).
      apply of_int_compare_large; lia.
    + destruct (of_int_neg_shape p) as (m & e & -> & Hm & He); [lia|].
      assert (8 <= Z.pos (digits2_pos p))
        by (apply (digits2_ge p 7); [lia|]; change (2 ^ 7) with 128; simpl in Hl; lia).
      apply of_int_compare_large; lia.
Qed.

Lemma of_int_not_nan d : Int.in_range d -> F64.is_nan (F64.abs (F64.of_int d)) = false.
Proof.
  intros [Hlo Hhi]. destruct d as [|p|p]; [reflexivity| |].
  - destruct (of_int_pos_shape p) as (m & e & -> & _); [lia|reflexivity].
  - destruct (of_int_neg_shape p) as (m & e & -> & _); [lia|reflexivity].
Qed.

(** [math.Max] of two numbers is one of them and is below neither. *)
Lemma max_upper a b :
  F64.is_nan a = false -> F64.is_nan b = false ->
  (F64.max a b = a \/ F64.max a b = b)
  /\ ~ lex_lt (rank (F64.max a b)) (rank a)
  /\ ~ lex_lt (rank (F64.max a b)) (rank b).
Proof.
  intros Ha Hb. unfold F64.max.
  destruct (F64.is_pinf a) eqn:Pa.
  { cbn [orb]. destruct a as [ |[|]| | ]; try discriminate.
    split; [now left|]. split; [apply lex_lt_irrefl|].
    destruct b as [sb|[|]| |[|] mb eb]; try discriminate; simpl; unfold lex_lt; lia. }
  destruct (F64.is_pinf b) eqn:Pb.
  { cbn [orb]. destruct b as [ |[|]| | ]; try discriminate.
    split; [now right|]. split; [|apply lex_lt_irrefl].
    destruct a as [sa|[|]| |[|] ma ea]; try discriminate; simpl; unfold lex_lt; lia. }
  cbn [orb]. rewrite Ha, Hb. cbn [orb].
  destruct (F64.is_zero a && F64.is_zero b) eqn:Z.
  { apply andb_true_iff in Z as [Za Zb].
    destruct a as [sa| | | ]; try discriminate. destruct b as [sb| | | ]; try discriminate.
    cbn [F64.signbit]. destruct sa; (split; [auto|]); split;
      simpl; unfold lex_lt; lia. }
  destruct (F64.gtb a b) eqn:G.
  - split; [now left|]. split; [apply lex_lt_irrefl|].
    apply ltb_rank in G as (_ & _ & G). intros F.
    apply (lex_lt_irrefl (rank a)). eapply lex_lt_trans; eauto.
  - split; [now right|]. split; [|apply lex_lt_irrefl].
    intros F. assert (F64.gtb a b = true); [|congruence].
    apply ltb_rank. auto.
Qed.

Lemma gtb_max a b c :
  F64.is_nan a = false -> F64.is_nan b = false ->
  F64.gtb (F64.max a b) c = F64.gtb a c || F64.gtb b c.
Proof.
  intros Ha Hb. destruct (max_upper a b Ha Hb) as (Hor & Ua & Ub).
  assert (Hm : F64.is_nan (F64.max a b) = false) by (destruct Hor as [-> | ->]; auto).
  destruct (F64.gtb a c || F64.gtb b c) eqn:E.
  - apply ltb_rank. apply orb_true_iff in E as [E|E];
      apply ltb_rank in E as (Hc & _ & E); repeat split; auto.
    + destruct (lex_lt_total (rank a) (rank (F64.max a b))) as [L|[L|L]].
      * eapply lex_lt_trans; eauto.
      * now rewrite <- L.
      * contradiction.
    + destruct (lex_lt_total (rank b) (rank (F64.max a b))) as [L|[L|L]].
      * eapply lex_lt_trans; eauto.
      * now rewrite <- L.
      * contradiction.
  - apply orb_false_iff in E as [E1 E2].
    destruct Hor as [-> | ->]; assumption.
Qed.

(** ** The acceptance tests in integers *)

(** The acceptance test of a corner candidate with gaps [dx] and [dy]
    under a threshold t in [8, 40], in integers: the squared Euclidean
    distance against the square of 1.5 t. *)
Lemma corner_accepted_int dx dy t :
  8 <= t <= 40 ->
  F64.leb (corner_dist dx dy) (corner_threshold t)
  = (0 <=? Int.add (Int.mul dx dx) (Int.mul dy dy))
    && (4 * Int.add (Int.mul dx dx) (Int.mul dy dy) <=? 9 * t * t).
Proof.
  intros Ht. apply (corner_test (Int.add (Int.mul dx dx) (Int.mul dy dy)) t);
    [apply wrap_in_range|exact Ht].
Qed.

(** Without overflow the machine sum of squares is the sum of squares. *)
Lemma sum_squares_exact dx dy :
  Int.in_range (dx * dx) -> Int.in_range (dy * dy) -> Int.in_range (dx * dx + dy * dy) ->
  Int.add (Int.mul dx dx) (Int.mul dy dy) = dx * dx + dy * dy.
Proof.
  intros H1 H2 H3. unfold Int.add, Int.mul.
  rewrite (wrap_small (dx * dx)), (wrap_small (dy * dy)) by assumption.
  now apply wrap_small.
Qed.

(** The acceptance test of a side candidate with gap [g], in integers. *)
Lemma side_accepted_int g t :
  Int.in_range g -> 8 <= t <= 40 ->
  F64.leb (F64.abs (F64.of_int g)) (F64.of_int t) = (Z.abs g <=? t).
Proof. intros Hg Ht. apply of_int_compare; assumption. Qed.

(** ** The adaptive threshold *)

Lemma configured_threshold w :
  configured w -> calculateAdaptiveThreshold w = adaptive (fst (lastMainWindowSize w)).
Proof.
  intros (Hr & Hmin & Hmax). unfold adaptive, calculateAdaptiveThreshold. simpl.
  now rewrite Hr, Hmin, Hmax.
Qed.

Lemma adaptive_small w : 0 <= w < 4096 -> adaptive w = clamp (w ÷ 40) 8 40.
Proof.
  intros Hw.
  assert (H : forall_from (fun w => adaptive w =? clamp (w ÷ 40) 8 40) 0 4096 = true)
    by (vm_compute; reflexivity).
  apply Z.eqb_eq. apply (forall_from_spec _ _ _ H). lia.
Qed.

Lemma adaptive_neg w : Int.min_int <= w < 0 -> adaptive w = 8.
Proof.
  intros Hw. destruct w as [|p|p]; try lia.
  unfold adaptive, calculateAdaptiveThreshold. simpl fst. cbn [Z.eqb].
  simpl baseThresholdRatio. simpl minThreshold. simpl maxThreshold.
  destruct (of_int_neg_shape p) as (m & e & -> & Hm & He); [lia|].
  assert (Hd : 1 <= Z.pos (digits2_pos p) <= 64).
  { split; [lia|]. destruct (Z.eq_dec (Z.pos p) (2 ^ 63)) as [E|NE].
    - assert (Z.pos (digits2_pos p) = 64)
        by (apply digits2_unique; rewrite E; simpl; lia). lia.
    - apply digits2_le; [lia|]. unfold Int.min_int in Hw. lia. }
  destruct (mul_c0_025_shape true m e) as (m' & e' & -> & Hm' & He'); [lia|lia|].
  pose proof (to_int_neg m' e') as Hneg.
  destruct (Z.ltb_spec (F64.to_int (S754_finite true m' e')) 8); [reflexivity|lia].
Qed.

Lemma adaptive_large w : 4096 <= w <= Int.max_int -> adaptive w = 40.
Proof.
  intros Hw. destruct w as [|p|p]; try lia.
  unfold adaptive, calculateAdaptiveThreshold. simpl fst. cbn [Z.eqb].
  simpl baseThresholdRatio. simpl minThreshold. simpl maxThreshold.
  destruct (of_int_pos_shape p) as (m & e & -> & Hm & He); [lia|].
  assert (Hd : 13 <= Z.pos (digits2_pos p) <= 63).
  { split.
    - apply (digits2_ge p 12); [lia|]. change (2 ^ 12) with 4096. lia.
    - apply digits2_le; [lia|]. unfold Int.max_int in Hw. lia. }
  destruct (mul_c0_025_shape false m e) as (m' & e' & -> & Hm' & He'); [lia|lia|].
  pose proof (to_int_pos_ge m' e' Hm' ltac:(lia)) as Hge.
  destruct (Z.ltb_spec (F64.to_int (S754_finite false m' e')) 8); [lia|].
  destruct (Z.ltb_spec 40 (F64.to_int (S754_finite false m' e'))); [reflexivity|lia].
Qed.

(** The threshold of a configured service is the clamped fortieth of the
    cached width, for every [int]. *)
Lemma adaptive_clamp w : Int.in_range w -> adaptive w = clamp (w ÷ 40) 8 40.
Proof.
  intros [Hlo Hhi].
  destruct (Z_lt_le_dec w 0) as [Hneg|Hnn].
  - rewrite adaptive_neg by lia. unfold clamp.
    assert (w ÷ 40 <= 0) by (apply Z.quot_le_upper_bound; lia). lia.
  - destruct (Z_lt_le_dec w 4096) as [Hs|Hl].
    + apply adaptive_small; lia.
    + rewrite adaptive_large by lia. unfold clamp.
      assert (102 <= w ÷ 40) by (apply Z.quot_le_lower_bound; lia). lia.
Qed.

Lemma clamp_quot_mono w1 w2 : w1 <= w2 -> clamp (w1 ÷ 40) 8 40 <= clamp (w2 ÷ 40) 8 40.
Proof.
  intros H. unfold clamp.
  destruct (Z_lt_le_dec w1 0) as [Hn|Hp].
  - assert (w1 ÷ 40 <= 0) by (apply Z.quot_le_upper_bound; lia). lia.
  - assert (w1 ÷ 40 <= w2 ÷ 40) by (apply Z.quot_le_mono; lia). lia.
Qed.

(** C6: [GetCurrentThreshold] of a configured service is
    clamp(width x 0.025, 8, 40) in whole pixels, where the product is cut
    to its integer part (width ÷ 40); it lies in [8, 40], is 8 when
    width x 0.025 < 8 and when the cached width is 0, is monotone in the
    width, and leaves the state as it is. *)
Theorem C6_adaptive_threshold (s : System) :
  configured (svc s) ->
  Int.in_range (fst (lastMainWindowSize (svc s))) ->
  let w := fst (lastMainWindowSize (svc s)) in
  let r := GetCurrentThreshold s in
  fst r = clamp (w ÷ 40) 8 40
  /\ 8 <= fst r <= 40
  /\ (w * 25 < 8 * 1000 -> fst r = 8)
  /\ (w = 0 -> fst r = 8)
  /\ snd r = s
  /\ (forall s' : System,
        configured (svc s') ->
        Int.in_range (fst (lastMainWindowSize (svc s'))) ->
        w <= fst (lastMainWindowSize (svc s')) ->
        fst r <= fst (GetCurrentThreshold s')).
Proof.
  intros Hc Hr w r.
  assert (E : fst r = clamp (w ÷ 40) 8 40).
  { unfold r, GetCurrentThreshold. simpl fst.
    rewrite configured_threshold by exact Hc. now apply adaptive_clamp. }
  split; [exact E|]. rewrite E.
  split; [unfold clamp; lia|].
  split.
  { intros Hlt. unfold clamp.
    destruct (Z_lt_le_dec w 0) as [Hn|Hp].
    - assert (w ÷ 40 <= 0) by (apply Z.quot_le_upper_bound; lia). lia.
    - assert (w ÷ 40 < 8) by (apply Z.quot_lt_upper_bound; lia). lia. }
  split; [intros ->; reflexivity|].
  split; [reflexivity|].
  intros s' Hc' Hr' Hle. unfold GetCurrentThreshold. simpl fst.
  rewrite configured_threshold by exact Hc'. rewrite adaptive_clamp by exact Hr'.
  now apply clamp_quot_mono.
Qed.

Lemma C6_adaptive_threshold_witness :
  configured (svc sys_A)
  /\ Int.in_range (fst (lastMainWindowSize (svc sys_A)))
  /\ fst (GetCurrentThreshold sys_A) = 17.
Proof.
  assert (Hc : configured (svc sys_A)) by (repeat split; reflexivity).
  assert (Hr : Int.in_range (fst (lastMainWindowSize (svc sys_A))))
    by (vm_compute; split; discriminate).
  split; [exact Hc|]. split; [exact Hr|].
  destruct (C6_adaptive_threshold sys_A Hc Hr) as (E & _). rewrite E. reflexivity.
Defined.

(** ** The choice of a snap candidate *)

Section Selection.

Context {C : Type}.
Variable thr : spec_float.
Variable k : Z.
Variable view : C -> SnapEdge * spec_float.
Variable step : option snapCheck -> C -> option snapCheck.

Hypothesis step_eq : forall b c,
    step b c =
    if F64.leb (snd (view c)) thr then
      match b with
      | None => Some (mkCheck (fst (view c)) (snd (view c)) k)
      | Some b' =>
          if F64.ltb (snd (view c)) (distance b')
          then Some (mkCheck (fst (view c)) (snd (view c)) k) else b
      end
    else b.

  (** A loop that keeps the first strictly nearest accepted candidate ends
      with a nearest accepted one, or with nothing when none is accepted. *)
Lemma fold_select l :
  match fold_left step l None with
  | None => none_accepted thr (map view l)
  | Some b => nearest_accepted thr (map view l) (edge b, distance b) /\ priority b = k
  end.
Proof.
  induction l as [|c l IH] using rev_ind.
  - simpl. intros c [].
  - rewrite fold_left_app, map_app. simpl. rewrite step_eq.
    destruct (view c) as [e d] eqn:Hv. simpl.
    destruct (F64.leb d thr) eqn:Hacc.
    + destruct (fold_left step l None) as [b|] eqn:Hb.
      * destruct IH as ((Hin & Hle & Hmin) & Hk).
        destruct (F64.ltb d (distance b)) eqn:Hlt.
        -- split; [|reflexivity]. simpl. split; [apply in_or_app; right; now left|].
           split; [exact Hacc|].
           intros c' Hc' Hle'. apply in_app_or in Hc' as [Hc'|[<-|[]]].
           ++ simpl. destruct (F64.ltb (snd c') d) eqn:E; [|reflexivity].
              pose proof (ltb_trans _ _ _ E Hlt) as T.
              pose proof (Hmin c' Hc' Hle') as F. simpl in F. congruence.
           ++ apply ltb_irrefl.
        -- split; [|exact Hk]. split; [apply in_or_app; now left|].
           split; [exact Hle|].
           intros c' Hc' Hle'. apply in_app_or in Hc' as [Hc'|[<-|[]]].
           ++ now apply Hmin.
           ++ exact Hlt.
      * split; [|reflexivity]. simpl. split; [apply in_or_app; right; now left|].
        split; [exact Hacc|].
        intros c' Hc' Hle'. apply in_app_or in Hc' as [Hc'|[<-|[]]].
        -- rewrite (IH c' Hc') in Hle'. discriminate.
        -- apply ltb_irrefl.
    + destruct (fold_left step l None) as [b|] eqn:Hb.
      * destruct IH as ((Hin & Hle & Hmin) & Hk). split; [|exact Hk].
        split; [apply in_or_app; now left|]. split; [exact Hle|].
        intros c' Hc' Hle'. apply in_app_or in Hc' as [Hc'|[<-|[]]].
        -- now apply Hmin.
        -- simpl in Hle'. rewrite Hacc in Hle'. discriminate.
      * intros c' Hc'. apply in_app_or in Hc' as [Hc'|[<-|[]]].
        -- now apply IH.
        -- exact Hacc.
Qed.

End Selection.

Lemma corner_select cthr l :
  match fold_left (corner_step cthr) l None with
  | None =>
      none_accepted cthr
        (map (fun c : SnapEdge * Z * Z => let '(e, dx, dy) := c in (e, corner_dist dx dy)) l)
  | Some b =>
      nearest_accepted cthr
        (map (fun c : SnapEdge * Z * Z => let '(e, dx, dy) := c in (e, corner_dist dx dy)) l)
        (edge b, distance b) /\ priority b = 1
  end.
Proof.
  apply (fold_select cthr 1). intros b [[e dx] dy]. reflexivity.
Qed.

Lemma side_select thr l :
  match fold_left (edge_step thr) l None with
  | None => none_accepted thr l
  | Some b => nearest_accepted thr l (edge b, distance b) /\ priority b = 2
  end.
Proof.
  assert (E : forall b c, edge_step thr b c =
            if F64.leb (snd c) thr then
              match b with
              | None => Some (mkCheck (fst c) (snd c) 2)
              | Some b' =>
                  if F64.ltb (snd c) (distance b')
                  then Some (mkCheck (fst c) (snd c) 2) else b
              end
            else b) by (intros b [e d]; reflexivity).
  pose proof (fold_select thr 2 (fun c => c) (edge_step thr) E l) as H.
  rewrite List.map_id in H. exact H.
Qed.

Lemma corner_candidates_edges mainPos mainSize currentPos windowSize c :
  In c (corner_candidates mainPos mainSize currentPos windowSize) -> is_corner (fst c) = true.
Proof.
  unfold corner_candidates, cornerChecks. simpl.
  intros [<-|[<-|[<-|[<-|[]]]]]; reflexivity.
Qed.

Lemma side_candidates_edges mainPos mainSize currentPos windowSize c :
  In c (side_candidates mainPos mainSize currentPos windowSize) -> is_side (fst c) = true.
Proof.
  unfold side_candidates, edgeChecks. simpl.
  intros [<-|[<-|[<-|[<-|[]]]]]; reflexivity.
Qed.

(** What [choose_snap] returns, by cases on the accepted candidates. *)
Lemma choose_snap_spec t mainPos mainSize currentPos windowSize :
  let thr := F64.of_int t in
  let cthr := F64.mul thr F64.c1_5 in
  let corners := corner_candidates mainPos mainSize currentPos windowSize in
  let sides := side_candidates mainPos mainSize currentPos windowSize in
  match choose_snap t mainPos mainSize currentPos windowSize with
  | Some b =>
      (nearest_accepted cthr corners (edge b, distance b) /\ is_corner (edge b) = true)
      \/ (none_accepted cthr corners /\
          nearest_accepted thr sides (edge b, distance b) /\ is_side (edge b) = true)
  | None => none_accepted cthr corners /\ none_accepted thr sides
  end.
Proof.
  intros thr cthr corners sides. unfold choose_snap. fold thr. fold cthr.
  match goal with |- context [fold_left (corner_step cthr) ?l None] =>
    pose proof (corner_select cthr l) as Hc;
    change (map _ l) with corners in Hc;
    destruct (fold_left (corner_step cthr) l None) as [b|] end.
  - left. destruct Hc as [Hc _]. split; [exact Hc|].
    apply (corner_candidates_edges mainPos mainSize currentPos windowSize (edge b, distance b)).
    apply Hc.
  - match goal with |- context [fold_left (edge_step thr) ?l None] =>
      pose proof (side_select thr l) as Hs;
      destruct (fold_left (edge_step thr) l None) as [b|] end.
    + right. destruct Hs as [Hs _]. split; [exact Hc|]. split; [exact Hs|].
      apply (side_candidates_edges mainPos mainSize currentPos windowSize (edge b, distance b)).
      apply Hs.
    + split; assumption.
Qed.

Lemma choose_snap_edge t mainPos mainSize currentPos windowSize b :
  choose_snap t mainPos mainSize currentPos windowSize = Some b -> edge b <> SnapEdgeNone.
Proof.
  intros H. pose proof (choose_snap_spec t mainPos mainSize currentPos windowSize) as S.
  simpl in S. rewrite H in S.
  intros E. rewrite E in S. destruct S as [[_ Hc]|(_ & _ & Hs)]; discriminate.
Qed.

(** ** Disabled snapping and the re-entrancy flag *)

(** C10: while snapping is disabled both move handlers return the state
    they are given: no field of any window, no cache and nothing of the
    windowing layer changes. *)
Theorem C10_disabled_handlers_frozen (echo : Z -> System -> System) (id : Z)
    (clk : Clock) (s : System) :
  snapEnabled (svc s) = false ->
  onChildWindowMoved echo id clk s = s /\ onMainWindowMoved echo s = s.
Proof.
  intros H. unfold onChildWindowMoved, onMainWindowMoved. rewrite H. split; reflexivity.
Qed.

Lemma C10_disabled_handlers_frozen_witness :
  snapEnabled (svc sys_off) = false
  /\ onChildWindowMoved no_echo 1 (mkClock (ms 100) (ms 100))
       (on_desk (drag 1 (mkPos 805 250)) sys_off)
     = on_desk (drag 1 (mkPos 805 250)) sys_off
  /\ onMainWindowMoved no_echo (on_desk (drag_main (mkPos 130 115)) sys_off)
     = on_desk (drag_main (mkPos 130 115)) sys_off.
Proof.
  split; [reflexivity|]. split.
  - apply (C10_disabled_handlers_frozen no_echo 1 (mkClock (ms 100) (ms 100))
             (on_desk (drag 1 (mkPos 805 250)) sys_off)). reflexivity.
  - apply (C10_disabled_handlers_frozen no_echo 1 (mkClock (ms 100) (ms 100))
             (on_desk (drag_main (mkPos 130 115)) sys_off)). reflexivity.
Defined.

Lemma updating_on_desk f s id : updating (on_desk f s) id = updating s id.
Proof. reflexivity. Qed.

Lemma updating_set_eq id b s : updating (set_updating id b s) id = b.
Proof. unfold updating, set_updating. simpl. now rewrite lookup_insert_eq. Qed.

Lemma guarded_child_ignored echo id clk s :
  updating s id = true -> onChildWindowMoved echo id clk s = s.
Proof.
  intros H. unfold onChildWindowMoved.
  destruct (negb (snapEnabled (svc s))); [reflexivity|].
  destruct (managedWindows (svc s) !! id); [|reflexivity].
  now rewrite H.
Qed.

Lemma hook_respects_guard n clk : respects_guard (hook n clk).
Proof.
  intros id s H. destruct n as [|k]; simpl; [reflexivity|].
  destruct (bool_decide (id ∈ windowMoveUnhooks (svc s))); [|reflexivity].
  now apply guarded_child_ignored.
Qed.

(** A write to a window whose flag is set reaches the windowing layer and
    nothing else. *)
Lemma SetPosition_guarded echo id p s :
  respects_guard echo -> updating s id = true ->
  SetPosition echo id p s = on_desk (place id p) s.
Proof. intros He H. unfold SetPosition. apply He. exact H. Qed.

Lemma updateSnappedWindowPosition_echo echo id s :
  respects_guard echo ->
  updateSnappedWindowPosition echo id s = updateSnappedWindowPosition no_echo id s.
Proof.
  intros He. unfold updateSnappedWindowPosition.
  destruct (managedWindows (svc s) !! id); [|reflexivity].
  destruct (bool_decide (id ∈ windowRefs (svc s))); [|reflexivity].
  rewrite (SetPosition_guarded echo) by (auto using updating_set_eq).
  reflexivity.
Qed.

Lemma handleUnsnappedWindow_echo echo id p t0 t1 s :
  respects_guard echo ->
  handleUnsnappedWindow echo id p t0 t1 s = handleUnsnappedWindow no_echo id p t0 t1 s.
Proof.
  intros He. unfold handleUnsnappedWindow.
  destruct (shouldSnapToMainWindow id p t0 t1 s) as [[should e] s1].
  destruct should; [|reflexivity].
  destruct (calculateSnapPosition e p id _) as [target s2].
  rewrite (SetPosition_guarded echo) by (auto using updating_set_eq).
  reflexivity.
Qed.

Lemma onChildWindowMoved_echo echo id clk s :
  respects_guard echo ->
  onChildWindowMoved echo id clk s = onChildWindowMoved no_echo id clk s.
Proof.
  intros He. unfold onChildWindowMoved.
  destruct (negb (snapEnabled (svc s))); [reflexivity|].
  destruct (managedWindows (svc s) !! id) as [i|]; [|reflexivity].
  destruct (updating s id); [reflexivity|].
  destruct (_ && _); [reflexivity|].
  destruct (IsSnapped i); [reflexivity|].
  now rewrite (handleUnsnappedWindow_echo echo).
Qed.

Lemma update_snapped_echo echo ids : forall s,
  respects_guard echo -> update_snapped echo ids s = update_snapped no_echo ids s.
Proof.
  induction ids as [|id ids IH]; intros s He; [reflexivity|].
  unfold update_snapped in *. simpl.
  destruct (managedWindows (svc s) !! id) as [i|]; [|now apply IH].
  destruct (IsSnapped i); [|now apply IH].
  rewrite (updateSnappedWindowPosition_echo echo) by exact He. now apply IH.
Qed.

Lemma onMainWindowMoved_echo echo s :
  respects_guard echo -> onMainWindowMoved echo s = onMainWindowMoved no_echo s.
Proof.
  intros He. unfold onMainWindowMoved.
  destruct (negb (snapEnabled (svc s))); [reflexivity|].
  destruct (mainWindow (desk s)); [|reflexivity].
  now apply update_snapped_echo.
Qed.

(** C8: a move event for a window whose re-entrancy flag is set is
    ignored: the handler returns the state it is given, whatever hook the
    windowing layer runs; hence the hook that a write of the service
    itself sets off, at any nesting, changes nothing: both handlers end in
    the state they reach when no hook runs inside [SetPosition]. *)
Theorem C8_guarded_event_ignored (n : nat) (id : Z) (clk clk' : Clock) (s : System) :
  (forall echo, updating s id = true -> onChildWindowMoved echo id clk s = s)
  /\ (forall p, updating s id = true ->
        SetPosition (hook n clk') id p s = on_desk (place id p) s)
  /\ onChildWindowMoved (hook n clk') id clk s = onChildWindowMoved no_echo id clk s
  /\ onMainWindowMoved (hook n clk') s = onMainWindowMoved no_echo s.
Proof.
  split; [intros echo H; now apply guarded_child_ignored|].
  split; [intros p H; apply SetPosition_guarded; auto using hook_respects_guard|].
  split.
  - apply onChildWindowMoved_echo, hook_respects_guard.
  - apply onMainWindowMoved_echo, hook_respects_guard.
Qed.

Lemma C8_guarded_event_ignored_witness :
  updating (set_updating 1 true sys_A) 1 = true
  /\ onChildWindowMoved (hook 3 (mkClock 0 0)) 1 (mkClock (ms 100) (ms 100))
       (on_desk (drag 1 (mkPos 805 250)) (set_updating 1 true sys_A))
     = on_desk (drag 1 (mkPos 805 250)) (set_updating 1 true sys_A).
Proof.
  split; [reflexivity|].
  destruct (C8_guarded_event_ignored 0 1 (mkClock (ms 100) (ms 100)) (mkClock 0 0)
              (on_desk (drag 1 (mkPos 805 250)) (set_updating 1 true sys_A))) as (H & _).
  apply H. reflexivity.
Defined.

(** ** Configuration *)

(** C9, as the code has it: a configuration value that is nil or not a
    boolean is passed on as [false]; when the configuration cannot be
    read at construction the service starts with snapping enabled. *)
Theorem C9_config_default (old v : GoValue) (s : System) :
  parse_enabled VNil = false
  /\ ((forall b, v <> VBool b) ->
        parse_enabled v = false
        /\ onWindowSnapConfigChange old v s = OnWindowSnapConfigChanged false s)
  /\ (forall b, parse_enabled (VBool b) = b)
  /\ snapEnabled (NewWindowSnapService None) = true.
Proof.
  split; [reflexivity|]. split.
  - intros H. unfold onWindowSnapConfigChange.
    destruct v; try (split; reflexivity). now destruct (H b).
  - split; [reflexivity|reflexivity].
Qed.

Lemma C9_config_default_witness :
  (forall b, VString [110; 111] <> VBool b)
  /\ parse_enabled (VString [110; 111]) = false.
Proof.
  assert (H : forall b, VString [110; 111] <> VBool b) by (intros b; discriminate).
  split; [exact H|].
  destruct (C9_config_default VNil (VString [110; 111]) sys_A) as (_ & H2 & _).
  exact (proj1 (H2 H)).
Defined.

(** The second half of C9 as the specification words it fails: with an
    unreadable configuration the service is constructed enabled. *)
Lemma C9_counterexample :
  ~ (forall config : option bool,
       config = None -> snapEnabled (NewWindowSnapService config) = false).
Proof. intros H. specialize (H None eq_refl). discriminate H. Qed.

(** ** The effect of the operations on the state *)

Lemma caches_only_refl s : caches_only s s.
Proof. repeat split. Qed.

Lemma caches_only_trans s1 s2 s3 :
  caches_only s1 s2 -> caches_only s2 s3 -> caches_only s1 s3.
Proof.
  unfold caches_only. intros H1 H2.
  repeat match goal with H : _ /\ _ |- _ => destruct H end.
  repeat split; congruence.
Qed.

Lemma updateMainWindowCacheLocked_caches s : caches_only s (updateMainWindowCacheLocked s).
Proof.
  unfold updateMainWindowCacheLocked. destruct (mainWindow (desk s)); repeat split.
Qed.

Lemma getWindowSizeCached_spec id s :
  caches_only s (snd (getWindowSizeCached id s))
  /\ lastMainWindowPos (svc (snd (getWindowSizeCached id s))) = lastMainWindowPos (svc s)
  /\ lastMainWindowSize (svc (snd (getWindowSizeCached id s))) = lastMainWindowSize (svc s)
  /\ windowSizeCache (svc (snd (getWindowSizeCached id s))) !! id
     = Some (fst (getWindowSizeCached id s)).
Proof.
  unfold getWindowSizeCached.
  destruct (windowSizeCache (svc s) !! id) as [sz|] eqn:E.
  - simpl. repeat split. exact E.
  - unfold updateWindowSizeCacheLocked. simpl. rewrite lookup_insert_eq. simpl.
    repeat split. now rewrite lookup_insert_eq.
Qed.

(** With the size of the window in the cache, reading it changes nothing. *)
Lemma getWindowSizeCached_hit id s sz :
  windowSizeCache (svc s) !! id = Some sz -> getWindowSizeCached id s = (sz, s).
Proof. intros H. unfold getWindowSizeCached. now rewrite H. Qed.

Lemma shouldSnapToMainWindow_spec id p t0 t1 s :
  let r := shouldSnapToMainWindow id p t0 t1 s in
  caches_only s (snd r)
  /\ (t1 - t0 < debounceThreshold -> r = ((false, SnapEdgeNone), s))
  /\ (debounceThreshold <= t1 - t0 ->
      exists wsz,
        windowSizeCache (svc (snd r)) !! id = Some wsz
        /\ fst r =
           match choose_snap (calculateAdaptiveThreshold (svc (snd r)))
                   (lastMainWindowPos (svc (snd r))) (lastMainWindowSize (svc (snd r)))
                   p wsz with
           | None => (false, SnapEdgeNone)
           | Some b => (true, edge b)
           end).
Proof.
  intros r. unfold r, shouldSnapToMainWindow.
  destruct (Z.ltb_spec (t1 - t0) debounceThreshold) as [Hd|Hd].
  - cbn [fst snd]. split; [apply caches_only_refl|]. split; [reflexivity|lia].
  - set (s1 := if (_ || _) then updateMainWindowCacheLocked s else s).
    assert (H1 : caches_only s s1).
    { unfold s1. destruct (_ || _);
        [apply updateMainWindowCacheLocked_caches|apply caches_only_refl]. }
    destruct (getWindowSizeCached_spec id s1) as (H2 & Hp & Hs & Hc).
    destruct (getWindowSizeCached id s1) as [wsz s2]. simpl in H2, Hp, Hs, Hc.
    assert (Ht : calculateAdaptiveThreshold (svc s2) = calculateAdaptiveThreshold (svc s2))
      by reflexivity.
    match goal with |- context [choose_snap ?a ?b ?c ?d ?e] =>
      destruct (choose_snap a b c d e) as [b'|] eqn:Hb end; cbn [fst snd].
    + split; [eapply caches_only_trans; eauto|]. split; [lia|].
      intros _. exists wsz. split; [exact Hc|]. rewrite Hp, Hs, Hb. reflexivity.
    + split; [eapply caches_only_trans; eauto|]. split; [lia|].
      intros _. exists wsz. split; [exact Hc|]. rewrite Hp, Hs, Hb. reflexivity.
Qed.

Lemma shouldSnapToMainWindow_edge id p t0 t1 s e s' :
  shouldSnapToMainWindow id p t0 t1 s = ((true, e), s') -> e <> SnapEdgeNone.
Proof.
  intros H. pose proof (shouldSnapToMainWindow_spec id p t0 t1 s) as (_ & Hd & Hs).
  rewrite H in Hd, Hs. cbn [fst snd] in Hd, Hs.
  destruct (Z_lt_le_dec (t1 - t0) debounceThreshold) as [L|L].
  - specialize (Hd L). discriminate.
  - destruct (Hs L) as (wsz & _ & E).
    match type of E with context [choose_snap ?a ?b ?c ?d ?e] =>
      destruct (choose_snap a b c d e) as [b'|] eqn:Hb end; [|discriminate].
    inversion E. eapply choose_snap_edge; eauto.
Qed.

Lemma threshold_range w : configured w -> 8 <= calculateAdaptiveThreshold w <= 40.
Proof.
  intros (_ & Hmin & Hmax). unfold calculateAdaptiveThreshold. rewrite Hmin, Hmax.
  destruct (_ =? 0); [lia|].
  destruct (Z.ltb_spec (F64.to_int (F64.mul (F64.of_int (fst (lastMainWindowSize w)))
                                     (baseThresholdRatio w))) 8); [lia|].
  destruct (Z.ltb_spec 40 (F64.to_int (F64.mul (F64.of_int (fst (lastMainWindowSize w)))
                                     (baseThresholdRatio w)))); lia.
Qed.

(** The test of [handleSnappedWindow] on the distance, in integers: the
    larger of the two coordinate differences against the threshold. *)
Lemma chebyshev_test dx dy t :
  Int.in_range dx -> Int.in_range dy -> 8 <= t <= 40 ->
  F64.gtb (F64.max (F64.abs (F64.of_int dx)) (F64.abs (F64.of_int dy))) (F64.of_int t)
  = (t <? Z.max (Z.abs dx) (Z.abs dy)).
Proof.
  intros Hx Hy Ht. rewrite gtb_max by (apply of_int_not_nan; assumption).
  rewrite (proj1 (of_int_compare dx t Hx Ht)), (proj1 (of_int_compare dy t Hy Ht)).
  destruct (Z.ltb_spec t (Z.abs dx)), (Z.ltb_spec t (Z.abs dy)),
    (Z.ltb_spec t (Z.max (Z.abs dx) (Z.abs dy))); try reflexivity; lia.
Qed.

Lemma pos_eqb_false (p q : WindowPosition) :
  p <> q -> (X p =? X q) && (Y p =? Y q) = false.
Proof.
  intros H. destruct p as [px py], q as [qx qy]. simpl.
  destruct (Z.eqb_spec px qx), (Z.eqb_spec py qy); try reflexivity. congruence.
Qed.

(** A move event of an attached window, flag clear, position changed: the
    new record of the window. The elapsed time the drag test uses is taken
    from [MoveTime] after the handler has stored the present time in it. *)
Lemma snapped_move_effect echo id clk s i :
  configured (svc s) ->
  snapEnabled (svc s) = true ->
  managedWindows (svc s) !! id = Some i ->
  IsSnapped i = true ->
  updating s id = false ->
  window_Position (desk s) id <> LastPos i ->
  let P := window_Position (desk s) id in
  let expectedX := Int.add (X (lastMainWindowPos (svc s))) (dX (SnapOffset i)) in
  let expectedY := Int.add (Y (lastMainWindowPos (svc s))) (dY (SnapOffset i)) in
  let dist := Z.max (Z.abs (Int.sub (X P) expectedX)) (Z.abs (Int.sub (Y P) expectedY)) in
  let detach := (calculateAdaptiveThreshold (svc s) <? dist)
                && (t_since clk - t_now clk <? dragDetectionThreshold) in
  let s' := onChildWindowMoved echo id clk s in
  managedWindows (svc s') !! id
  = Some (mkInfo (DocumentID i) (negb detach) (SnapOffset i)
            (if detach then SnapEdgeNone else Edge i) P (t_now clk))
  /\ desk s' = desk s
  /\ (forall j, j <> id -> managedWindows (svc s') !! j = managedWindows (svc s) !! j)
  /\ same_frame s s'
  /\ lastMainWindowPos (svc s') = lastMainWindowPos (svc s)
  /\ lastMainWindowSize (svc s') = lastMainWindowSize (svc s)
  /\ windowSizeCache (svc s') = windowSizeCache (svc s).
Proof.
  intros Hc He Hi Hs Hu Hp P expectedX expectedY dist detach s'.
  unfold s', onChildWindowMoved. rewrite He, Hi, Hu. cbn [negb].
  rewrite (pos_eqb_false _ _ Hp), Hs.
  unfold handleSnappedWindow.
  change (managedWindows (svc (on_info id (set_MoveTime (t_now clk)) s)))
    with (alter (set_MoveTime (t_now clk)) id (managedWindows (svc s))).
  rewrite lookup_alter_eq, Hi. cbn [fmap option_fmap option_map].
  change (calculateAdaptiveThreshold (svc (on_info id (set_MoveTime (t_now clk)) s)))
    with (calculateAdaptiveThreshold (svc s)).
  change (lastMainWindowPos (svc (on_info id (set_MoveTime (t_now clk)) s)))
    with (lastMainWindowPos (svc s)).
  cbn [SnapOffset MoveTime set_MoveTime].
  fold P expectedX expectedY.
  rewrite chebyshev_test by (try apply wrap_in_range; apply threshold_range, Hc).
  fold dist. fold detach.
  destruct detach; cbn [negb].
  - split; [|split; [reflexivity|split; [|split]]].
    + simpl. rewrite !lookup_alter_eq, Hi. destruct i; reflexivity.
    + intros j Hj. simpl. now rewrite !lookup_alter_ne by congruence.
    + repeat split.
    + repeat split.
  - split; [|split; [reflexivity|split; [|split]]].
    + simpl. rewrite !lookup_alter_eq, Hi. clear - Hs.
      destruct i as [a b c d l t]. cbn [IsSnapped] in Hs. subst b. reflexivity.
    + intros j Hj. simpl. now rewrite !lookup_alter_ne by congruence.
    + repeat split.
    + repeat split.
Qed.

Lemma getWindowSizeCached_on_info id j f s :
  getWindowSizeCached id (on_info j f s)
  = (fst (getWindowSizeCached id s), on_info j f (snd (getWindowSizeCached id s))).
Proof.
  unfold getWindowSizeCached. simpl.
  destruct (windowSizeCache (svc s) !! id); [reflexivity|].
  unfold updateWindowSizeCacheLocked. simpl. rewrite !lookup_insert_eq. reflexivity.
Qed.

(** The snap decision reads no window record: it commutes with a write to
    one. *)
Lemma shouldSnapToMainWindow_on_info id p t0 t1 j f s :
  shouldSnapToMainWindow id p t0 t1 (on_info j f s)
  = (fst (shouldSnapToMainWindow id p t0 t1 s),
     on_info j f (snd (shouldSnapToMainWindow id p t0 t1 s))).
Proof.
  unfold shouldSnapToMainWindow.
  destruct (t1 - t0 <? debounceThreshold); [reflexivity|].
  change (lastMainWindowSize (svc (on_info j f s))) with (lastMainWindowSize (svc s)).
  set (c := (fst (lastMainWindowSize (svc s)) =? 0) || (snd (lastMainWindowSize (svc s)) =? 0)).
  assert (E : (if c then updateMainWindowCacheLocked (on_info j f s) else on_info j f s)
              = on_info j f (if c then updateMainWindowCacheLocked s else s)).
  { destruct c; [|reflexivity]. unfold updateMainWindowCacheLocked. simpl.
    destruct (mainWindow (desk s)); reflexivity. }
  rewrite E. set (s1 := if c then updateMainWindowCacheLocked s else s).
  rewrite getWindowSizeCached_on_info.
  destruct (getWindowSizeCached id s1) as [wsz s2]. cbn [fst snd].
  change (calculateAdaptiveThreshold (svc (on_info j f s2)))
    with (calculateAdaptiveThreshold (svc s2)).
  change (lastMainWindowPos (svc (on_info j f s1))) with (lastMainWindowPos (svc s1)).
  change (lastMainWindowSize (svc (on_info j f s1))) with (lastMainWindowSize (svc s1)).
  match goal with |- context [choose_snap ?a ?b ?c ?d ?e] =>
    destruct (choose_snap a b c d e) end; reflexivity.
Qed.

Lemma same_frame_refl s : same_frame s s.
Proof. repeat split. Qed.

Lemma same_frame_trans s1 s2 s3 : same_frame s1 s2 -> same_frame s2 s3 -> same_frame s1 s3.
Proof.
  unfold same_frame. intros H1 H2.
  repeat match goal with H : _ /\ _ |- _ => destruct H end.
  repeat split; try congruence; intros j; etransitivity; eauto.
Qed.

Lemma caches_only_frame s s' : caches_only s s' -> same_frame s s'.
Proof.
  unfold caches_only, same_frame. intros H.
  repeat match goal with H : _ /\ _ |- _ => destruct H end.
  repeat split; try assumption. intros j. unfold updating. congruence.
Qed.

Lemma updating_set_ne id j b s : j <> id -> updating (set_updating id b s) j = updating s j.
Proof. intros H. unfold updating, set_updating. simpl. now rewrite lookup_insert_ne. Qed.

(** A move event of a free window, flag clear, position changed. When the
    snap decision accepts an edge the window is attached, written to the
    snap position and recorded there; otherwise only its position and
    time are recorded. *)
Lemma unsnapped_move_effect echo id clk s i :
  respects_guard echo ->
  snapEnabled (svc s) = true ->
  managedWindows (svc s) !! id = Some i ->
  IsSnapped i = false ->
  updating s id = false ->
  window_Position (desk s) id <> LastPos i ->
  let P := window_Position (desk s) id in
  let r := shouldSnapToMainWindow id P (MoveTime i) (t_since clk) s in
  let s1 := snd r in
  let main := lastMainWindowPos (svc s1) in
  let s' := onChildWindowMoved echo id clk s in
  same_frame s s'
  /\ lastMainWindowPos (svc s') = main
  /\ lastMainWindowSize (svc s') = lastMainWindowSize (svc s1)
  /\ windowSizeCache (svc s') = windowSizeCache (svc s1)
  /\ (forall j, j <> id -> managedWindows (svc s') !! j = managedWindows (svc s) !! j)
  /\ match fst r with
     | (true, e) =>
         exists wsz,
           windowSizeCache (svc s1) !! id = Some wsz
           /\ let target :=
                snap_position e P main (fst (lastMainWindowSize (svc s1)))
                  (snd (lastMainWindowSize (svc s1))) (fst wsz) (snd wsz) in
              managedWindows (svc s') !! id
              = Some (mkInfo (DocumentID i) true
                        (mkOff (Int.sub (X target) (X main)) (Int.sub (Y target) (Y main)))
                        e target (t_now clk))
              /\ desk s' = place id target (desk s)
     | (false, _) =>
         managedWindows (svc s') !! id
         = Some (mkInfo (DocumentID i) false (SnapOffset i) (Edge i) P (t_now clk))
         /\ desk s' = desk s
     end.
Proof.
  intros Hg He Hi Hs Hu Hp P r s1 main s'.
  unfold s'. rewrite (onChildWindowMoved_echo echo) by exact Hg.
  unfold onChildWindowMoved. rewrite He, Hi, Hu. cbn [negb].
  rewrite (pos_eqb_false _ _ Hp), Hs.
  unfold handleUnsnappedWindow.
  change (window_Position (desk s) id) with P.
  rewrite shouldSnapToMainWindow_on_info. fold r. fold s1.
  pose proof (shouldSnapToMainWindow_spec id P (MoveTime i) (t_since clk) s) as (Hco & Hdeb & Hacc).
  fold r in Hco, Hdeb, Hacc. fold s1 in Hco.
  pose proof (caches_only_frame _ _ Hco) as Hfr.
  assert (Hm1 : managedWindows (svc s1) = managedWindows (svc s)) by apply Hco.
  assert (Hd1 : desk s1 = desk s) by apply Hco.
  assert (Hu1 : forall j, updating s1 j = updating s j) by apply Hfr.
  destruct (fst r) as [[|] e] eqn:Hr.
  - assert (Hc : exists wsz, windowSizeCache (svc s1) !! id = Some wsz).
    { destruct (Z_lt_le_dec (t_since clk - MoveTime i) debounceThreshold) as [L|L].
      - rewrite (Hdeb L) in Hr. discriminate.
      - destruct (Hacc L) as (wsz & Hw & _). eauto. }
    destruct Hc as (wsz & Hw).
    unfold calculateSnapPosition.
    rewrite (getWindowSizeCached_hit id _ wsz) by exact Hw.
    destruct wsz as [ww wh]. unfold SetPosition, no_echo.
    split.
    { apply (same_frame_trans _ s1); [exact Hfr|].
      unfold same_frame. cbn. repeat split. intros j. unfold updating. cbn.
      destruct (decide (j = id)) as [->|Hne].
      - rewrite lookup_insert_eq. cbn. specialize (Hu1 id). unfold updating in Hu1.
        rewrite Hu1. exact (eq_sym Hu).
      - rewrite !lookup_insert_ne by congruence. reflexivity. }
    split; [reflexivity|]. split; [reflexivity|]. split; [reflexivity|].
    split.
    { intros j Hj. cbn. rewrite !lookup_alter_ne by congruence. now rewrite Hm1. }
    exists (ww, wh). split; [exact Hw|]. cbn [fst snd]. split.
    + cbn. rewrite !lookup_alter_eq, Hm1, Hi. destruct i; reflexivity.
    + cbn. now rewrite Hd1.
  - split.
    { apply (same_frame_trans _ s1); [exact Hfr|]. repeat split. }
    split; [reflexivity|]. split; [reflexivity|]. split; [reflexivity|].
    split.
    { intros j Hj. cbn. rewrite !lookup_alter_ne by congruence. now rewrite Hm1. }
    split.
    + cbn. rewrite !lookup_alter_eq, Hm1, Hi. clear - Hs.
      destruct i as [a b c d l t]. cbn [IsSnapped] in Hs. subst b. reflexivity.
    + exact Hd1.
Qed.

Lemma loop_frame_refl s : loop_frame s s.
Proof. repeat split. Qed.

Lemma loop_frame_trans s1 s2 s3 : loop_frame s1 s2 -> loop_frame s2 s3 -> loop_frame s1 s3.
Proof.
  unfold loop_frame. intros H1 H2.
  repeat match goal with H : _ /\ _ |- _ => destruct H end.
  repeat split; congruence.
Qed.

Lemma window_Size_place id p d j : window_Size (place id p d) j = window_Size d j.
Proof.
  unfold window_Size, place. simpl. destruct (decide (j = id)) as [->|Hne].
  - rewrite lookup_insert_eq. reflexivity.
  - now rewrite lookup_insert_ne by congruence.
Qed.

Lemma window_Position_place_eq id p d : window_Position (place id p d) id = p.
Proof. unfold window_Position, place. simpl. now rewrite lookup_insert_eq. Qed.

Lemma window_Position_place_ne id p d j :
  j <> id -> window_Position (place id p d) j = window_Position d j.
Proof. intros H. unfold window_Position, place. simpl. now rewrite lookup_insert_ne by congruence. Qed.

(** One turn of the loop. *)
Lemma loop_step_effect id s :
  let step := match managedWindows (svc s) !! id with
              | Some windowInfo =>
                  if IsSnapped windowInfo then updateSnappedWindowPosition no_echo id s else s
              | None => s
              end in
  loop_frame s step
  /\ (forall j, managedWindows (svc step) !! j =
        match managedWindows (svc s) !! j with
        | Some i =>
            if resynced s [id] j i
            then Some (set_LastPos (resync_target (lastMainWindowPos (svc s)) i) i)
            else Some i
        | None => None
        end)
  /\ (forall j, window_Position (desk step) j =
        match managedWindows (svc s) !! j with
        | Some i =>
            if resynced s [id] j i
            then resync_target (lastMainWindowPos (svc s)) i
            else window_Position (desk s) j
        | None => window_Position (desk s) j
        end)
  /\ (forall j, window_Size (desk step) j = window_Size (desk s) j)
  /\ moves (desk step)
     = match managedWindows (svc s) !! id with
       | Some i =>
           if resynced s [id] id i
           then [(id, resync_target (lastMainWindowPos (svc s)) i)] else []
       | None => []
       end ++ moves (desk s).
Proof.
  intros step. unfold step, resynced.
  assert (Hin : forall j, bool_decide (j ∈ [id]) = bool_decide (j = id)).
  { intros j. apply bool_decide_ext. rewrite list_elem_of_singleton. reflexivity. }
  destruct (managedWindows (svc s) !! id) as [i|] eqn:Hi.
  - destruct (IsSnapped i) eqn:Hs.
    + unfold updateSnappedWindowPosition. rewrite Hi.
      destruct (bool_decide (id ∈ windowRefs (svc s))) eqn:Hr.
      * unfold SetPosition, no_echo. split; [repeat split|]. split; [|split; [|split]].
        -- intros j. cbn. destruct (decide (j = id)) as [->|Hne].
           ++ rewrite lookup_alter_eq, Hi, Hs, Hin, Hr, bool_decide_eq_true_2 by reflexivity.
              reflexivity.
           ++ rewrite lookup_alter_ne by congruence.
              destruct (managedWindows (svc s) !! j); [|reflexivity].
              rewrite Hin, (bool_decide_eq_false_2 _ Hne), andb_false_r. reflexivity.
        -- intros j. cbn. destruct (decide (j = id)) as [->|Hne].
           ++ rewrite window_Position_place_eq, Hi, Hs, Hin, Hr,
                bool_decide_eq_true_2 by reflexivity. reflexivity.
           ++ rewrite window_Position_place_ne by congruence.
              destruct (managedWindows (svc s) !! j); [|reflexivity].
              rewrite Hin, (bool_decide_eq_false_2 _ Hne), andb_false_r. reflexivity.
        -- intros j. cbn. apply window_Size_place.
        -- rewrite Hin, bool_decide_eq_true_2 by reflexivity. reflexivity.
      * split; [apply loop_frame_refl|]. split; [|split; [|split]].
        -- intros j. destruct (managedWindows (svc s) !! j) as [i'|] eqn:Hj; [|reflexivity].
           destruct (decide (j = id)) as [->|Hne].
           ++ rewrite Hr, andb_false_r. reflexivity.
           ++ rewrite Hin, (bool_decide_eq_false_2 _ Hne), andb_false_r. reflexivity.
        -- intros j. destruct (managedWindows (svc s) !! j) as [i'|] eqn:Hj; [|reflexivity].
           destruct (decide (j = id)) as [->|Hne].
           ++ rewrite Hr, andb_false_r. reflexivity.
           ++ rewrite Hin, (bool_decide_eq_false_2 _ Hne), andb_false_r. reflexivity.
        -- reflexivity.
        -- rewrite andb_false_r. reflexivity.
    + split; [apply loop_frame_refl|]. split; [|split; [|split]].
      * intros j. destruct (managedWindows (svc s) !! j) as [i'|] eqn:Hj; [|reflexivity].
        destruct (decide (j = id)) as [->|Hne].
        -- assert (i' = i) as -> by congruence. rewrite Hs. reflexivity.
        -- rewrite Hin, (bool_decide_eq_false_2 _ Hne), andb_false_r. reflexivity.
      * intros j. destruct (managedWindows (svc s) !! j) as [i'|] eqn:Hj; [|reflexivity].
        destruct (decide (j = id)) as [->|Hne].
        -- assert (i' = i) as -> by congruence. rewrite Hs. reflexivity.
        -- rewrite Hin, (bool_decide_eq_false_2 _ Hne), andb_false_r. reflexivity.
      * reflexivity.
      * reflexivity.
  - split; [apply loop_frame_refl|]. split; [|split; [|split]].
    + intros j. destruct (managedWindows (svc s) !! j) as [i'|] eqn:Hj; [|reflexivity].
      assert (j <> id) as Hne by congruence.
      rewrite Hin, (bool_decide_eq_false_2 _ Hne), andb_false_r. reflexivity.
    + intros j. destruct (managedWindows (svc s) !! j) as [i'|] eqn:Hj; [|reflexivity].
      assert (j <> id) as Hne by congruence.
      rewrite Hin, (bool_decide_eq_false_2 _ Hne), andb_false_r. reflexivity.
    + reflexivity.
    + reflexivity.
Qed.

Lemma bool_decide_cons (j a : Z) (l : list Z) :
  bool_decide (j ∈ a :: l) = bool_decide (j = a) || bool_decide (j ∈ l).
Proof.
  destruct (bool_decide (j = a)) eqn:E1; destruct (bool_decide (j ∈ l)) eqn:E2; simpl;
    [apply bool_decide_eq_true_2|apply bool_decide_eq_true_2|apply bool_decide_eq_true_2
    |apply bool_decide_eq_false_2];
    try apply bool_decide_eq_true_1 in E1; try apply bool_decide_eq_true_1 in E2;
    try apply bool_decide_eq_false_1 in E1; try apply bool_decide_eq_false_1 in E2;
    rewrite elem_of_cons; tauto.
Qed.

(** The loop of [onMainWindowMoved] over distinct windows: every attached
    window with a reference is written to the cached position of the
    primary window plus its offset and recorded there; the others are
    neither written nor changed. *)
Lemma update_snapped_effect ids : forall s,
  NoDup ids ->
  let s' := update_snapped no_echo ids s in
  let main := lastMainWindowPos (svc s) in
  loop_frame s s'
  /\ (forall j, managedWindows (svc s') !! j =
        match managedWindows (svc s) !! j with
        | Some i =>
            if resynced s ids j i then Some (set_LastPos (resync_target main i) i) else Some i
        | None => None
        end)
  /\ (forall j, window_Position (desk s') j =
        match managedWindows (svc s) !! j with
        | Some i =>
            if resynced s ids j i then resync_target main i else window_Position (desk s) j
        | None => window_Position (desk s) j
        end)
  /\ (forall j, window_Size (desk s') j = window_Size (desk s) j)
  /\ (exists new,
        moves (desk s') = new ++ moves (desk s)
        /\ (forall j p, In (j, p) new ->
             exists i, managedWindows (svc s) !! j = Some i
                       /\ resynced s ids j i = true /\ p = resync_target main i)
        /\ (forall j i, managedWindows (svc s) !! j = Some i ->
             resynced s ids j i = true -> In (j, resync_target main i) new)).
Proof.
  induction ids as [|a rest IH]; intros s Hnd s' main; subst main.
  - unfold s', update_snapped, resynced. cbn [fold_left].
    split; [apply loop_frame_refl|]. split; [|split; [|split]].
    + intros j. destruct (managedWindows (svc s) !! j); [|reflexivity].
      rewrite (bool_decide_eq_false_2 (j ∈ [])) by (intros H; inversion H).
      now rewrite andb_false_r.
    + intros j. destruct (managedWindows (svc s) !! j); [|reflexivity].
      rewrite (bool_decide_eq_false_2 (j ∈ [])) by (intros H; inversion H).
      now rewrite andb_false_r.
    + reflexivity.
    + exists []. split; [reflexivity|]. split; [intros j p []|].
      intros j i Hj. rewrite (bool_decide_eq_false_2 (j ∈ [])) by (intros H; inversion H).
      rewrite andb_false_r. discriminate.
  - apply NoDup_cons in Hnd as [Ha Hnd].
    pose proof (loop_step_effect a s) as (Hf1 & Hm1 & Hp1 & Hz1 & Hv1).
    set (sa := match managedWindows (svc s) !! a with
               | Some windowInfo =>
                   if IsSnapped windowInfo
                   then updateSnappedWindowPosition no_echo a s else s
               | None => s
               end) in *.
    assert (Es : s' = update_snapped no_echo rest sa) by reflexivity.
    destruct (IH sa Hnd) as (Hf2 & Hm2 & Hp2 & Hz2 & new2 & Hv2 & Hn2 & Hc2).
    rewrite <- Es in Hf2, Hm2, Hp2, Hz2, Hv2.
    assert (Hmain : lastMainWindowPos (svc sa) = lastMainWindowPos (svc s)) by apply Hf1.
    assert (Hrefs : windowRefs (svc sa) = windowRefs (svc s)) by apply Hf1.
    rewrite Hmain in Hm2, Hp2, Hn2, Hc2.
    assert (Hres : forall j i,
              managedWindows (svc s) !! j = Some i ->
              (resynced s [a] j i = true ->
               j = a /\ resynced s (a :: rest) j i = true
               /\ resynced sa rest j
                    (set_LastPos (resync_target (lastMainWindowPos (svc s)) i) i) = false)
              /\ (resynced s [a] j i = false ->
                  resynced s (a :: rest) j i = resynced sa rest j i)).
    { intros j i Hj. unfold resynced. rewrite Hrefs, !bool_decide_cons.
      rewrite (bool_decide_eq_false_2 (j ∈ [])) by (intros H; inversion H).
      rewrite orb_false_r. cbn [IsSnapped set_LastPos].
      destruct (IsSnapped i), (bool_decide (j = a)) eqn:Eja,
        (bool_decide (j ∈ windowRefs (svc s))), (bool_decide (j ∈ rest)) eqn:Ejr;
        cbn; split; intros H; try discriminate H; try reflexivity;
        apply bool_decide_eq_true_1 in Eja; subst j;
        try (apply bool_decide_eq_true_1 in Ejr; contradiction);
        repeat split; reflexivity. }
    split; [eapply loop_frame_trans; eauto|]. split; [|split; [|split]].
    + intros j. rewrite Hm2, Hm1.
      destruct (managedWindows (svc s) !! j) as [i|] eqn:Hj; [|reflexivity].
      destruct (Hres j i Hj) as [Ht Hfa].
      destruct (resynced s [a] j i) eqn:R; cbv iota beta.
      * destruct (Ht eq_refl) as (-> & R1 & R2). rewrite R1, R2. reflexivity.
      * rewrite (Hfa eq_refl). reflexivity.
    + intros j. rewrite Hp2, Hm1, Hp1.
      destruct (managedWindows (svc s) !! j) as [i|] eqn:Hj; [|reflexivity].
      destruct (Hres j i Hj) as [Ht Hfa].
      destruct (resynced s [a] j i) eqn:R; cbv iota beta.
      * destruct (Ht eq_refl) as (-> & R1 & R2). rewrite R1, R2. reflexivity.
      * rewrite (Hfa eq_refl). reflexivity.
    + intros j. now rewrite Hz2, Hz1.
    + exists (new2 ++ match managedWindows (svc s) !! a with
                       | Some i =>
                           if resynced s [a] a i
                           then [(a, resync_target (lastMainWindowPos (svc s)) i)] else []
                       | None => []
                       end).
      rewrite Hv2, Hv1, <- app_assoc. split; [reflexivity|]. split.
      * intros j p Hin. apply in_app_or in Hin as [Hin|Hin].
        -- destruct (Hn2 j p Hin) as (ia & Hja & Rja & ->).
           rewrite Hm1 in Hja.
           destruct (managedWindows (svc s) !! j) as [i'|] eqn:Hj; [|discriminate].
           destruct (Hres j i' Hj) as [Ht Hfa].
           destruct (resynced s [a] j i') eqn:R; cbv iota beta in Hja.
           ++ destruct (Ht eq_refl) as (-> & R1 & R2). inversion Hja; subst ia. congruence.
           ++ inversion Hja; subst ia. exists i'. rewrite (Hfa eq_refl). auto.
        -- destruct (managedWindows (svc s) !! a) as [i|] eqn:Hi; [|destruct Hin].
           destruct (resynced s [a] a i) eqn:Ri; [|destruct Hin].
           destruct Hin as [Hin|[]]. inversion Hin; subst j p.
           exists i. split; [exact Hi|]. split; [|reflexivity].
           destruct (Hres a i Hi) as [Ht _]. apply (Ht Ri).
      * intros j i Hj Rj. apply in_or_app.
        destruct (Hres j i Hj) as [Ht Hfa].
        destruct (resynced s [a] j i) eqn:R.
        -- destruct (Ht eq_refl) as (-> & _ & _). right. rewrite Hj, R. now left.
        -- left. apply Hc2.
           ++ rewrite Hm1, Hj, R. reflexivity.
           ++ rewrite <- (Hfa eq_refl). exact Rj.
Qed.

(** ** The invariant *)

(** A step that keeps the switch, the parameters and the references, and
    that leaves each window with a record as well-formed as before. *)
Lemma inv_preserved s s' :
  inv s ->
  snapEnabled (svc s') = snapEnabled (svc s) ->
  baseThresholdRatio (svc s') = baseThresholdRatio (svc s) ->
  minThreshold (svc s') = minThreshold (svc s) ->
  maxThreshold (svc s') = maxThreshold (svc s) ->
  windowRefs (svc s') = windowRefs (svc s) ->
  (forall j,
     match managedWindows (svc s') !! j with
     | Some i' =>
         exists i, managedWindows (svc s) !! j = Some i
                   /\ (info_ok i -> info_ok i')
                   /\ (snapEnabled (svc s) = false -> IsSnapped i = false -> IsSnapped i' = false)
     | None => managedWindows (svc s) !! j = None
     end) ->
  inv s'.
Proof.
  intros ((Hr & Hmin & Hmax) & Hok & Hoff & Href) He Er Emin Emax Erefs Hm.
  split; [repeat split; congruence|]. split; [|split].
  - intros j i' Hj. specialize (Hm j). rewrite Hj in Hm.
    destruct Hm as (i & Hi & H1 & _). eauto.
  - intros Hdis j i' Hj. specialize (Hm j). rewrite Hj in Hm.
    destruct Hm as (i & Hi & _ & H2). rewrite He in Hdis. eauto.
  - intros j. rewrite Erefs, Href. specialize (Hm j).
    destruct (managedWindows (svc s') !! j) as [i'|].
    + destruct Hm as (i & -> & _). split; eauto.
    + rewrite Hm. reflexivity.
Qed.

Lemma inv_new config d : inv (mkSystem (NewWindowSnapService config) d).
Proof.
  split; [repeat split|]. split; [|split].
  - intros id i H. simpl in H. now rewrite lookup_empty in H.
  - intros _ id i H. simpl in H. now rewrite lookup_empty in H.
  - intros id. simpl. rewrite lookup_empty. split.
    + intros H. now apply not_elem_of_empty in H.
    + intros [x H]. discriminate.
Qed.

Lemma inv_desktop s d : inv s -> inv (mkSystem (svc s) d).
Proof. intros H. exact H. Qed.

Lemma inv_caches s s' : caches_only s s' -> inv s -> inv s'.
Proof.
  intros (_ & He & Er & Emin & Emax & Em & Erefs & _) H.
  apply (inv_preserved s s' H He Er Emin Emax Erefs).
  intros j. rewrite Em. destruct (managedWindows (svc s) !! j) as [i|]; eauto.
Qed.

Lemma inv_of_fields s s' :
  snapEnabled (svc s') = snapEnabled (svc s) ->
  baseThresholdRatio (svc s') = baseThresholdRatio (svc s) ->
  minThreshold (svc s') = minThreshold (svc s) ->
  maxThreshold (svc s') = maxThreshold (svc s) ->
  managedWindows (svc s') = managedWindows (svc s) ->
  windowRefs (svc s') = windowRefs (svc s) ->
  inv s -> inv s'.
Proof.
  intros He Er Emin Emax Em Erefs H.
  apply (inv_preserved s s' H He Er Emin Emax Erefs).
  intros j. rewrite Em. destruct (managedWindows (svc s) !! j) as [i|]; eauto.
Qed.

Lemma inv_register s id now : inv s -> inv (RegisterWindow id now s).
Proof.
  intros H. unfold RegisterWindow.
  set (i0 := mkInfo id false (mkOff 0 0) SnapEdgeNone (window_Position (desk s) id) now).
  set (s0 := on_svc _ s).
  assert (H0 : inv s0).
  { destruct H as ((Hr & Hmin & Hmax) & Hok & Hoff & Href).
    split; [repeat split; assumption|]. split; [|split].
    - intros j i. unfold s0. cbn. destruct (decide (j = id)) as [->|Hne].
      + rewrite lookup_insert_eq. intros [= <-]. unfold info_ok, i0. cbn.
        split; [discriminate|congruence].
      + rewrite lookup_insert_ne by congruence. apply Hok.
    - intros Hdis j i. unfold s0. cbn. destruct (decide (j = id)) as [->|Hne].
      + rewrite lookup_insert_eq. intros [= <-]. reflexivity.
      + rewrite lookup_insert_ne by congruence. apply Hoff. exact Hdis.
    - intros j. unfold s0. cbn. rewrite elem_of_union, elem_of_singleton.
      destruct (decide (j = id)) as [->|Hne].
      + rewrite lookup_insert_eq. split; eauto.
      + rewrite lookup_insert_ne by congruence. rewrite <- Href. split; [|now right].
        intros [?|?]; [congruence|assumption]. }
  revert H0. apply inv_of_fields;
    unfold setupWindowEvents, setupMainWindowEvents, updateWindowSizeCacheLocked;
    destruct (bool_decide _); cbn; try reflexivity;
    destruct (mainMoveUnhook (svc s)); cbn; try reflexivity;
    destruct (mainWindow (desk s)); reflexivity.
Qed.

Lemma inv_unregister s id : inv s -> inv (UnregisterWindow id s).
Proof.
  intros H. unfold UnregisterWindow.
  set (s0 := on_svc _ (on_svc _ s)).
  assert (H0 : inv s0).
  { destruct H as ((Hr & Hmin & Hmax) & Hok & Hoff & Href).
    split; [repeat split; assumption|]. split; [|split].
    - intros j i. unfold s0. cbn. destruct (decide (j = id)) as [->|Hne].
      + now rewrite lookup_delete_eq.
      + rewrite lookup_delete_ne by congruence. apply Hok.
    - intros Hdis j i. unfold s0. cbn. destruct (decide (j = id)) as [->|Hne].
      + now rewrite lookup_delete_eq.
      + rewrite lookup_delete_ne by congruence. apply Hoff. exact Hdis.
    - intros j. unfold s0. cbn. rewrite elem_of_difference, elem_of_singleton.
      destruct (decide (j = id)) as [->|Hne].
      + rewrite lookup_delete_eq. split; [tauto|]. intros [x E]. discriminate.
      + rewrite lookup_delete_ne by congruence. rewrite <- Href. tauto. }
  revert H0. apply inv_of_fields; unfold cleanupMainWindowEvents;
    destruct (bool_decide _); try reflexivity;
    destruct (mainMoveUnhook (svc s0)); reflexivity.
Qed.

Lemma inv_enable s b : inv s -> inv (SetSnapEnabled b s).
Proof.
  intros H. unfold SetSnapEnabled.
  destruct (bool_decide (snapEnabled (svc s) = b)); [exact H|].
  destruct H as ((Hr & Hmin & Hmax) & Hok & Hoff & Href).
  destruct b; cbn [negb].
  - split; [repeat split; assumption|]. split; [exact Hok|]. split; [|exact Href].
    cbn. discriminate.
  - split; [repeat split; assumption|]. split; [|split].
    + intros j i'. cbn. rewrite lookup_fmap.
      destruct (managedWindows (svc s) !! j) as [i|] eqn:Hj; [|discriminate].
      cbn. intros [= <-]. destruct (IsSnapped i) eqn:Es.
      * unfold info_ok. cbn. split; [discriminate|congruence].
      * eapply Hok; eauto.
    + intros _ j i'. cbn. rewrite lookup_fmap.
      destruct (managedWindows (svc s) !! j) as [i|] eqn:Hj; [|discriminate].
      cbn. intros [= <-]. destruct (IsSnapped i) eqn:Es; [reflexivity|exact Es].
    + intros j. cbn. rewrite lookup_fmap, Href.
      destruct (managedWindows (svc s) !! j); cbn; split; intros [x E]; eauto; discriminate.
Qed.

Lemma inv_child_handler id clk s : inv s -> inv (onChildWindowMoved no_echo id clk s).
Proof.
  intros H.
  destruct (snapEnabled (svc s)) eqn:He;
    [|unfold onChildWindowMoved; rewrite He; exact H].
  destruct (managedWindows (svc s) !! id) as [i|] eqn:Hi;
    [|unfold onChildWindowMoved; rewrite He, Hi; exact H].
  destruct (updating s id) eqn:Hu;
    [unfold onChildWindowMoved; rewrite He, Hi, Hu; exact H|].
  destruct (decide (window_Position (desk s) id = LastPos i)) as [Ep|Np].
  { unfold onChildWindowMoved. rewrite He, Hi, Hu, Ep, !Z.eqb_refl. exact H. }
  pose proof H as (Hc & Hok & _).
  destruct (IsSnapped i) eqn:Hs.
  - pose proof (snapped_move_effect no_echo id clk s i Hc He Hi Hs Hu Np)
      as (Hn & _ & Ho & Hfr & _).
    cbv zeta in Hn, Ho, Hfr.
    destruct Hfr as (E1 & E2 & E3 & E4 & E5 & _).
    apply (inv_preserved s _ H E1 E2 E3 E4 E5). intros j.
    destruct (decide (j = id)) as [->|Hne].
    + rewrite Hn. exists i. split; [exact Hi|]. split.
      * intros Hio. unfold info_ok. cbn.
        destruct (_ && _); cbn; [split; [discriminate|congruence]|].
        split; [intros _; now apply Hio|reflexivity].
      * intros Hd. congruence.
    + rewrite (Ho j Hne). destruct (managedWindows (svc s) !! j) as [i'|]; eauto.
  - pose proof (unsnapped_move_effect no_echo id clk s i
                  ltac:(intros ? ? ?; reflexivity) He Hi Hs Hu Np)
      as (Hfr & _ & _ & _ & Ho & Hn).
    cbv zeta in Hfr, Ho, Hn.
    destruct Hfr as (E1 & E2 & E3 & E4 & E5 & _).
    apply (inv_preserved s _ H E1 E2 E3 E4 E5). intros j.
    destruct (decide (j = id)) as [->|Hne].
    + destruct (shouldSnapToMainWindow id (window_Position (desk s) id) (MoveTime i)
                  (t_since clk) s) as [[[|] e] s1] eqn:Hsh; cbn [fst snd] in Hn.
      * destruct Hn as (wsz & _ & Hn & _). rewrite Hn. exists i.
        split; [exact Hi|]. split.
        -- intros _. unfold info_ok. cbn. split; [|reflexivity].
           intros _. eapply shouldSnapToMainWindow_edge; eauto.
        -- intros Hd. congruence.
      * destruct Hn as (Hn & _). rewrite Hn. exists i. split; [exact Hi|]. split.
        -- intros Hio. unfold info_ok in *. cbn. rewrite Hs in Hio. exact Hio.
        -- intros _ _. reflexivity.
    + rewrite (Ho j Hne). destruct (managedWindows (svc s) !! j) as [i'|]; eauto.
Qed.

Lemma elem_of_map_keys (m : gmap Z WindowInfo) j :
  j ∈ (map_to_list m).*1 <-> is_Some (m !! j).
Proof.
  rewrite list_elem_of_fmap. split.
  - intros ([k i] & -> & Hin). apply elem_of_map_to_list in Hin. cbn. eauto.
  - intros [i Hi]. exists (j, i). split; [reflexivity|]. now apply elem_of_map_to_list.
Qed.

Lemma inv_main_handler s : inv s -> inv (onMainWindowMoved no_echo s).
Proof.
  intros H. unfold onMainWindowMoved.
  destruct (negb (snapEnabled (svc s))); [exact H|].
  destruct (mainWindow (desk s)) as [mw|]; [|exact H].
  set (s0 := on_svc (set_mainCache (winPos mw) (winSize mw)) s).
  assert (H0 : inv s0) by (revert H; apply inv_of_fields; reflexivity).
  pose proof (update_snapped_effect (map_to_list (managedWindows (svc s0))).*1 s0
                (NoDup_fst_map_to_list _)) as (Hfr & Hm & _).
  cbv zeta in Hfr, Hm.
  destruct Hfr as (E1 & E2 & E3 & E4 & _ & _ & _ & E5 & _).
  apply (inv_preserved s0 _ H0 E1 E2 E3 E4 E5). intros j. rewrite Hm.
  destruct (managedWindows (svc s0) !! j) as [i|]; [|reflexivity].
  destruct (resynced s0 _ j i); exists i; (split; [reflexivity|]); split; auto.
Qed.

Lemma inv_child_moved n id p clk s : inv s -> inv (child_moved n id p clk s).
Proof.
  intros H. unfold child_moved.
  destruct (bool_decide _); [|exact H].
  rewrite onChildWindowMoved_echo by apply hook_respects_guard.
  apply inv_child_handler. exact H.
Qed.

Lemma inv_main_moved n p clk s : inv s -> inv (main_moved n p clk s).
Proof.
  intros H. unfold main_moved.
  destruct (mainMoveUnhook _); [|exact H].
  rewrite onMainWindowMoved_echo by apply hook_respects_guard.
  apply inv_main_handler. exact H.
Qed.

(** Every state the service reaches satisfies the invariant. *)
Lemma reachable_inv s : reachable s -> inv s.
Proof.
  induction 1.
  - apply inv_new.
  - now apply inv_desktop.
  - now apply inv_register.
  - now apply inv_unregister.
  - now apply inv_enable.
  - unfold onWindowSnapConfigChange, OnWindowSnapConfigChanged. now apply inv_enable.
  - unfold UpdateMainWindowCache. eapply inv_caches; eauto.
    apply updateMainWindowCacheLocked_caches.
  - now apply inv_child_moved.
  - now apply inv_main_moved.
Qed.

(** C5: in every state the service reaches through construction,
    [RegisterWindow], [UnregisterWindow], [SetSnapEnabled], configuration
    changes, cache refreshes and move events of document windows and of
    the primary window, each registered window is attached exactly when
    its edge is not [SnapEdgeNone]. *)
Theorem C5_snapped_iff_edge (s : System) (id : Z) (i : WindowInfo) :
  reachable s ->
  managedWindows (svc s) !! id = Some i ->
  (IsSnapped i = true <-> Edge i <> SnapEdgeNone).
Proof.
  intros Hr Hi. destruct (reachable_inv s Hr) as (_ & Hok & _). exact (Hok id i Hi).
Qed.

Lemma reachable_sys_A : reachable sys_A.
Proof. unfold sys_A. apply R_register, R_cache, R_new. Qed.

Lemma reachable_sys_snapped : reachable sys_snapped.
Proof. unfold sys_snapped. apply R_child, reachable_sys_A. Qed.

Lemma reachable_sys_nudged : reachable sys_nudged.
Proof. unfold sys_nudged. apply R_child, reachable_sys_snapped. Qed.

Lemma reachable_sys_primary_moved : reachable sys_primary_moved.
Proof.
  unfold sys_primary_moved, on_desk. apply R_desktop, reachable_sys_nudged.
Qed.

Lemma C5_snapped_iff_edge_witness :
  reachable sys_snapped
  /\ managedWindows (svc sys_snapped) !! 1
     = Some (mkInfo 1 true (mkOff 700 150) SnapEdgeRight (mkPos 800 250) (ms 100))
  /\ (true = true <-> SnapEdgeRight <> SnapEdgeNone).
Proof.
  assert (Hl : managedWindows (svc sys_snapped) !! 1
               = Some (mkInfo 1 true (mkOff 700 150) SnapEdgeRight (mkPos 800 250) (ms 100)))
    by (vm_compute; reflexivity).
  split; [exact reachable_sys_snapped|]. split; [exact Hl|].
  exact (C5_snapped_iff_edge sys_snapped 1 _ reachable_sys_snapped Hl).
Defined.

(** ** Switching snapping off and on *)

Lemma info_ok_unsnapped i : info_ok i -> IsSnapped i = false -> Edge i = SnapEdgeNone.
Proof.
  unfold info_ok. intros [_ H] Hs. destruct (decide (Edge i = SnapEdgeNone)) as [E|N]; [exact E|].
  rewrite (H N) in Hs. discriminate.
Qed.

(** C7: [SetSnapEnabled(false)] leaves every tracked window detached with
    edge [SnapEdgeNone] and with its offset, last position and time as
    they were; the windowing layer is not touched (no window moves, no
    [SetPosition] is issued); a following [SetSnapEnabled(true)] changes
    no window record and moves nothing. *)
Theorem C7_disable_clears_attachment (s : System) :
  reachable s ->
  let s1 := SetSnapEnabled false s in
  let s2 := SetSnapEnabled true s1 in
  (forall id, managedWindows (svc s1) !! id = detached <$> managedWindows (svc s) !! id)
  /\ desk s1 = desk s
  /\ snapEnabled (svc s1) = false
  /\ managedWindows (svc s2) = managedWindows (svc s1)
  /\ desk s2 = desk s1.
Proof.
  intros Hr s1 s2. pose proof (reachable_inv s Hr) as (_ & Hok & Hoff & _).
  assert (Hdet : forall i, info_ok i -> IsSnapped i = false -> detached i = i).
  { intros i Hi Hs. pose proof (info_ok_unsnapped i Hi Hs) as He.
    destruct i as [a b c d l t]. cbn in *. subst. reflexivity. }
  unfold s2, s1, SetSnapEnabled.
  destruct (snapEnabled (svc s)) eqn:He.
  - rewrite bool_decide_eq_false_2 by discriminate. cbn [negb].
    cbn. rewrite bool_decide_eq_false_2 by discriminate. cbn.
    split; [|repeat split].
    intros id. rewrite lookup_fmap.
    destruct (managedWindows (svc s) !! id) as [i|] eqn:Hi; [|reflexivity].
    cbn. destruct (IsSnapped i) eqn:Hs; [reflexivity|].
    now rewrite (Hdet i (Hok id i Hi) Hs).
  - rewrite bool_decide_eq_true_2 by reflexivity.
    rewrite He, bool_decide_eq_false_2 by discriminate. cbn.
    split; [|repeat split; exact He].
    intros id. destruct (managedWindows (svc s) !! id) as [i|] eqn:Hi; [|reflexivity].
    cbn. now rewrite (Hdet i (Hok id i Hi) (Hoff eq_refl id i Hi)).
Qed.

Lemma C7_disable_clears_attachment_witness :
  reachable sys_snapped
  /\ managedWindows (svc (SetSnapEnabled false sys_snapped)) !! 1
     = Some (mkInfo 1 false (mkOff 700 150) SnapEdgeNone (mkPos 800 250) (ms 100))
  /\ desk (SetSnapEnabled false sys_snapped) = desk sys_snapped.
Proof.
  destruct (C7_disable_clears_attachment sys_snapped reachable_sys_snapped)
    as (H1 & H2 & _).
  split; [exact reachable_sys_snapped|]. split; [|exact H2].
  rewrite H1. vm_compute. reflexivity.
Defined.

(** ** A move of the primary window *)

Lemma wrap_congr a k : Int.wrap (a + k * 2 ^ 64) = Int.wrap a.
Proof.
  unfold Int.wrap. replace (a + k * 2 ^ 64 + 2 ^ 63) with (a + 2 ^ 63 + k * 2 ^ 64) by lia.
  now rewrite Z.mod_add by lia.
Qed.

Lemma wrap_repr a : exists k, Int.wrap a = a + k * 2 ^ 64.
Proof.
  exists (- ((a + 2 ^ 63) / 2 ^ 64)). unfold Int.wrap.
  rewrite Z.mod_eq by lia. lia.
Qed.

(** The difference of two sums with a common summand, in machine
    arithmetic. *)
Lemma sub_add_cancel m' m o :
  Int.sub (Int.add m' o) (Int.add m o) = Int.sub m' m.
Proof.
  unfold Int.sub, Int.add.
  destruct (wrap_repr (m' + o)) as [k1 ->]. destruct (wrap_repr (m + o)) as [k2 ->].
  replace (m' + o + k1 * 2 ^ 64 - (m + o + k2 * 2 ^ 64)) with (m' - m + (k1 - k2) * 2 ^ 64)
    by lia.
  apply wrap_congr.
Qed.

(** C4, as the code has it: on a move of the primary window with snapping
    enabled the cached geometry is refreshed, and every attached window is
    written to, and recorded at, the new position of the primary window
    plus its offset; an attached window that stood at the cached position
    of the primary window plus its offset thereby moves by the difference
    between the new and the cached position of the primary window; a free
    window is neither written nor changed, and stays free. *)
Theorem C4_primary_move_resyncs (n : nat) (clk : Clock) (s : System) (mw : Window) :
  reachable s ->
  snapEnabled (svc s) = true ->
  mainWindow (desk s) = Some mw ->
  let s' := onMainWindowMoved (hook n clk) s in
  let old := lastMainWindowPos (svc s) in
  lastMainWindowPos (svc s') = winPos mw
  /\ lastMainWindowSize (svc s') = winSize mw
  /\ (forall id i,
        managedWindows (svc s) !! id = Some i -> IsSnapped i = true ->
        let target := resync_target (winPos mw) i in
        window_Position (desk s') id = target
        /\ managedWindows (svc s') !! id = Some (set_LastPos target i)
        /\ (exists new, moves (desk s') = new ++ moves (desk s) /\ In (id, target) new)
        /\ (window_Position (desk s) id = resync_target old i ->
            Int.sub (X target) (X (window_Position (desk s) id))
            = Int.sub (X (winPos mw)) (X old)
            /\ Int.sub (Y target) (Y (window_Position (desk s) id))
               = Int.sub (Y (winPos mw)) (Y old)))
  /\ (forall id i,
        managedWindows (svc s) !! id = Some i -> IsSnapped i = false ->
        window_Position (desk s') id = window_Position (desk s) id
        /\ managedWindows (svc s') !! id = Some i
        /\ (exists new, moves (desk s') = new ++ moves (desk s)
                        /\ forall p, ~ In (id, p) new)).
Proof.
  intros Hr He Hmw s' old.
  pose proof (reachable_inv s Hr) as (_ & _ & _ & Href).
  unfold s'. rewrite onMainWindowMoved_echo by apply hook_respects_guard.
  unfold onMainWindowMoved. rewrite He, Hmw. cbn [negb].
  set (s0 := on_svc (set_mainCache (winPos mw) (winSize mw)) s).
  pose proof (update_snapped_effect (map_to_list (managedWindows (svc s0))).*1 s0
                (NoDup_fst_map_to_list _))
    as (Hfr & Hm & Hp & _ & new & Hv & Hsound & Hcompl).
  cbv zeta in Hfr, Hm, Hp, Hsound, Hcompl.
  change (lastMainWindowPos (svc s0)) with (winPos mw) in *.
  change (managedWindows (svc s0)) with (managedWindows (svc s)) in *.
  change (desk s0) with (desk s) in *.
  assert (Hres : forall id i, managedWindows (svc s) !! id = Some i ->
            resynced s0 (map_to_list (managedWindows (svc s))).*1 id i = IsSnapped i).
  { intros id i Hi. unfold resynced. change (windowRefs (svc s0)) with (windowRefs (svc s)).
    rewrite (bool_decide_eq_true_2 (id ∈ (map_to_list (managedWindows (svc s))).*1))
      by (apply elem_of_map_keys; eauto).
    rewrite (bool_decide_eq_true_2 (id ∈ windowRefs (svc s))) by (apply Href; eauto).
    now rewrite !andb_true_r. }
  split; [apply Hfr|]. split; [apply Hfr|]. split.
  - intros id i Hi Hs. pose proof (Hres id i Hi) as R. rewrite Hs in R.
    split; [rewrite Hp, Hi, R; reflexivity|].
    split; [rewrite Hm, Hi, R; reflexivity|].
    split; [exists new; split; [exact Hv|]; now apply Hcompl|].
    intros Hat. rewrite Hat. unfold resync_target. cbn [X Y].
    split; apply sub_add_cancel.
  - intros id i Hi Hs. pose proof (Hres id i Hi) as R. rewrite Hs in R.
    split; [rewrite Hp, Hi, R; reflexivity|].
    split; [rewrite Hm, Hi, R; reflexivity|].
    exists new. split; [exact Hv|]. intros p Hin.
    destruct (Hsound id p Hin) as (i' & Hi' & R' & _).
    assert (i' = i) as -> by congruence. congruence.
Qed.

Lemma C4_primary_move_resyncs_witness :
  reachable sys_primary_moved
  /\ snapEnabled (svc sys_primary_moved) = true
  /\ mainWindow (desk sys_primary_moved) = Some (mkWindow (mkPos 130 115) (700, 800))
  /\ window_Position
       (desk (onMainWindowMoved (hook 1 (mkClock (ms 400) (ms 400))) sys_primary_moved)) 1
     = mkPos 830 265.
Proof.
  assert (He : snapEnabled (svc sys_primary_moved) = true) by reflexivity.
  assert (Hmw : mainWindow (desk sys_primary_moved)
                = Some (mkWindow (mkPos 130 115) (700, 800))) by reflexivity.
  assert (Hi : managedWindows (svc sys_primary_moved) !! 1
               = Some (mkInfo 1 true (mkOff 700 150) SnapEdgeRight (mkPos 805 250) (ms 300)))
    by (vm_compute; reflexivity).
  split; [exact reachable_sys_primary_moved|]. split; [exact He|]. split; [exact Hmw|].
  destruct (C4_primary_move_resyncs 1 (mkClock (ms 400) (ms 400)) sys_primary_moved _
              reachable_sys_primary_moved He Hmw) as (_ & _ & Hsn & _).
  destruct (Hsn 1 _ Hi eq_refl) as (Hp & _). rewrite Hp. vm_compute. reflexivity.
Defined.

(** The consequence C4 draws for every attached window fails: a window
    nudged by 5 pixels stays attached where the user left it, and the next
    move of the primary window by (+30, +15) puts it back at the offset: it
    moves by (+25, +15). *)
Lemma C4_counterexample :
  ~ (forall (n : nat) (clk : Clock) (s : System) (mw : Window) (id : Z) (i : WindowInfo),
       reachable s ->
       snapEnabled (svc s) = true ->
       mainWindow (desk s) = Some mw ->
       managedWindows (svc s) !! id = Some i ->
       IsSnapped i = true ->
       let s' := onMainWindowMoved (hook n clk) s in
       X (window_Position (desk s') id) - X (window_Position (desk s) id)
       = X (winPos mw) - X (lastMainWindowPos (svc s))
       /\ Y (window_Position (desk s') id) - Y (window_Position (desk s) id)
          = Y (winPos mw) - Y (lastMainWindowPos (svc s))).
Proof.
  intros H.
  assert (Hi : managedWindows (svc sys_primary_moved) !! 1
               = Some (mkInfo 1 true (mkOff 700 150) SnapEdgeRight (mkPos 805 250) (ms 300)))
    by (vm_compute; reflexivity).
  specialize (H 1%nat (mkClock (ms 400) (ms 400)) sys_primary_moved
                (mkWindow (mkPos 130 115) (700, 800)) 1 _
                reachable_sys_primary_moved eq_refl eq_refl Hi eq_refl).
  vm_compute in H. destruct H as [H _]. discriminate H.
Qed.

(** ** Attaching a window *)



(** ** The snap decision *)

(** C2: once the debounce window has passed, [shouldSnapToMainWindow]
    decides on the cached geometry as follows. A corner is accepted when
    its Euclidean distance is at most 1.5 times the threshold; if any
    corner is accepted the answer is an accepted corner of least distance.
    Only if no corner is accepted are the sides looked at: a side is
    accepted when its gap is at most the threshold, and the answer is an
    accepted side of least gap. If nothing is accepted there is no snap. *)
Theorem C2_corner_priority (id : Z) (P : WindowPosition) (t0 t1 : Z) (s : System) :
  debounceThreshold <= t1 - t0 ->
  let r := shouldSnapToMainWindow id P t0 t1 s in
  let thr := F64.of_int (calculateAdaptiveThreshold (svc (snd r))) in
  let cthr := F64.mul thr F64.c1_5 in
  exists wsz,
    windowSizeCache (svc (snd r)) !! id = Some wsz
    /\ let corners :=
         corner_candidates (lastMainWindowPos (svc (snd r)))
           (lastMainWindowSize (svc (snd r))) P wsz in
       let sides :=
         side_candidates (lastMainWindowPos (svc (snd r)))
           (lastMainWindowSize (svc (snd r))) P wsz in
       ((exists c, In c corners /\ F64.leb (snd c) cthr = true) ->
        exists e d, fst r = (true, e) /\ is_corner e = true
                    /\ nearest_accepted cthr corners (e, d))
       /\ (none_accepted cthr corners ->
           (exists c, In c sides /\ F64.leb (snd c) thr = true) ->
           exists e d, fst r = (true, e) /\ is_side e = true
                       /\ nearest_accepted thr sides (e, d))
       /\ (none_accepted cthr corners -> none_accepted thr sides ->
           fst r = (false, SnapEdgeNone)).
Proof.
  intros Hdeb r thr cthr.
  pose proof (shouldSnapToMainWindow_spec id P t0 t1 s) as (_ & _ & Hacc).
  fold r in Hacc. destruct (Hacc Hdeb) as (wsz & Hw & Hr).
  exists wsz. split; [exact Hw|]. cbv zeta.
  pose proof (choose_snap_spec (calculateAdaptiveThreshold (svc (snd r)))
                (lastMainWindowPos (svc (snd r))) (lastMainWindowSize (svc (snd r))) P wsz)
    as Hsp.
  cbv zeta in Hsp. fold thr in Hsp. fold cthr in Hsp.
  match type of Hr with context [choose_snap ?a ?b ?c ?d ?e] =>
    destruct (choose_snap a b c d e) as [b'|] end.
  - destruct Hsp as [[Hn Hc]|(Hno & Hn & Hsd)].
    + split; [|split].
      * intros _. exists (edge b'), (distance b'). auto.
      * intros Hnone _. destruct Hn as (Hin & Hle & _).
        rewrite (Hnone _ Hin) in Hle. discriminate.
      * intros Hnone _. destruct Hn as (Hin & Hle & _).
        rewrite (Hnone _ Hin) in Hle. discriminate.
    + split; [|split].
      * intros (c & Hin & Hle). rewrite (Hno _ Hin) in Hle. discriminate.
      * intros _ _. exists (edge b'), (distance b'). auto.
      * intros _ Hnone. destruct Hn as (Hin & Hle & _).
        rewrite (Hnone _ Hin) in Hle. discriminate.
  - destruct Hsp as [Hnc Hns]. split; [|split].
    + intros (c & Hin & Hle). rewrite (Hnc _ Hin) in Hle. discriminate.
    + intros _ (c & Hin & Hle). rewrite (Hns _ Hin) in Hle. discriminate.
    + intros _ _. exact Hr.
Qed.

(** Scenario B: 7 pixels right of and 6 pixels above the top-right corner
    of a primary window 700 wide (threshold 17) both the corner and the
    right side are within reach, and the corner is chosen. *)
Lemma C2_corner_priority_witness :
  debounceThreshold <= ms 100 - 0
  /\ F64.leb (F64.abs (F64.of_int (Int.sub (Int.add 100 700) 807))) (F64.of_int 17) = true
  /\ exists e, fst (shouldSnapToMainWindow 1 (mkPos 807 (-206)) 0 (ms 100) sys_B_dragged)
               = (true, e)
               /\ is_corner e = true.
Proof.
  assert (Hdeb : debounceThreshold <= ms 100 - 0) by (vm_compute; discriminate).
  split; [exact Hdeb|]. split; [vm_compute; reflexivity|].
  destruct (C2_corner_priority 1 (mkPos 807 (-206)) 0 (ms 100) sys_B_dragged Hdeb)
    as (wsz & Hw & Hc & _).
  assert (Hw' : windowSizeCache
                  (svc (snd (shouldSnapToMainWindow 1 (mkPos 807 (-206)) 0 (ms 100)
                               sys_B_dragged))) !! 1 = Some (400, 300))
    by (vm_compute; reflexivity).
  rewrite Hw' in Hw. injection Hw as <-.
  destruct Hc as (e & d & He & Hcor & _).
  - exists (SnapEdgeTopRight, corner_dist (-7) 6). split; vm_compute; auto.
  - exists e. split; assumption.
Defined.

Lemma scenario_B_top_right :
  fst (shouldSnapToMainWindow 1 (mkPos 807 (-206)) 0 (ms 100) sys_B_dragged)
  = (true, SnapEdgeTopRight).
Proof. vm_compute. reflexivity. Qed.

(** ** A move of an attached window *)

(** C1 at the input on which the code departs from it: the window attached
    at (800, 250) since 100 ms is found 50 pixels to the right at 300 ms,
    200 ms after its last move, and is detached. *)
Theorem C1_slow_drag_detaches :
  managedWindows (svc sys_snapped) !! 1
  = Some (mkInfo 1 true (mkOff 700 150) SnapEdgeRight (mkPos 800 250) (ms 100))
  /\ calculateAdaptiveThreshold (svc sys_snapped) = 17
  /\ managedWindows
       (svc (child_moved 1 1 (mkPos 850 250) (mkClock (ms 300) (ms 300)) sys_snapped)) !! 1
     = Some (mkInfo 1 false (mkOff 700 150) SnapEdgeNone (mkPos 850 250) (ms 300)).
Proof. repeat split; vm_compute; reflexivity. Qed.

(** ** The shape of a move handler's result *)

Lemma getWindowSizeCached_cache id s :
  let s' := snd (getWindowSizeCached id s) in
  (forall j, j <> id -> windowSizeCache (svc s') !! j = windowSizeCache (svc s) !! j)
  /\ (forall sz, windowSizeCache (svc s) !! id = Some sz ->
        windowSizeCache (svc s') !! id = Some sz)
  /\ (windowSizeCache (svc s) !! id = None ->
        windowSizeCache (svc s') !! id = Some (window_Size (desk s) id)).
Proof.
  cbv zeta. unfold getWindowSizeCached.
  destruct (windowSizeCache (svc s) !! id) as [sz|] eqn:Hc.
  - cbn [snd]. split; [reflexivity|]. split; [intros ? [= <-]; exact Hc|discriminate].
  - unfold updateWindowSizeCacheLocked. cbn. rewrite lookup_insert_eq. cbn.
    split; [intros j Hj; now rewrite lookup_insert_ne by congruence|].
    split; [discriminate|]. intros _. now rewrite lookup_insert_eq.
Qed.

Lemma shouldSnapToMainWindow_cache id p t0 t1 s :
  let s' := snd (shouldSnapToMainWindow id p t0 t1 s) in
  (forall j, j <> id -> windowSizeCache (svc s') !! j = windowSizeCache (svc s) !! j)
  /\ (forall sz, windowSizeCache (svc s) !! id = Some sz ->
        windowSizeCache (svc s') !! id = Some sz).
Proof.
  cbv zeta. unfold shouldSnapToMainWindow.
  destruct (t1 - t0 <? debounceThreshold); [cbn [snd]; split; [reflexivity|auto]|].
  match goal with |- context [if ?c then updateMainWindowCacheLocked s else s] =>
    set (s1 := if c then updateMainWindowCacheLocked s else s) end.
  assert (E : windowSizeCache (svc s1) = windowSizeCache (svc s)).
  { unfold s1. destruct (_ || _); [|reflexivity]. unfold updateMainWindowCacheLocked.
    destruct (mainWindow (desk s)); reflexivity. }
  pose proof (getWindowSizeCached_cache id s1) as (H1 & H2 & _). cbv zeta in H1, H2.
  destruct (getWindowSizeCached id s1) as [wsz s2]. cbn [snd] in H1, H2.
  match goal with |- context [choose_snap ?a ?b ?c ?d ?e] =>
    destruct (choose_snap a b c d e) end; cbn [snd]; rewrite <- E; split; assumption.
Qed.

(** [handleSnappedWindow] either leaves the state or clears the attachment
    of its window. *)
Lemma handleSnappedWindow_shape id p t s :
  handleSnappedWindow id p t s = s
  \/ handleSnappedWindow id p t s
     = on_info id (set_Edge SnapEdgeNone) (on_info id (set_IsSnapped false) s).
Proof.
  unfold handleSnappedWindow. destruct (managedWindows (svc s) !! id); [|now left].
  destruct (_ && _); [now right|now left].
Qed.

(** [handleUnsnappedWindow] either refreshes caches only, or attaches its
    window: marks it, writes it to the snap position under the re-entrancy
    flag, and records offset and position. *)
Lemma handleUnsnappedWindow_shape id p t0 t1 s :
  exists s2,
    caches_only s s2
    /\ (forall j, j <> id -> windowSizeCache (svc s2) !! j = windowSizeCache (svc s) !! j)
    /\ (forall sz, windowSizeCache (svc s) !! id = Some sz ->
          windowSizeCache (svc s2) !! id = Some sz)
    /\ (handleUnsnappedWindow no_echo id p t0 t1 s = (false, s2)
        \/ exists e target,
             handleUnsnappedWindow no_echo id p t0 t1 s
             = (true,
                on_info id (set_LastPos target)
                  (on_info id
                     (set_SnapOffset
                        (mkOff (Int.sub (X target) (X (lastMainWindowPos (svc s2))))
                               (Int.sub (Y target) (Y (lastMainWindowPos (svc s2))))))
                     (set_updating id false
                        (on_desk (place id target)
                           (set_updating id true
                              (on_info id (set_Edge e)
                                 (on_info id (set_IsSnapped true) s2)))))))).
Proof.
  unfold handleUnsnappedWindow.
  pose proof (shouldSnapToMainWindow_spec id p t0 t1 s) as (Hco & _).
  pose proof (shouldSnapToMainWindow_cache id p t0 t1 s) as (Hc1 & Hc2).
  cbv zeta in Hco, Hc1, Hc2.
  destruct (shouldSnapToMainWindow id p t0 t1 s) as [[should e] s1].
  cbn [snd] in Hco, Hc1, Hc2.
  destruct should.
  - unfold calculateSnapPosition.
    change (lastMainWindowPos (svc (on_info id (set_Edge e) (on_info id (set_IsSnapped true) s1))))
      with (lastMainWindowPos (svc s1)).
    change (lastMainWindowSize (svc (on_info id (set_Edge e) (on_info id (set_IsSnapped true) s1))))
      with (lastMainWindowSize (svc s1)).
    rewrite !getWindowSizeCached_on_info.
    pose proof (getWindowSizeCached_spec id s1) as (Hco2 & Hp2 & _).
    pose proof (getWindowSizeCached_cache id s1) as (Hd1 & Hd2 & _). cbv zeta in Hd1, Hd2.
    destruct (getWindowSizeCached id s1) as [[ww wh] s2]. cbn [fst snd] in *.
    exists s2. split; [eapply caches_only_trans; eauto|].
    split; [intros j Hj; rewrite Hd1, Hc1 by exact Hj; reflexivity|].
    split; [intros sz Hsz; apply Hd2, Hc2, Hsz|].
    right. eexists e, _. unfold SetPosition, no_echo.
    change (lastMainWindowPos (svc (set_updating id false
              (on_desk (place id ?t) (set_updating id true
                 (on_info id (set_Edge e) (on_info id (set_IsSnapped true) s2)))))))
      with (lastMainWindowPos (svc s2)).
    reflexivity.
  - exists s1. split; [exact Hco|]. split; [exact Hc1|]. split; [exact Hc2|]. now left.
Qed.

Lemma ignored_move echo id clk s : ignores id s -> onChildWindowMoved echo id clk s = s.
Proof.
  unfold onChildWindowMoved. intros [H|[H|[H|(i & Hi & Hp)]]].
  - now rewrite H.
  - rewrite H. now destruct (negb _).
  - destruct (negb _); [reflexivity|].
    destruct (managedWindows _ !! id); [|reflexivity]. now rewrite H.
  - rewrite Hi, Hp, !Z.eqb_refl. destruct (negb _); [reflexivity|].
    now destruct (updating s id).
Qed.

Lemma pos_eqb_true (p q : WindowPosition) :
  (X p =? X q) && (Y p =? Y q) = true -> p = q.
Proof.
  destruct p, q. cbn. intros H. apply andb_true_iff in H as [H1 H2].
  apply Z.eqb_eq in H1, H2. congruence.
Qed.

(** A move handler that does not return at once leaves every other
    window as it was and its own window recorded where it now is. *)
Lemma child_handler_effect id clk s :
  let s' := onChildWindowMoved no_echo id clk s in
  ignores id s
  \/ ((exists i i', managedWindows (svc s) !! id = Some i
         /\ managedWindows (svc s') !! id = Some i'
         /\ DocumentID i' = DocumentID i
         /\ MoveTime i' = t_now clk
         /\ LastPos i' = window_Position (desk s') id)
      /\ snapEnabled (svc s) = true
      /\ updating s id = false
      /\ same_frame s s'
      /\ (forall j, j <> id -> managedWindows (svc s') !! j = managedWindows (svc s) !! j)
      /\ (forall j, j <> id -> windowSizeCache (svc s') !! j = windowSizeCache (svc s) !! j)
      /\ (forall sz, windowSizeCache (svc s) !! id = Some sz ->
            windowSizeCache (svc s') !! id = Some sz)
      /\ (forall j, j <> id ->
            isUpdatingPosition (svc s') !! j = isUpdatingPosition (svc s) !! j)
      /\ (desk s' = desk s \/ exists target, desk s' = place id target (desk s))).
Proof.
  cbv zeta. unfold ignores.
  destruct (snapEnabled (svc s)) eqn:He; [|now (left; left)].
  destruct (managedWindows (svc s) !! id) as [i|] eqn:Hi; [|now (left; right; left)].
  destruct (updating s id) eqn:Hu; [now (left; right; right; left)|].
  destruct ((X (window_Position (desk s) id) =? X (LastPos i))
            && (Y (window_Position (desk s) id) =? Y (LastPos i))) eqn:Hp.
  { left. right. right. right. exists i. split; [reflexivity|]. now apply pos_eqb_true. }
  right. unfold onChildWindowMoved. rewrite He, Hi, Hu, Hp. cbn [negb].
  set (P := window_Position (desk s) id).
  set (s0 := on_info id (set_MoveTime (t_now clk)) s).
  destruct (IsSnapped i) eqn:Hs.
  - destruct (handleSnappedWindow_shape id P (t_since clk) s0) as [E|E]; rewrite E;
      (split; [exists i; eexists; split; [reflexivity|]; split;
                [cbn; rewrite !lookup_alter_eq, Hi; reflexivity|];
                split; [reflexivity|]; split; reflexivity|]);
      (split; [reflexivity|]); (split; [reflexivity|]);
      (split; [repeat split|]);
      (split; [intros j Hj; cbn; now rewrite !lookup_alter_ne by congruence|]);
      (split; [reflexivity|]); (split; [auto|]); (split; [reflexivity|]); now left.
  - destruct (handleUnsnappedWindow_shape id P (MoveTime i) (t_since clk) s0)
      as (s2 & Hco & Hc1 & Hc2 & [E|(e & target & E)]); rewrite E;
      pose proof (caches_only_frame _ _ Hco) as Hfr;
      destruct Hco as (Hd & _ & _ & _ & _ & Hm & _ & Hg & _).
    + split.
      { exists i. eexists. split; [reflexivity|]. split.
        - cbn. rewrite Hm. cbn. rewrite !lookup_alter_eq, Hi. reflexivity.
        - split; [reflexivity|]. split; [reflexivity|]. cbn. now rewrite Hd. }
      split; [reflexivity|]. split; [reflexivity|].
      split; [apply (same_frame_trans _ s2); [exact Hfr|repeat split]|].
      split; [intros j Hj; cbn; rewrite Hm; cbn; now rewrite !lookup_alter_ne by congruence|].
      split; [exact Hc1|]. split; [exact Hc2|].
      split; [intros j Hj; cbn; now rewrite Hg|]. left. exact Hd.
    + split.
      { exists i. eexists. split; [reflexivity|]. split.
        - cbn. rewrite Hm. cbn. rewrite !lookup_alter_eq, Hi. reflexivity.
        - split; [reflexivity|]. split; [reflexivity|].
          cbn. unfold window_Position. cbn. now rewrite lookup_insert_eq. }
      split; [reflexivity|]. split; [reflexivity|].
      split.
      { apply (same_frame_trans _ s2); [exact Hfr|].
        unfold same_frame. cbn. repeat split. intros j. unfold updating. cbn.
        destruct (decide (j = id)) as [->|Hne].
        - rewrite lookup_insert_eq. cbn. rewrite Hg. symmetry. exact Hu.
        - rewrite !lookup_insert_ne by congruence. reflexivity. }
      split; [intros j Hj; cbn; rewrite Hm; cbn; now rewrite !lookup_alter_ne by congruence|].
      split; [exact Hc1|]. split; [exact Hc2|].
      split; [intros j Hj; cbn; rewrite !lookup_insert_ne by congruence; now rewrite Hg|].
      right. exists target. cbn. now rewrite Hd.
Qed.

(** ** The registry *)

Lemma registry_ok_preserved s s' :
  registry_ok s ->
  windowRefs (svc s') = windowRefs (svc s) ->
  windowMoveUnhooks (svc s') = windowMoveUnhooks (svc s) ->
  mainMoveUnhook (svc s') = mainMoveUnhook (svc s) ->
  (forall j i', managedWindows (svc s') !! j = Some i' ->
     exists i, managedWindows (svc s) !! j = Some i /\ DocumentID i' = DocumentID i) ->
  (forall j, is_Some (managedWindows (svc s) !! j) -> is_Some (managedWindows (svc s') !! j)) ->
  (forall j, is_Some (windowSizeCache (svc s') !! j) <-> is_Some (windowSizeCache (svc s) !! j)) ->
  (forall j, is_Some (isUpdatingPosition (svc s') !! j) ->
     is_Some (isUpdatingPosition (svc s) !! j) \/ is_Some (managedWindows (svc s) !! j)) ->
  (forall j, updating s' j = false) ->
  registry_ok s'.
Proof.
  intros (R1 & R2 & R3 & R4 & R5 & R6 & R7) Er Eh Em Hd Hs Hc Hg Hu.
  assert (Hdom : forall j, is_Some (managedWindows (svc s') !! j)
                           <-> is_Some (managedWindows (svc s) !! j)).
  { intros j. split; [|apply Hs]. intros [i' Hi']. destruct (Hd j i' Hi') as (i & Hi & _). eauto. }
  split; [intros j; rewrite Er, Hdom; apply R1|].
  split; [intros j; rewrite Eh, Hdom; apply R2|].
  split; [intros j; rewrite Hc, Hdom; apply R3|].
  split; [intros j Hj; apply Hdom; destruct (Hg j Hj); auto|].
  split; [exact Hu|].
  split.
  - rewrite Em. intros Hh E. apply (R6 Hh). apply map_eq. intros j. rewrite lookup_empty.
    destruct (managedWindows (svc s) !! j) as [i|] eqn:Hj; [|reflexivity].
    destruct (Hs j (ex_intro _ i Hj)) as [i' Hi']. rewrite E, lookup_empty in Hi'. discriminate.
  - intros j i' Hi'. destruct (Hd j i' Hi') as (i & Hi & ->). eauto.
Qed.

Lemma registry_ok_empty s :
  managedWindows (svc s) = ∅ -> windowRefs (svc s) = ∅ -> windowSizeCache (svc s) = ∅ ->
  isUpdatingPosition (svc s) = ∅ -> mainMoveUnhook (svc s) = false ->
  windowMoveUnhooks (svc s) = ∅ -> registry_ok s.
Proof.
  intros Em Er Ec Eg Eh Ew. unfold registry_ok, updating. rewrite Em, Er, Ec, Eg, Eh, Ew.
  assert (N : forall (A : Type) (j : Z), ~ is_Some ((∅ : gmap Z A) !! j)).
  { intros A j [x Hx]. rewrite lookup_empty in Hx. discriminate. }
  split; [intros j; split; [intros H; now apply elem_of_empty in H|intros H; now apply N in H]|].
  split; [intros j; split; [intros H; now apply elem_of_empty in H|intros H; now apply N in H]|].
  split; [intros j; split; intros H; now apply N in H|].
  split; [intros j H; now apply N in H|].
  split; [intros j; now rewrite lookup_empty|].
  split; [discriminate|].
  intros j i. rewrite lookup_empty. discriminate.
Qed.

Lemma registry_ok_new config d : registry_ok (boot config d).
Proof. apply registry_ok_empty; reflexivity. Qed.

Lemma registry_ok_desktop s d : registry_ok s -> registry_ok (mkSystem (svc s) d).
Proof. intros H. exact H. Qed.

Lemma registry_ok_register s id now : registry_ok s -> registry_ok (RegisterWindow id now s).
Proof.
  intros (R1 & R2 & R3 & R4 & R5 & R6 & R7). unfold RegisterWindow.
  set (i0 := mkInfo id false (mkOff 0 0) SnapEdgeNone (window_Position (desk s) id) now).
  set (s0 := updateWindowSizeCacheLocked id (on_svc _ s)).
  set (s1 := if bool_decide _ then setupMainWindowEvents s0 else s0).
  assert (E1 : managedWindows (svc s1) = <[id := i0]> (managedWindows (svc s))).
  { unfold s1, setupMainWindowEvents. destruct (bool_decide _); [|reflexivity].
    destruct (mainMoveUnhook (svc s0)); [reflexivity|].
    destruct (mainWindow (desk s0)); reflexivity. }
  assert (E2 : windowRefs (svc s1) = {[id]} ∪ windowRefs (svc s)).
  { unfold s1, setupMainWindowEvents. destruct (bool_decide _); [|reflexivity].
    destruct (mainMoveUnhook (svc s0)); [reflexivity|].
    destruct (mainWindow (desk s0)); reflexivity. }
  assert (E3 : windowSizeCache (svc s1)
               = <[id := window_Size (desk s) id]> (windowSizeCache (svc s))).
  { unfold s1, setupMainWindowEvents. destruct (bool_decide _); [|reflexivity].
    destruct (mainMoveUnhook (svc s0)); [reflexivity|].
    destruct (mainWindow (desk s0)); reflexivity. }
  assert (E4 : isUpdatingPosition (svc s1) = isUpdatingPosition (svc s)).
  { unfold s1, setupMainWindowEvents. destruct (bool_decide _); [|reflexivity].
    destruct (mainMoveUnhook (svc s0)); [reflexivity|].
    destruct (mainWindow (desk s0)); reflexivity. }
  assert (E5 : windowMoveUnhooks (svc s1) = windowMoveUnhooks (svc s)).
  { unfold s1, setupMainWindowEvents. destruct (bool_decide _); [|reflexivity].
    destruct (mainMoveUnhook (svc s0)); [reflexivity|].
    destruct (mainWindow (desk s0)); reflexivity. }
  unfold registry_ok, setupWindowEvents, updating. cbn. rewrite E1, E2, E3, E4, E5.
  assert (Hdom : forall j, is_Some (<[id := i0]> (managedWindows (svc s)) !! j)
                           <-> j = id \/ is_Some (managedWindows (svc s) !! j)).
  { intros j. destruct (decide (j = id)) as [->|Hne].
    - rewrite lookup_insert_eq. split; eauto.
    - rewrite lookup_insert_ne by congruence. split; [now right|]. intros [?|?]; [congruence|auto]. }
  split; [intros j; rewrite Hdom, elem_of_union, elem_of_singleton, R1; reflexivity|].
  split; [intros j; rewrite Hdom, elem_of_union, elem_of_singleton, R2; reflexivity|].
  split.
  { intros j. rewrite Hdom, <- R3. destruct (decide (j = id)) as [->|Hne].
    - rewrite lookup_insert_eq. split; eauto.
    - rewrite lookup_insert_ne by congruence. split; [now right|]. intros [?|?]; [congruence|auto]. }
  split; [intros j Hj; apply Hdom; right; now apply R4|].
  split; [exact R5|].
  split.
  { intros _ E. apply (f_equal (fun m => m !! id)) in E.
    rewrite lookup_insert_eq, lookup_empty in E. discriminate. }
  intros j i. destruct (decide (j = id)) as [->|Hne].
  - rewrite lookup_insert_eq. intros [= <-]. reflexivity.
  - rewrite lookup_insert_ne by congruence. apply R7.
Qed.

Lemma registry_ok_unregister s id : registry_ok s -> registry_ok (UnregisterWindow id s).
Proof.
  intros (R1 & R2 & R3 & R4 & R5 & R6 & R7). unfold UnregisterWindow.
  set (s0 := on_svc _ (on_svc _ s)).
  assert (Hdom : forall j, is_Some (delete id (managedWindows (svc s)) !! j)
                           <-> j <> id /\ is_Some (managedWindows (svc s) !! j)).
  { intros j. destruct (decide (j = id)) as [->|Hne].
    - rewrite lookup_delete_eq. split; [intros [? ?]; discriminate|tauto].
    - rewrite lookup_delete_ne by congruence. tauto. }
  assert (H0 : (forall j, j ∈ windowRefs (svc s0) <-> is_Some (managedWindows (svc s0) !! j))
    /\ (forall j, j ∈ windowMoveUnhooks (svc s0) <-> is_Some (managedWindows (svc s0) !! j))
    /\ (forall j, is_Some (windowSizeCache (svc s0) !! j)
                  <-> is_Some (managedWindows (svc s0) !! j))
    /\ (forall j, is_Some (isUpdatingPosition (svc s0) !! j)
                  -> is_Some (managedWindows (svc s0) !! j))
    /\ (forall j, updating s0 j = false)
    /\ (forall j i, managedWindows (svc s0) !! j = Some i -> DocumentID i = j)).
  { unfold s0, updating. cbn.
    split; [intros j; rewrite Hdom, elem_of_difference, elem_of_singleton, R1; tauto|].
    split; [intros j; rewrite Hdom, elem_of_difference, elem_of_singleton, R2; tauto|].
    split.
    { intros j. rewrite Hdom, <- R3. destruct (decide (j = id)) as [->|Hne].
      - rewrite lookup_delete_eq. split; [intros [? ?]; discriminate|tauto].
      - rewrite lookup_delete_ne by congruence. tauto. }
    split.
    { intros j. rewrite Hdom. destruct (decide (j = id)) as [->|Hne].
      - rewrite lookup_delete_eq. intros [? ?]; discriminate.
      - rewrite lookup_delete_ne by congruence. intros H. split; [exact Hne|now apply R4]. }
    split.
    { intros j. specialize (R5 j). unfold updating in R5.
      destruct (decide (j = id)) as [->|Hne].
      - now rewrite lookup_delete_eq.
      - now rewrite lookup_delete_ne by congruence. }
    intros j i. destruct (decide (j = id)) as [->|Hne].
    - now rewrite lookup_delete_eq.
    - rewrite lookup_delete_ne by congruence. apply R7. }
  destruct H0 as (Q1 & Q2 & Q3 & Q4 & Q5 & Q7).
  assert (Hfin : forall s1 : System,
            (mainMoveUnhook (svc s1) = true -> managedWindows (svc s0) <> ∅) ->
            svc s1 = set_mainMoveUnhook (mainMoveUnhook (svc s1)) (svc s0) -> registry_ok s1).
  { intros s1 Hh E. unfold registry_ok, updating. rewrite E.
    split; [exact Q1|]. split; [exact Q2|]. split; [exact Q3|]. split; [exact Q4|].
    split; [exact Q5|]. split; [exact Hh|exact Q7]. }
  destruct (bool_decide (size (managedWindows (svc s0)) = 0%nat)) eqn:Hsz.
  - unfold cleanupMainWindowEvents. destruct (mainMoveUnhook (svc s0)) eqn:Hh.
    + apply Hfin; [discriminate|reflexivity].
    + apply Hfin; [rewrite Hh; discriminate|].
      rewrite Hh. destruct (svc s0). cbn in Hh. now subst.
  - apply bool_decide_eq_false_1 in Hsz. apply Hfin.
    + intros _ E. apply Hsz. rewrite E. apply map_size_empty.
    + now destruct (svc s0).
Qed.

Lemma registry_ok_enable s b : registry_ok s -> registry_ok (SetSnapEnabled b s).
Proof.
  intros H. unfold SetSnapEnabled.
  destruct (bool_decide (snapEnabled (svc s) = b)); [exact H|].
  destruct b; cbn [negb]; [exact H|].
  apply (registry_ok_preserved s); try reflexivity; try exact H.
  - intros j i'. cbn. rewrite lookup_fmap.
    destruct (managedWindows (svc s) !! j) as [i|]; [|discriminate].
    cbn. intros [= <-]. exists i. split; [reflexivity|]. now destruct (IsSnapped i).
  - intros j [i Hi]. cbn. rewrite lookup_fmap, Hi. cbn. eauto.
  - intros j. left. exact H0.
  - apply H.
Qed.

Lemma registry_ok_cache s : registry_ok s -> registry_ok (UpdateMainWindowCache s).
Proof.
  intros H. unfold UpdateMainWindowCache, updateMainWindowCacheLocked.
  destruct (mainWindow (desk s)); exact H.
Qed.

Lemma registry_ok_child_handler id clk s :
  registry_ok s -> registry_ok (onChildWindowMoved no_echo id clk s).
Proof.
  intros H.
  destruct (child_handler_effect id clk s) as [Hi|Hc]; cbv zeta in *.
  { now rewrite (ignored_move _ _ _ _ Hi). }
  destruct Hc as ((i & i' & Hi & Hi' & Hdoc & _) & _ & _ & Hfr & Ho & Hc1 & Hc2 & Hg & _).
  destruct Hfr as (_ & _ & _ & _ & Er & Em & Eh & Hu).
  apply (registry_ok_preserved s); try assumption.
  - intros j k'. destruct (decide (j = id)) as [->|Hne].
    + rewrite Hi'. intros [= <-]. eauto.
    + rewrite (Ho j Hne). eauto.
  - intros j. destruct (decide (j = id)) as [->|Hne].
    + rewrite Hi'. eauto.
    + now rewrite (Ho j Hne).
  - intros j. destruct (decide (j = id)) as [->|Hne].
    + destruct H as (_ & _ & R3 & _).
      destruct (proj2 (R3 id) (ex_intro _ i Hi)) as [sz Hsz].
      rewrite (Hc2 sz Hsz), Hsz. reflexivity.
    + now rewrite (Hc1 j Hne).
  - intros j. destruct (decide (j = id)) as [->|Hne].
    + intros _. right. eauto.
    + rewrite (Hg j Hne). now left.
  - intros j. rewrite Hu. apply H.
Qed.

Lemma update_snapped_guards ids : forall s,
  let s' := update_snapped no_echo ids s in
  forall j, isUpdatingPosition (svc s') !! j = isUpdatingPosition (svc s) !! j
            \/ (is_Some (managedWindows (svc s) !! j)
                /\ isUpdatingPosition (svc s') !! j = Some false).
Proof.
  induction ids as [|a l IH]; intros s; cbv zeta; [now left|].
  intros j. cbn [update_snapped fold_left].
  pose proof (loop_step_effect a s) as (_ & Hm & _). cbv zeta in Hm.
  set (s1 := match managedWindows (svc s) !! a with
             | Some windowInfo =>
                 if IsSnapped windowInfo then updateSnappedWindowPosition no_echo a s else s
             | None => s
             end) in *.
  assert (Hdom : is_Some (managedWindows (svc s1) !! j) -> is_Some (managedWindows (svc s) !! j)).
  { rewrite Hm. destruct (managedWindows (svc s) !! j); [eauto|intros [? ?]; discriminate]. }
  assert (H1 : isUpdatingPosition (svc s1) !! j = isUpdatingPosition (svc s) !! j
               \/ (is_Some (managedWindows (svc s) !! j)
                   /\ isUpdatingPosition (svc s1) !! j = Some false)).
  { unfold s1. destruct (managedWindows (svc s) !! a) as [i|] eqn:Ha; [|now left].
    destruct (IsSnapped i); [|now left].
    unfold updateSnappedWindowPosition. rewrite Ha.
    destruct (bool_decide _); [|now left]. unfold SetPosition, no_echo. cbn.
    destruct (decide (j = a)) as [->|Hne].
    - right. rewrite lookup_insert_eq. split; eauto.
    - left. now rewrite !lookup_insert_ne by congruence. }
  destruct (IH s1 j) as [E|[Hs E]]; fold (update_snapped no_echo l s1) in *.
  - rewrite E. exact H1.
  - right. split; [now apply Hdom|exact E].
Qed.

Lemma registry_ok_main_handler s : registry_ok s -> registry_ok (onMainWindowMoved no_echo s).
Proof.
  intros H. unfold onMainWindowMoved.
  destruct (negb (snapEnabled (svc s))); [exact H|].
  destruct (mainWindow (desk s)) as [mw|]; [|exact H].
  set (s0 := on_svc (set_mainCache (winPos mw) (winSize mw)) s).
  assert (H0 : registry_ok s0) by exact H.
  pose proof (update_snapped_effect (map_to_list (managedWindows (svc s0))).*1 s0
                (NoDup_fst_map_to_list _)) as (Hfr & Hm & _).
  pose proof (update_snapped_guards (map_to_list (managedWindows (svc s0))).*1 s0) as Hg.
  cbv zeta in Hfr, Hm, Hg.
  destruct Hfr as (_ & _ & _ & _ & _ & _ & Ec & Er & Em & Eh & _).
  apply (registry_ok_preserved s0); try assumption.
  - intros j i'. rewrite Hm. destruct (managedWindows (svc s0) !! j) as [i|]; [|discriminate].
    destruct (resynced s0 _ j i); intros [= <-]; eauto.
  - intros j [i Hi]. rewrite Hm, Hi. destruct (resynced s0 _ j i); eauto.
  - intros j. now rewrite Ec.
  - intros j Hj. destruct (Hg j) as [E|[Hs _]]; [left; now rewrite <- E|now right].
  - intros j. unfold updating. destruct (Hg j) as [E|[_ E]]; rewrite E; [|reflexivity].
    apply H0.
Qed.

Lemma registry_ok_child_moved n id p clk s :
  registry_ok s -> registry_ok (child_moved n id p clk s).
Proof.
  intros H. unfold child_moved.
  destruct (bool_decide _); [|exact H].
  rewrite onChildWindowMoved_echo by apply hook_respects_guard.
  apply registry_ok_child_handler. exact H.
Qed.

Lemma registry_ok_main_moved n p clk s :
  registry_ok s -> registry_ok (main_moved n p clk s).
Proof.
  intros H. unfold main_moved.
  destruct (mainMoveUnhook _); [|exact H].
  rewrite onMainWindowMoved_echo by apply hook_respects_guard.
  apply registry_ok_main_handler. exact H.
Qed.

Lemma Cleanup_fields s :
  snapEnabled (svc (Cleanup s)) = snapEnabled (svc s)
  /\ baseThresholdRatio (svc (Cleanup s)) = baseThresholdRatio (svc s)
  /\ minThreshold (svc (Cleanup s)) = minThreshold (svc s)
  /\ maxThreshold (svc (Cleanup s)) = maxThreshold (svc s)
  /\ lastMainWindowPos (svc (Cleanup s)) = lastMainWindowPos (svc s)
  /\ lastMainWindowSize (svc (Cleanup s)) = lastMainWindowSize (svc s)
  /\ managedWindows (svc (Cleanup s)) = ∅
  /\ windowRefs (svc (Cleanup s)) = ∅
  /\ windowSizeCache (svc (Cleanup s)) = ∅
  /\ isUpdatingPosition (svc (Cleanup s)) = ∅
  /\ mainMoveUnhook (svc (Cleanup s)) = false
  /\ windowMoveUnhooks (svc (Cleanup s)) = ∅
  /\ desk (Cleanup s) = desk s.
Proof.
  unfold Cleanup, cleanupMainWindowEvents.
  destruct (mainMoveUnhook (svc s)) eqn:Hh; cbn; rewrite ?Hh; repeat split.
Qed.

Lemma registry_ok_cleanup s : registry_ok (Cleanup s).
Proof. apply registry_ok_empty; apply Cleanup_fields. Qed.

Lemma inv_cleanup s : inv s -> inv (Cleanup s).
Proof.
  intros ((Hr & Hmin & Hmax) & _).
  pose proof (Cleanup_fields s) as (Ee & E1 & E2 & E3 & _ & _ & Em & Er & _).
  unfold inv, configured. rewrite Em, Er, E1, E2, E3.
  split; [repeat split; assumption|].
  split; [intros id i; rewrite lookup_empty; discriminate|].
  split; [intros _ id i; rewrite lookup_empty; discriminate|].
  intros id. rewrite lookup_empty. split; [intros H; now apply elem_of_empty in H|].
  intros [? ?]; discriminate.
Qed.

(** Every run of the service keeps both invariants. *)
Lemma run_op_ok o s : inv s /\ registry_ok s -> inv (run_op o s) /\ registry_ok (run_op o s).
Proof.
  intros [Hi Hr]. destruct o; cbn [run_op].
  - split; [now apply inv_desktop|now apply registry_ok_desktop].
  - split; [now apply inv_register|now apply registry_ok_register].
  - split; [now apply inv_unregister|now apply registry_ok_unregister].
  - split; [now apply inv_enable|now apply registry_ok_enable].
  - unfold onWindowSnapConfigChange, OnWindowSnapConfigChanged.
    split; [now apply inv_enable|now apply registry_ok_enable].
  - split; [|now apply registry_ok_cache].
    unfold UpdateMainWindowCache. eapply inv_caches; eauto.
    apply updateMainWindowCacheLocked_caches.
  - split; [now apply inv_child_moved|now apply registry_ok_child_moved].
  - split; [now apply inv_main_moved|now apply registry_ok_main_moved].
  - split; [now apply inv_cleanup|apply registry_ok_cleanup].
Qed.

Lemma run_ok ops : forall s,
  inv s /\ registry_ok s -> inv (run ops s) /\ registry_ok (run ops s).
Proof.
  induction ops as [|o l IH]; intros s H; [exact H|].
  cbn [run fold_left]. apply IH, run_op_ok, H.
Qed.

Lemma boot_ok config d ops :
  inv (run ops (boot config d)) /\ registry_ok (run ops (boot config d)).
Proof. apply run_ok. split; [apply inv_new|apply registry_ok_new]. Qed.

Lemma run_app l1 l2 s : run (l1 ++ l2) s = run l2 (run l1 s).
Proof. unfold run. apply fold_left_app. Qed.

(** The states of [reachable] are ends of runs. *)
Lemma reachable_run s : reachable s -> exists config d ops, s = run ops (boot config d).
Proof.
  induction 1 as [config d|s d _ IH|s id now _ IH|s id _ IH|s b _ IH|s old new _ IH
                  |s _ IH|s n id p clk _ IH|s n p clk _ IH].
  - exists config, d, []. reflexivity.
  - destruct IH as (c & d0 & ops & ->). exists c, d0, (ops ++ [OpDesktop d]).
    now rewrite run_app.
  - destruct IH as (c & d0 & ops & ->). exists c, d0, (ops ++ [OpRegisterWindow id now]).
    now rewrite run_app.
  - destruct IH as (c & d0 & ops & ->). exists c, d0, (ops ++ [OpUnregisterWindow id]).
    now rewrite run_app.
  - destruct IH as (c & d0 & ops & ->). exists c, d0, (ops ++ [OpSetSnapEnabled b]).
    now rewrite run_app.
  - destruct IH as (c & d0 & ops & ->). exists c, d0, (ops ++ [OpConfigChange old new]).
    now rewrite run_app.
  - destruct IH as (c & d0 & ops & ->). exists c, d0, (ops ++ [OpUpdateMainWindowCache]).
    now rewrite run_app.
  - destruct IH as (c & d0 & ops & ->). exists c, d0, (ops ++ [OpChildMoved n id p clk]).
    now rewrite run_app.
  - destruct IH as (c & d0 & ops & ->). exists c, d0, (ops ++ [OpMainMoved n p clk]).
    now rewrite run_app.
Qed.


(** What [RegisterWindow] writes, field by field. *)
Lemma RegisterWindow_fields id now s :
  let s' := RegisterWindow id now s in
  snapEnabled (svc s') = snapEnabled (svc s)
  /\ baseThresholdRatio (svc s') = baseThresholdRatio (svc s)
  /\ minThreshold (svc s') = minThreshold (svc s)
  /\ maxThreshold (svc s') = maxThreshold (svc s)
  /\ lastMainWindowPos (svc s') = lastMainWindowPos (svc s)
  /\ lastMainWindowSize (svc s') = lastMainWindowSize (svc s)
  /\ managedWindows (svc s')
     = <[id := mkInfo id false (mkOff 0 0) SnapEdgeNone (window_Position (desk s) id) now]>
         (managedWindows (svc s))
  /\ windowRefs (svc s') = {[id]} ∪ windowRefs (svc s)
  /\ windowSizeCache (svc s') = <[id := window_Size (desk s) id]> (windowSizeCache (svc s))
  /\ isUpdatingPosition (svc s') = isUpdatingPosition (svc s)
  /\ mainMoveUnhook (svc s')
     = mainMoveUnhook (svc s)
       || (bool_decide (delete id (managedWindows (svc s)) = ∅)
           && bool_decide (is_Some (mainWindow (desk s))))
  /\ windowMoveUnhooks (svc s') = {[id]} ∪ windowMoveUnhooks (svc s)
  /\ desk s' = desk s.
Proof.
  cbv zeta. unfold RegisterWindow.
  set (i0 := mkInfo id false (mkOff 0 0) SnapEdgeNone (window_Position (desk s) id) now).
  set (s0 := updateWindowSizeCacheLocked id (on_svc _ s)).
  assert (Hsz : bool_decide (size (managedWindows (svc s0)) = 1%nat)
                = bool_decide (delete id (managedWindows (svc s)) = ∅)).
  { apply bool_decide_ext. unfold s0. cbn.
    rewrite <- (insert_delete_eq (managedWindows (svc s))).
    rewrite map_size_insert_None by apply lookup_delete_eq.
    rewrite <- map_size_empty_iff. lia. }
  rewrite Hsz. unfold setupWindowEvents, setupMainWindowEvents.
  destruct (bool_decide (delete id (managedWindows (svc s)) = ∅)).
  - change (mainMoveUnhook (svc s0)) with (mainMoveUnhook (svc s)).
    change (mainWindow (desk s0)) with (mainWindow (desk s)).
    destruct (mainMoveUnhook (svc s)) eqn:Hh.
    + cbn. rewrite Hh. repeat split.
    + destruct (mainWindow (desk s)) as [mw|] eqn:Hm; cbn; rewrite ?Hh; repeat split.
  - cbn. rewrite orb_false_r. repeat split.
Qed.

(** What [UnregisterWindow] writes, field by field. *)
Lemma UnregisterWindow_fields id s :
  let s' := UnregisterWindow id s in
  snapEnabled (svc s') = snapEnabled (svc s)
  /\ baseThresholdRatio (svc s') = baseThresholdRatio (svc s)
  /\ minThreshold (svc s') = minThreshold (svc s)
  /\ maxThreshold (svc s') = maxThreshold (svc s)
  /\ lastMainWindowPos (svc s') = lastMainWindowPos (svc s)
  /\ lastMainWindowSize (svc s') = lastMainWindowSize (svc s)
  /\ managedWindows (svc s') = delete id (managedWindows (svc s))
  /\ windowRefs (svc s') = windowRefs (svc s) ∖ {[id]}
  /\ windowSizeCache (svc s') = delete id (windowSizeCache (svc s))
  /\ isUpdatingPosition (svc s') = delete id (isUpdatingPosition (svc s))
  /\ mainMoveUnhook (svc s')
     = mainMoveUnhook (svc s)
       && negb (bool_decide (delete id (managedWindows (svc s)) = ∅))
  /\ windowMoveUnhooks (svc s') = windowMoveUnhooks (svc s) ∖ {[id]}
  /\ desk s' = desk s.
Proof.
  cbv zeta. unfold UnregisterWindow.
  set (s0 := on_svc _ (on_svc _ s)).
  assert (Hsz : bool_decide (size (managedWindows (svc s0)) = 0%nat)
                = bool_decide (delete id (managedWindows (svc s)) = ∅)).
  { apply bool_decide_ext. unfold s0. cbn. apply map_size_empty_iff. }
  rewrite Hsz. unfold cleanupMainWindowEvents.
  change (mainMoveUnhook (svc s0)) with (mainMoveUnhook (svc s)).
  destruct (bool_decide (delete id (managedWindows (svc s)) = ∅)).
  - destruct (mainMoveUnhook (svc s)) eqn:Hh; cbn; rewrite ?Hh; repeat split.
  - cbn. rewrite andb_true_r. repeat split.
Qed.



(** ** Properties of the registry *)


(** X2: after any run of the service, completed handlers leave no
    re-entrancy flag set: [isUpdatingPosition] reads false for every
    document. *)
Theorem X2_guards_clear (config : option bool) (d : Desktop) (ops : list Op) (id : Z) :
  updating (run ops (boot config d)) id = false.
Proof. destruct (boot_ok config d ops) as (_ & _ & _ & _ & _ & R5 & _). apply R5. Qed.

(** X3: the hook on the primary window is installed only while at least
    one window is registered. *)
Theorem X3_primary_hook_lazy (config : option bool) (d : Desktop) (ops : list Op) :
  mainMoveUnhook (svc (run ops (boot config d))) = true ->
  exists id i, managedWindows (svc (run ops (boot config d))) !! id = Some i.
Proof.
  destruct (boot_ok config d ops) as (_ & _ & _ & _ & _ & _ & R6 & _). intros H.
  specialize (R6 H). apply map_choose in R6. exact R6.
Qed.

Lemma X3_primary_hook_lazy_witness :
  mainMoveUnhook (svc (run ops_A (boot (Some true) desk_A))) = true
  /\ exists id i, managedWindows (svc (run ops_A (boot (Some true) desk_A))) !! id = Some i.
Proof.
  assert (H : mainMoveUnhook (svc (run ops_A (boot (Some true) desk_A))) = true)
    by (vm_compute; reflexivity).
  split; [exact H|]. exact (X3_primary_hook_lazy (Some true) desk_A ops_A H).
Defined.







Lemma run_op_cache_kept id o s :
  inv s -> registry_ok s ->
  is_Some (managedWindows (svc s) !! id) ->
  changes_registration id o = false ->
  windowSizeCache (svc (run_op o s)) !! id = windowSizeCache (svc s) !! id.
Proof.
  intros Hi Hr Hm Hc.
  destruct (proj2 (proj1 (proj2 (proj2 Hr)) id) Hm) as [sz Hsz].
  destruct o; cbn [run_op changes_registration] in *.
  - reflexivity.
  - apply bool_decide_eq_false_1 in Hc.
    pose proof (RegisterWindow_fields documentID now s) as (_ & _ & _ & _ & _ & _ & _ & _ & E & _).
    cbv zeta in E. rewrite E. now rewrite lookup_insert_ne by congruence.
  - apply bool_decide_eq_false_1 in Hc.
    pose proof (UnregisterWindow_fields documentID s) as (_ & _ & _ & _ & _ & _ & _ & _ & E & _).
    cbv zeta in E. rewrite E. now rewrite lookup_delete_ne by congruence.
  - unfold SetSnapEnabled. destruct (bool_decide _); [reflexivity|].
    destruct enabled; reflexivity.
  - unfold onWindowSnapConfigChange, OnWindowSnapConfigChanged, SetSnapEnabled.
    destruct (bool_decide _); [reflexivity|]. destruct (parse_enabled newValue); reflexivity.
  - unfold UpdateMainWindowCache, updateMainWindowCacheLocked.
    destruct (mainWindow (desk s)); reflexivity.
  - unfold child_moved. destruct (bool_decide _); [|reflexivity].
    rewrite onChildWindowMoved_echo by apply hook_respects_guard.
    set (s0 := on_desk (drag id0 p) s).
    change (windowSizeCache (svc s)) with (windowSizeCache (svc s0)) in *.
    destruct (child_handler_effect id0 clk s0) as [Hg|Hch]; cbv zeta in *.
    { now rewrite (ignored_move _ _ _ _ Hg). }
    destruct Hch as (_ & _ & _ & _ & _ & Hc1 & Hc2 & _).
    destruct (decide (id = id0)) as [->|Hne].
    + rewrite Hsz. now apply Hc2.
    + now apply Hc1.
  - unfold main_moved. destruct (mainMoveUnhook _); [|reflexivity].
    rewrite onMainWindowMoved_echo by apply hook_respects_guard.
    unfold onMainWindowMoved. destruct (negb _); [reflexivity|].
    destruct (mainWindow _) as [mw|]; [|reflexivity].
    match goal with |- context [update_snapped no_echo ?l ?s0] =>
      pose proof (update_snapped_effect l s0 (NoDup_fst_map_to_list _)) as (Hfr & _) end.
    cbv zeta in Hfr. destruct Hfr as (_ & _ & _ & _ & _ & _ & Ec & _).
    rewrite Ec. reflexivity.
  - discriminate.
Qed.

(** X9: the size of a registered window is read from the window once, at
    registration: afterwards [getWindowSizeCached] returns the cached
    size without consulting the window, and no operation other than
    registering or unregistering that document, or [Cleanup], changes the
    cached size, whatever happens to the window on the desktop. *)
Theorem X9_cached_size_frozen (config : option bool) (d d' : Desktop) (ops : list Op)
    (id : Z) (o : Op) :
  let s := run ops (boot config d) in
  is_Some (managedWindows (svc s) !! id) ->
  exists size,
    windowSizeCache (svc s) !! id = Some size
    /\ getWindowSizeCached id (mkSystem (svc s) d') = (size, mkSystem (svc s) d')
    /\ (changes_registration id o = false ->
        windowSizeCache (svc (run_op o s)) !! id = Some size).
Proof.
  cbv zeta. intros Hm. destruct (boot_ok config d ops) as (Hi & Hr).
  destruct (proj2 (proj1 (proj2 (proj2 Hr)) id) Hm) as [sz Hsz].
  exists sz. split; [exact Hsz|]. split.
  - now apply getWindowSizeCached_hit.
  - intros Hc. rewrite <- Hsz. now apply run_op_cache_kept.
Qed.

Lemma X9_cached_size_frozen_witness :
  is_Some (managedWindows (svc (run ops_A (boot (Some true) desk_A))) !! 1)
  /\ exists size,
       windowSizeCache (svc (run ops_A (boot (Some true) desk_A))) !! 1 = Some size
       /\ getWindowSizeCached 1
            (mkSystem (svc (run ops_A (boot (Some true) desk_A)))
               (mkDesktop (Some primary_A) {[ 1 := mkWindow (mkPos 1500 300) (900, 900) ]} []))
          = (size,
             mkSystem (svc (run ops_A (boot (Some true) desk_A)))
               (mkDesktop (Some primary_A) {[ 1 := mkWindow (mkPos 1500 300) (900, 900) ]} []))
       /\ (changes_registration 1
             (OpDesktop (mkDesktop (Some primary_A)
                           {[ 1 := mkWindow (mkPos 1500 300) (900, 900) ]} [])) = false ->
           windowSizeCache
             (svc (run_op
                     (OpDesktop (mkDesktop (Some primary_A)
                                   {[ 1 := mkWindow (mkPos 1500 300) (900, 900) ]} []))
                     (run ops_A (boot (Some true) desk_A)))) !! 1 = Some size).
Proof.
  assert (H : is_Some (managedWindows (svc (run ops_A (boot (Some true) desk_A))) !! 1))
    by (vm_compute; eauto).
  split; [exact H|].
  exact (X9_cached_size_frozen (Some true) desk_A
           (mkDesktop (Some primary_A) {[ 1 := mkWindow (mkPos 1500 300) (900, 900) ]} [])
           ops_A 1 _ H).
Defined.

(** ** Properties of the move handlers *)

(** A move event of a free window inside the debounce interval. *)
Lemma child_moved_debounced n id p clk s i :
  snapEnabled (svc s) = true ->
  id ∈ windowMoveUnhooks (svc s) ->
  managedWindows (svc s) !! id = Some i ->
  IsSnapped i = false ->
  updating s id = false ->
  p <> LastPos i ->
  t_since clk - MoveTime i < debounceThreshold ->
  child_moved n id p clk s
  = on_info id (set_LastPos p)
      (on_info id (set_MoveTime (t_now clk)) (on_desk (drag id p) s)).
Proof.
  intros He Hh Hi Hs Hu Hp Ht. unfold child_moved.
  set (s0 := on_desk (drag id p) s).
  change (windowMoveUnhooks (svc s0)) with (windowMoveUnhooks (svc s)).
  rewrite bool_decide_eq_true_2 by exact Hh.
  rewrite onChildWindowMoved_echo by apply hook_respects_guard.
  assert (HP : window_Position (desk s0) id = p).
  { unfold s0, window_Position, drag. cbn. now rewrite lookup_insert_eq. }
  unfold onChildWindowMoved.
  change (snapEnabled (svc s0)) with (snapEnabled (svc s)).
  change (managedWindows (svc s0)) with (managedWindows (svc s)).
  change (updating s0 id) with (updating s id).
  rewrite He, Hi, Hu, HP. cbn [negb].
  rewrite (pos_eqb_false _ _ Hp), Hs.
  unfold handleUnsnappedWindow. rewrite shouldSnapToMainWindow_on_info.
  pose proof (shouldSnapToMainWindow_spec id p (MoveTime i) (t_since clk) s0) as (_ & Hdeb & _).
  cbv zeta in Hdeb. rewrite (Hdeb Ht). reflexivity.
Qed.


Lemma on_info_twice id f g s :
  on_info id f (on_info id g s)
  = on_svc (set_managedWindows (alter (f ∘ g) id (managedWindows (svc s)))) s.
Proof.
  unfold on_info, on_svc, set_managedWindows. cbn. now rewrite alter_alter_eq.
Qed.


(** A move event that the handler of the window ignores. *)
Lemma child_moved_ignored n id p clk s :
  ignores id (on_desk (drag id p) s) ->
  child_moved n id p clk s = on_desk (drag id p) s.
Proof.
  intros H. unfold child_moved. destruct (bool_decide _); [|reflexivity].
  now apply ignored_move.
Qed.

(** X10: a move event of a free window that arrives less than 30 ms after
    its recorded move time is not evaluated for snapping, however close
    the window is to the primary window: the window stays where it was
    put, its record takes the new position and time and stays free, and
    nothing else changes, the caches included. *)
Theorem X10_debounce (n : nat) (id : Z) (p : WindowPosition) (clk : Clock)
    (s : System) (i : WindowInfo) :
  snapEnabled (svc s) = true ->
  id ∈ windowMoveUnhooks (svc s) ->
  managedWindows (svc s) !! id = Some i ->
  IsSnapped i = false ->
  updating s id = false ->
  p <> LastPos i ->
  t_since clk - MoveTime i < debounceThreshold ->
  child_moved n id p clk s
  = on_info id (set_LastPos p)
      (on_info id (set_MoveTime (t_now clk)) (on_desk (drag id p) s)).
Proof. apply child_moved_debounced. Qed.

Lemma X10_debounce_witness :
  child_moved 1 1 (mkPos 805 250) (mkClock (ms 10) (ms 10)) sys_A
  = on_info 1 (set_LastPos (mkPos 805 250))
      (on_info 1 (set_MoveTime (ms 10)) (on_desk (drag 1 (mkPos 805 250)) sys_A)).
Proof.
  apply (X10_debounce 1 1 (mkPos 805 250) (mkClock (ms 10) (ms 10)) sys_A info_A).
  - vm_compute; reflexivity.
  - vm_compute; reflexivity.
  - vm_compute; reflexivity.
  - reflexivity.
  - vm_compute; reflexivity.
  - discriminate.
  - vm_compute; reflexivity.
Defined.

Lemma drag_same id d :
  is_Some (windows d !! id) -> drag id (window_Position d id) d = d.
Proof.
  intros [w Hw]. unfold drag, window_Position, window_Size. rewrite Hw.
  rewrite insert_id by (rewrite Hw; now destruct w). now destruct d.
Qed.

(** X11: a move event that finds the window where the previous event of
    that window left it changes nothing. This covers the event the
    windowing layer delivers after the service itself has written the
    window to a snap position. *)
Theorem X11_unmoved_event_ignored (n n' : nat) (id : Z) (p : WindowPosition)
    (clk clk' : Clock) (s : System) :
  let s' := child_moved n id p clk s in
  child_moved n' id (window_Position (desk s') id) clk' s' = s'.
Proof.
  cbv zeta. unfold child_moved at 2 3 4.
  set (s1 := on_desk (drag id p) s).
  assert (H1 : is_Some (windows (desk s1) !! id)).
  { unfold s1, drag. cbn. rewrite lookup_insert_eq. eauto. }
  destruct (bool_decide (id ∈ windowMoveUnhooks (svc s1))) eqn:Hh.
  - rewrite (onChildWindowMoved_echo (hook n clk)) by apply hook_respects_guard.
    destruct (child_handler_effect id clk s1) as [Hg|Hc]; cbv zeta in *.
    + rewrite (ignored_move _ _ _ _ Hg). unfold child_moved, on_desk.
      rewrite (drag_same _ _ H1). destruct s1 as [w d]. cbn [svc desk] in *.
      rewrite Hh. now apply ignored_move.
    + set (s' := onChildWindowMoved no_echo id clk s1) in *.
      destruct Hc as ((i & i' & Hi & Hi' & _ & _ & Hl) & He & _ & Hfr & _ & _ & _ & _ & Hd).
      destruct Hfr as (Ee & _ & _ & _ & _ & _ & Eh & Hu).
      assert (H2 : is_Some (windows (desk s') !! id)).
      { destruct Hd as [->|(t & ->)]; [exact H1|]. unfold place. cbn.
        rewrite lookup_insert_eq. eauto. }
      unfold child_moved, on_desk. rewrite (drag_same _ _ H2).
      assert (E : mkSystem (svc s') (desk s') = s') by now destruct s'.
      rewrite E, Eh, Hh. apply ignored_move.
      right. right. right. exists i'. split; [exact Hi'|]. now symmetry.
  - unfold child_moved, on_desk. rewrite (drag_same _ _ H1).
    destruct s1 as [w d]. cbn [svc desk] in *. now rewrite Hh.
Qed.



(** X13: in every state a run of the service reaches with snapping
    switched off, no registered window is attached and none has an edge. *)
Theorem X13_disabled_none_attached (config : option bool) (d : Desktop) (ops : list Op)
    (id : Z) (i : WindowInfo) :
  let s := run ops (boot config d) in
  snapEnabled (svc s) = false ->
  managedWindows (svc s) !! id = Some i ->
  IsSnapped i = false /\ Edge i = SnapEdgeNone.
Proof.
  cbv zeta. intros He Hi. destruct (boot_ok config d ops) as ((_ & Hok & Hoff & _) & _).
  pose proof (Hoff He id i Hi) as Hs. split; [exact Hs|].
  apply info_ok_unsnapped; [now apply (Hok id)|exact Hs].
Qed.

Lemma X13_disabled_none_attached_witness :
  snapEnabled
    (svc (run [OpRegisterWindow 1 0; OpSetSnapEnabled false] (boot (Some true) desk_A)))
  = false
  /\ managedWindows
       (svc (run [OpRegisterWindow 1 0; OpSetSnapEnabled false] (boot (Some true) desk_A))) !! 1
     = Some info_A
  /\ IsSnapped info_A = false /\ Edge info_A = SnapEdgeNone.
Proof.
  assert (H1 : snapEnabled
                 (svc (run [OpRegisterWindow 1 0; OpSetSnapEnabled false]
                         (boot (Some true) desk_A))) = false) by (vm_compute; reflexivity).
  assert (H2 : managedWindows
                 (svc (run [OpRegisterWindow 1 0; OpSetSnapEnabled false]
                         (boot (Some true) desk_A))) !! 1 = Some info_A)
    by (vm_compute; reflexivity).
  split; [exact H1|]. split; [exact H2|].
  exact (X13_disabled_none_attached (Some true) desk_A _ 1 info_A H1 H2).
Defined.

(** ** The snap position *)

Lemma sub_diag a : Int.sub a a = 0.
Proof. unfold Int.sub. now rewrite Z.sub_diag. Qed.

Lemma sub_sub_add a b : Int.sub a (Int.add (Int.sub a b) b) = 0.
Proof.
  unfold Int.sub, Int.add.
  destruct (wrap_repr (a - b)) as [k1 ->].
  destruct (wrap_repr (a - b + k1 * 2 ^ 64 + b)) as [k2 ->].
  replace (a - (a - b + k1 * 2 ^ 64 + b + k2 * 2 ^ 64)) with (0 + (- k1 - k2) * 2 ^ 64) by lia.
  now rewrite wrap_congr.
Qed.

Lemma add_sub_cancel m t : Int.in_range t -> Int.add m (Int.sub t m) = t.
Proof.
  intros Ht. unfold Int.add, Int.sub.
  destruct (wrap_repr (t - m)) as [k ->].
  replace (m + (t - m + k * 2 ^ 64)) with (t + k * 2 ^ 64) by lia.
  rewrite wrap_congr. now apply wrap_small.
Qed.

(** X14: at the position [calculateSnapPosition] returns for an edge, the
    gaps that [shouldSnapToMainWindow] measures for that edge are zero: the
    one gap of a side edge, both gaps of a corner; a side edge keeps the
    coordinate along the edge. The offset [handleUnsnappedWindow] stores
    for that position, added back to the cached position of the primary
    window as [updateSnappedWindowPosition] does, gives the snap position
    again. *)
Theorem X14_snap_position_exact (e : SnapEdge) (P mainPos : WindowPosition)
    (mainWidth mainHeight windowWidth windowHeight : Z) :
  Int.in_range (X P) -> Int.in_range (Y P) ->
  let target :=
    snap_position e P mainPos mainWidth mainHeight windowWidth windowHeight in
  let mainRight := Int.add (X mainPos) mainWidth in
  let mainBottom := Int.add (Y mainPos) mainHeight in
  let windowRight := Int.add (X target) windowWidth in
  let windowBottom := Int.add (Y target) windowHeight in
  (forall dx dy,
     In (e, dx, dy)
        (cornerChecks (X mainPos) (Y mainPos) mainRight mainBottom
           (X target) (Y target) windowRight windowBottom) ->
     dx = 0 /\ dy = 0)
  /\ (forall dist,
        In (e, dist)
           (edgeChecks (X mainPos) (Y mainPos) mainRight mainBottom
              (X target) (Y target) windowRight windowBottom) ->
        dist = S754_zero false)
  /\ (e = SnapEdgeLeft \/ e = SnapEdgeRight -> Y target = Y P)
  /\ (e = SnapEdgeTop \/ e = SnapEdgeBottom -> X target = X P)
  /\ Int.add (X mainPos) (Int.sub (X target) (X mainPos)) = X target
  /\ Int.add (Y mainPos) (Int.sub (Y target) (Y mainPos)) = Y target.
Proof.
  intros HX HY. cbv zeta.
  split; [|split; [|split; [|split; [|split]]]].
  - intros dx dy Hin. unfold cornerChecks in Hin. cbn [In] in Hin.
    destruct e; destruct Hin as [H|[H|[H|[H|[]]]]]; try discriminate;
      injection H as <- <-; cbn [snap_position X Y];
      rewrite ?sub_diag, ?sub_sub_add; split; reflexivity.
  - intros dist Hin. unfold edgeChecks in Hin. cbn [In] in Hin.
    destruct e; destruct Hin as [H|[H|[H|[H|[]]]]]; try discriminate;
      injection H as <-; cbn [snap_position X Y];
      rewrite ?sub_diag, ?sub_sub_add; reflexivity.
  - intros [->| ->]; reflexivity.
  - intros [->| ->]; reflexivity.
  - apply add_sub_cancel. destruct e; cbn [snap_position X]; try exact HX; apply wrap_in_range.
  - apply add_sub_cancel. destruct e; cbn [snap_position Y]; try exact HY; apply wrap_in_range.
Qed.

Lemma X14_snap_position_exact_witness :
  In (SnapEdgeRight, S754_zero false)
     (edgeChecks 100 100 (Int.add 100 700) (Int.add 100 800)
        (X (snap_position SnapEdgeRight (mkPos 805 250) (mkPos 100 100) 700 800 400 300))
        (Y (snap_position SnapEdgeRight (mkPos 805 250) (mkPos 100 100) 700 800 400 300))
        (Int.add (X (snap_position SnapEdgeRight (mkPos 805 250) (mkPos 100 100) 700 800 400 300))
           400)
        (Int.add (Y (snap_position SnapEdgeRight (mkPos 805 250) (mkPos 100 100) 700 800 400 300))
           300))
  /\ Y (snap_position SnapEdgeRight (mkPos 805 250) (mkPos 100 100) 700 800 400 300) = 250.
Proof.
  destruct (X14_snap_position_exact SnapEdgeRight (mkPos 805 250) (mkPos 100 100)
              700 800 400 300) as (_ & _ & H & _).
  - vm_compute. split; discriminate.
  - vm_compute. split; discriminate.
  - split; [left; vm_compute; reflexivity|]. apply H. now right.
Defined.

(** ** A move of an attached window, in general *)

(** X15: a move event of an attached window, flag clear and position
    changed, compares the Chebyshev distance of the window from the cached
    position of the primary window plus the stored offset with the
    adaptive threshold. The window is detached exactly when that distance
    exceeds the threshold and the two readings of the clock the handler
    itself takes are less than 40 ms apart; the time of the previous move
    plays no part. In either case the offset is kept, the new position and
    time are recorded, the window stays where it was put, and the caches
    stay. *)
Theorem X15_attached_move (n : nat) (id : Z) (p : WindowPosition) (clk : Clock)
    (s : System) (i : WindowInfo) :
  configured (svc s) ->
  snapEnabled (svc s) = true ->
  id ∈ windowMoveUnhooks (svc s) ->
  managedWindows (svc s) !! id = Some i ->
  IsSnapped i = true ->
  updating s id = false ->
  p <> LastPos i ->
  let expected := resync_target (lastMainWindowPos (svc s)) i in
  let dist := Z.max (Z.abs (Int.sub (X p) (X expected)))
                    (Z.abs (Int.sub (Y p) (Y expected))) in
  let detach := (calculateAdaptiveThreshold (svc s) <? dist)
                && (t_since clk - t_now clk <? dragDetectionThreshold) in
  let s' := child_moved n id p clk s in
  managedWindows (svc s') !! id
  = Some (mkInfo (DocumentID i) (negb detach) (SnapOffset i)
            (if detach then SnapEdgeNone else Edge i) p (t_now clk))
  /\ desk s' = drag id p (desk s)
  /\ lastMainWindowPos (svc s') = lastMainWindowPos (svc s)
  /\ lastMainWindowSize (svc s') = lastMainWindowSize (svc s)
  /\ windowSizeCache (svc s') = windowSizeCache (svc s).
Proof.
  intros Hc He Hh Hi Hs Hu Hp. cbv zeta. unfold child_moved.
  set (s0 := on_desk (drag id p) s).
  change (windowMoveUnhooks (svc s0)) with (windowMoveUnhooks (svc s)).
  rewrite bool_decide_eq_true_2 by exact Hh.
  assert (HP : window_Position (desk s0) id = p).
  { unfold s0, window_Position, drag. cbn. now rewrite lookup_insert_eq. }
  assert (Hp0 : window_Position (desk s0) id <> LastPos i) by now rewrite HP.
  pose proof (snapped_move_effect (hook n clk) id clk s0 i Hc He Hi Hs Hu Hp0)
    as (H1 & H2 & _ & _ & H3 & H4 & H5).
  cbv zeta in *. rewrite HP in H1. unfold resync_target. cbn [X Y].
  split; [exact H1|]. split; [exact H2|]. split; [exact H3|]. split; [exact H4|exact H5].
Qed.

Lemma X15_attached_move_witness :
  managedWindows
    (svc (child_moved 1 1 (mkPos 850 250) (mkClock (ms 300) (ms 300)) sys_snapped)) !! 1
  = Some (mkInfo 1 false (mkOff 700 150) SnapEdgeNone (mkPos 850 250) (ms 300)).
Proof.
  destruct (X15_attached_move 1 1 (mkPos 850 250) (mkClock (ms 300) (ms 300)) sys_snapped
              (mkInfo 1 true (mkOff 700 150) SnapEdgeRight (mkPos 800 250) (ms 100)))
    as (H & _).
  - vm_compute. repeat split.
  - vm_compute; reflexivity.
  - vm_compute; reflexivity.
  - vm_compute; reflexivity.
  - reflexivity.
  - vm_compute; reflexivity.
  - discriminate.
  - rewrite H. vm_compute. reflexivity.
Defined.

(** ** Events after a move of the primary window *)

Lemma update_snapped_windows ids : forall s j,
  is_Some (windows (desk s) !! j) ->
  is_Some (windows (desk (update_snapped no_echo ids s)) !! j).
Proof.
  induction ids as [|a l IH]; intros s j Hj; [exact Hj|].
  cbn [update_snapped fold_left]. apply IH.
  destruct (managedWindows (svc s) !! a) as [i|] eqn:Ha; [|exact Hj].
  destruct (IsSnapped i); [|exact Hj].
  unfold updateSnappedWindowPosition. rewrite Ha.
  destruct (bool_decide _); [|exact Hj]. unfold SetPosition, no_echo, place. cbn.
  destruct (decide (j = a)) as [->|Hne].
  - rewrite lookup_insert_eq. eauto.
  - now rewrite lookup_insert_ne by congruence.
Qed.

(** X16: after the handler of the primary window has written an attached
    window to its new position, the move event of that window, delivered
    with the window where the handler put it, changes nothing. *)
Theorem X16_resync_event_ignored (n n' : nat) (p : WindowPosition) (clk clk' : Clock)
    (s : System) (id : Z) (i : WindowInfo) :
  snapEnabled (svc s) = true ->
  mainMoveUnhook (svc s) = true ->
  managedWindows (svc s) !! id = Some i ->
  IsSnapped i = true ->
  id ∈ windowRefs (svc s) ->
  is_Some (windows (desk s) !! id) ->
  let s' := main_moved n p clk s in
  window_Position (desk s') id
  = resync_target p i
  /\ child_moved n' id (window_Position (desk s') id) clk' s' = s'.
Proof.
  intros He Hh Hi Hs Hr Hw. cbv zeta. unfold main_moved.
  set (s1 := on_desk (drag_main p) s).
  change (mainMoveUnhook (svc s1)) with (mainMoveUnhook (svc s)). rewrite Hh.
  rewrite onMainWindowMoved_echo by apply hook_respects_guard.
  unfold onMainWindowMoved.
  change (snapEnabled (svc s1)) with (snapEnabled (svc s)). rewrite He. cbn [negb].
  set (mw := mkWindow p (match mainWindow (desk s) with
                         | Some w => winSize w
                         | None => (0, 0)
                         end)).
  assert (Hmw : mainWindow (desk s1) = Some mw) by reflexivity.
  rewrite Hmw.
  set (s0 := on_svc (set_mainCache (winPos mw) (winSize mw)) s1).
  pose proof (update_snapped_effect (map_to_list (managedWindows (svc s0))).*1 s0
                (NoDup_fst_map_to_list _)) as (Hfr & Hm & Hpos & _).
  pose proof (update_snapped_windows (map_to_list (managedWindows (svc s0))).*1 s0 id Hw) as Hw'.
  cbv zeta in Hfr, Hm, Hpos.
  set (s' := update_snapped no_echo _ s0) in *.
  specialize (Hm id). specialize (Hpos id).
  change (managedWindows (svc s0)) with (managedWindows (svc s)) in Hm, Hpos.
  rewrite Hi in Hm, Hpos.
  assert (Hres : resynced s0 (map_to_list (managedWindows (svc s))).*1 id i = true).
  { unfold resynced. rewrite Hs. cbn [andb].
    rewrite !bool_decide_eq_true_2; [reflexivity|exact Hr|].
    apply elem_of_map_keys. eauto. }
  change (managedWindows (svc s0)) with (managedWindows (svc s)) in Hres |- *.
  rewrite Hres in Hm, Hpos.
  change (lastMainWindowPos (svc s0)) with p in Hm, Hpos.
  split; [exact Hpos|].
  unfold child_moved, on_desk. rewrite (drag_same _ _ Hw').
  assert (E : mkSystem (svc s') (desk s') = s') by now destruct s'.
  rewrite E. destruct (bool_decide _); [|reflexivity].
  apply ignored_move. right. right. right.
  eexists. split; [exact Hm|]. rewrite Hpos. reflexivity.
Qed.

Lemma X16_resync_event_ignored_witness :
  window_Position (desk (main_moved 1 (mkPos 130 115) clk_100 sys_snapped)) 1
  = mkPos 830 265
  /\ child_moved 1 1
       (window_Position (desk (main_moved 1 (mkPos 130 115) clk_100 sys_snapped)) 1)
       (mkClock (ms 400) (ms 400)) (main_moved 1 (mkPos 130 115) clk_100 sys_snapped)
     = main_moved 1 (mkPos 130 115) clk_100 sys_snapped.
Proof.
  apply (X16_resync_event_ignored 1 1 (mkPos 130 115) clk_100 (mkClock (ms 400) (ms 400))
           sys_snapped 1
           (mkInfo 1 true (mkOff 700 150) SnapEdgeRight (mkPos 800 250) (ms 100))).
  - vm_compute; reflexivity.
  - vm_compute; reflexivity.
  - vm_compute; reflexivity.
  - reflexivity.
  - vm_compute; reflexivity.
  - vm_compute; eauto.
Defined.

(** ** A rapid drag *)

(** X25: while the events of a drag of a free window follow one another
    by less than 30 ms, each at a new position, the window is never
    attached and the service never writes its position, however close to
    the primary window it passes: after the drag the record is free, with
    its edge and offset as before and the last position and time of the
    drag, the window is where the drag left it, the cached geometry of
    the primary window is as before and the other records stay. *)
Theorem X25_rapid_drag_never_snaps (n : nat) (id : Z)
    (events : list (WindowPosition * Clock)) : forall (s : System) (i : WindowInfo),
  snapEnabled (svc s) = true ->
  id ∈ windowMoveUnhooks (svc s) ->
  managedWindows (svc s) !! id = Some i ->
  IsSnapped i = false ->
  updating s id = false ->
  rapid (LastPos i) (MoveTime i) events ->
  let s' := drag_events n id events s in
  managedWindows (svc s') !! id
  = Some (mkInfo (DocumentID i) false (SnapOffset i) (Edge i)
            (List.last (map fst events) (LastPos i))
            (List.last (map (fun event => t_now (snd event)) events) (MoveTime i)))
  /\ window_Position (desk s') id
     = List.last (map fst events) (window_Position (desk s) id)
  /\ moves (desk s') = moves (desk s)
  /\ lastMainWindowPos (svc s') = lastMainWindowPos (svc s)
  /\ lastMainWindowSize (svc s') = lastMainWindowSize (svc s)
  /\ (forall j, j <> id -> managedWindows (svc s') !! j = managedWindows (svc s) !! j).
Proof.
  induction events as [|[p clk] events IH]; intros s i He Hh Hi Hs Hu Hr; cbv zeta.
  - cbn. split; [|repeat split]. rewrite Hi. f_equal. clear - Hs.
    destruct i as [a b c d l t]. cbn in Hs. now subst b.
  - destruct Hr as (Hp & Ht & Hr). cbn [drag_events fold_left fst snd].
    rewrite (child_moved_debounced n id p clk s i He Hh Hi Hs Hu Hp Ht).
    set (s1 := on_info id (set_LastPos p)
                 (on_info id (set_MoveTime (t_now clk)) (on_desk (drag id p) s))).
    assert (Hi1 : managedWindows (svc s1) !! id
                  = Some (set_LastPos p (set_MoveTime (t_now clk) i))).
    { unfold s1. cbn. now rewrite !lookup_alter_eq, Hi. }
    specialize (IH s1 _ He Hh Hi1 Hs Hu Hr). cbv zeta in IH.
    fold (drag_events n id events s1).
    destruct IH as (I1 & I2 & I3 & I4 & I5 & I6).
    assert (Hl : forall (A : Type) (x a : A) (l : list A),
              List.last (x :: l) a = List.last l x).
    { intros A x a l. revert x a. induction l as [|y l IHl]; intros x a; [reflexivity|].
      change (List.last (x :: y :: l) a) with (List.last (y :: l) a).
      rewrite (IHl y a), (IHl y x). reflexivity. }
    cbn [map fst snd]. rewrite !Hl.
    split; [exact I1|].
    split.
    { rewrite I2. f_equal. unfold s1, window_Position, drag. cbn.
      now rewrite lookup_insert_eq. }
    split; [exact I3|]. split; [exact I4|]. split; [exact I5|].
    intros j Hj. rewrite (I6 j Hj). unfold s1. cbn.
    now rewrite !lookup_alter_ne by congruence.
Qed.

Lemma X25_rapid_drag_never_snaps_witness :
  managedWindows
    (svc (drag_events 1 1
            [(mkPos 1000 260, mkClock (ms 10) (ms 10));
             (mkPos 805 250, mkClock (ms 30) (ms 30));
             (mkPos 802 250, mkClock (ms 55) (ms 55))] sys_A)) !! 1
  = Some (mkInfo 1 false (mkOff 0 0) SnapEdgeNone (mkPos 802 250) (ms 55)).
Proof.
  destruct (X25_rapid_drag_never_snaps 1 1
              [(mkPos 1000 260, mkClock (ms 10) (ms 10));
               (mkPos 805 250, mkClock (ms 30) (ms 30));
               (mkPos 802 250, mkClock (ms 55) (ms 55))] sys_A info_A) as (H & _).
  - vm_compute; reflexivity.
  - vm_compute; reflexivity.
  - vm_compute; reflexivity.
  - reflexivity.
  - vm_compute; reflexivity.
  - cbn. repeat split; try discriminate; vm_compute; reflexivity.
  - exact H.
Defined.

(** ** The positions the service writes *)




(** ** The cached geometry of the primary window *)

Lemma updateMainWindowCacheLocked_idem s :
  updateMainWindowCacheLocked (updateMainWindowCacheLocked s) = updateMainWindowCacheLocked s.
Proof.
  unfold updateMainWindowCacheLocked.
  destruct (mainWindow (desk s)) as [mw|] eqn:Hm; [|now rewrite Hm].
  cbn. rewrite Hm. reflexivity.
Qed.

(** X23: after any run of the service the threshold is between 8 and 40
    pixels. A service just constructed has the threshold 8 whatever the
    width of the primary window, since its cache holds the width 0; after
    [UpdateMainWindowCache] the threshold is the fortieth part of the
    present width of the primary window clamped to [8, 40].
    [UpdateMainWindowCache] changes nothing when there is no primary
    window, and a second call changes nothing. *)
Theorem X23_threshold_follows_cache (config : option bool) (d : Desktop) (ops : list Op) :
  let s := run ops (boot config d) in
  8 <= fst (GetCurrentThreshold s) <= 40
  /\ fst (GetCurrentThreshold (boot config d)) = 8
  /\ (forall mw, mainWindow (desk s) = Some mw ->
        Int.in_range (fst (winSize mw)) ->
        fst (GetCurrentThreshold (UpdateMainWindowCache s))
        = clamp (fst (winSize mw) ÷ 40) 8 40
        /\ lastMainWindowPos (svc (UpdateMainWindowCache s)) = winPos mw
        /\ lastMainWindowSize (svc (UpdateMainWindowCache s)) = winSize mw)
  /\ (mainWindow (desk s) = None -> UpdateMainWindowCache s = s)
  /\ UpdateMainWindowCache (UpdateMainWindowCache s) = UpdateMainWindowCache s.
Proof.
  cbv zeta. destruct (boot_ok config d ops) as ((Hc & _) & _).
  set (s := run ops (boot config d)) in *.
  split; [apply threshold_range, Hc|].
  split; [reflexivity|].
  split.
  { intros mw Hm Hr. unfold UpdateMainWindowCache, updateMainWindowCacheLocked. rewrite Hm.
    cbn [GetCurrentThreshold fst]. split; [|split; reflexivity].
    rewrite configured_threshold by exact Hc. cbn. now apply adaptive_clamp. }
  split.
  { intros Hm. unfold UpdateMainWindowCache, updateMainWindowCacheLocked. now rewrite Hm. }
  apply updateMainWindowCacheLocked_idem.
Qed.

(** X24: the snap decision reads the geometry of the primary window and
    the size of the moved window from the caches. When the cached size of
    the primary window has a zero dimension, a decision that is not
    debounced first refreshes the cache, as [UpdateMainWindowCache] does;
    when it has none and the size of the window is cached, the decision
    does not depend on the desktop and leaves the service unchanged. *)
Theorem X24_decision_reads_caches (id : Z) (P : WindowPosition) (t0 t1 : Z) (s : System)
    (d' : Desktop) :
  debounceThreshold <= t1 - t0 ->
  ((fst (lastMainWindowSize (svc s)) = 0 \/ snd (lastMainWindowSize (svc s)) = 0) ->
   shouldSnapToMainWindow id P t0 t1 s
   = shouldSnapToMainWindow id P t0 t1 (UpdateMainWindowCache s))
  /\ (fst (lastMainWindowSize (svc s)) <> 0 -> snd (lastMainWindowSize (svc s)) <> 0 ->
      is_Some (windowSizeCache (svc s) !! id) ->
      fst (shouldSnapToMainWindow id P t0 t1 (mkSystem (svc s) d'))
      = fst (shouldSnapToMainWindow id P t0 t1 s)
      /\ snd (shouldSnapToMainWindow id P t0 t1 s) = s).
Proof.
  intros Ht. assert (Hd : (t1 - t0 <? debounceThreshold) = false) by now apply Z.ltb_ge.
  split.
  - intros Hz. unfold shouldSnapToMainWindow. rewrite Hd.
    assert (Hc : (fst (lastMainWindowSize (svc s)) =? 0)
                 || (snd (lastMainWindowSize (svc s)) =? 0) = true).
    { apply orb_true_iff. rewrite !Z.eqb_eq. exact Hz. }
    rewrite Hc. unfold UpdateMainWindowCache.
    set (s1 := updateMainWindowCacheLocked s).
    assert (E : (if (fst (lastMainWindowSize (svc s1)) =? 0)
                    || (snd (lastMainWindowSize (svc s1)) =? 0)
                 then updateMainWindowCacheLocked s1 else s1) = s1).
    { match goal with |- (if ?c then _ else _) = _ => destruct c end; [|reflexivity].
      apply updateMainWindowCacheLocked_idem. }
    rewrite E. reflexivity.
  - intros H1 H2 [sz Hsz]. unfold shouldSnapToMainWindow. rewrite Hd. cbn [svc].
    apply Z.eqb_neq in H1, H2. rewrite H1, H2. cbn [orb].
    rewrite !(getWindowSizeCached_hit id _ sz) by exact Hsz. cbn [svc].
    match goal with |- context [choose_snap ?a ?b ?c ?d ?e] =>
      destruct (choose_snap a b c d e) end; split; reflexivity.
Qed.

Lemma X24_decision_reads_caches_witness :
  shouldSnapToMainWindow 1 (mkPos 805 250) 0 (ms 100)
    (RegisterWindow 1 0 (boot (Some true) desk_A))
  = shouldSnapToMainWindow 1 (mkPos 805 250) 0 (ms 100)
      (UpdateMainWindowCache (RegisterWindow 1 0 (boot (Some true) desk_A))).
Proof.
  destruct (X24_decision_reads_caches 1 (mkPos 805 250) 0 (ms 100)
              (RegisterWindow 1 0 (boot (Some true) desk_A)) desk_A) as (H & _).
  - vm_compute. discriminate.
  - apply H. left. reflexivity.
Defined.

(** ** The window service *)

(** The state a freshly registered window is in after the move event of
    its centring, when the event falls inside the debounce interval. *)
Lemma centred_after_register n id now p0 pc clk s :
  window_Position (desk s) id = p0 ->
  updating s id = false ->
  t_since clk - now < debounceThreshold ->
  exists i,
    child_moved n id pc clk (RegisterWindow id now s)
    = on_svc (set_managedWindows
                (<[id := i]> (managedWindows (svc (RegisterWindow id now s)))))
        (on_desk (drag id pc) (RegisterWindow id now s))
    /\ DocumentID i = id /\ IsSnapped i = false /\ Edge i = SnapEdgeNone
    /\ LastPos i = (if snapEnabled (svc s) then pc else p0).
Proof.
  intros Hp0 Hu Ht.
  pose proof (RegisterWindow_fields id now s) as
    (F1 & _ & _ & _ & _ & _ & F7 & _ & _ & F10 & _ & F12 & _).
  cbv zeta in *. rewrite Hp0 in F7.
  set (s2 := RegisterWindow id now s) in *. clearbody s2.
  set (i0 := mkInfo id false (mkOff 0 0) SnapEdgeNone p0 now) in *.
  assert (Hi0 : managedWindows (svc s2) !! id = Some i0)
    by (rewrite F7; apply lookup_insert_eq).
  assert (Hh : id ∈ windowMoveUnhooks (svc s2)).
  { rewrite F12. apply elem_of_union. left. now apply elem_of_singleton. }
  assert (Hu2 : updating s2 id = false).
  { unfold updating. rewrite F10. exact Hu. }
  rewrite <- F1.
  destruct (snapEnabled (svc s2)) eqn:He.
  - destruct (decide (pc = p0)) as [->|Hne].
    + exists i0. split; [|repeat split].
      rewrite child_moved_ignored.
      * rewrite insert_id by exact Hi0. now destruct s2 as [[] ?].
      * right. right. right. exists i0. split; [exact Hi0|].
        unfold window_Position, drag. cbn. now rewrite lookup_insert_eq.
    + exists (set_LastPos pc (set_MoveTime (t_now clk) i0)). split; [|repeat split].
      rewrite (child_moved_debounced n id pc clk s2 i0 He Hh Hi0 eq_refl Hu2 Hne Ht).
      rewrite on_info_twice. unfold on_svc. cbn [svc desk on_desk]. f_equal. f_equal.
      apply map_eq. intros j.
      destruct (decide (j = id)) as [->|Hj].
      * now rewrite lookup_alter_eq, lookup_insert_eq, Hi0.
      * now rewrite lookup_alter_ne, lookup_insert_ne by congruence.
  - exists i0. split; [|repeat split].
    rewrite child_moved_ignored.
    + rewrite insert_id by exact Hi0. now destruct s2 as [[] ?].
    + left. exact He.
Qed.


(** X17: [OpenDocumentWindow] for a document that has no window, with a
    snap service and a document found, creates a window of 700 by 800
    pixels, registers it with that size cached and leaves it at the
    centre position. When the move event of the centring arrives less than
    30 ms after the registration the window is not attached, whatever the
    centre position, and no position is written; its record holds the
    centre position when snapping is enabled and the position of creation
    otherwise. The records of the other documents stay. A second
    [OpenDocumentWindow] for the document returns nil and changes
    nothing. *)
Theorem X17_open_document_window (documentID now : Z) (p0 pc : WindowPosition) (n : nat)
    (clk : Clock) (a : App) (w : WindowSnapService) :
  windowSnapService a = Some w ->
  windows (screen a) !! documentID = None ->
  updating (mkSystem w (screen a)) documentID = false ->
  t_since clk - now < debounceThreshold ->
  let r := OpenDocumentWindow documentID LookupFound p0 pc now n clk a in
  fst r = None
  /\ windows (screen (snd r)) !! documentID
     = Some (mkWindow pc (VOIDRAFT_WINDOW_WIDTH, VOIDRAFT_WINDOW_HEIGHT))
  /\ moves (screen (snd r)) = moves (screen a)
  /\ mainWindow (screen (snd r)) = mainWindow (screen a)
  /\ (exists w',
        windowSnapService (snd r) = Some w'
        /\ (exists i, managedWindows w' !! documentID = Some i
                      /\ DocumentID i = documentID
                      /\ IsSnapped i = false
                      /\ Edge i = SnapEdgeNone
                      /\ LastPos i = (if snapEnabled w then pc else p0))
        /\ windowSizeCache w' !! documentID
           = Some (VOIDRAFT_WINDOW_WIDTH, VOIDRAFT_WINDOW_HEIGHT)
        /\ documentID ∈ windowMoveUnhooks w'
        /\ (forall j, j <> documentID -> managedWindows w' !! j = managedWindows w !! j))
  /\ (forall doc p0' pc' now' n' clk',
        OpenDocumentWindow documentID doc p0' pc' now' n' clk' (snd r) = (None, snd r)).
Proof.
  intros Hw Hn Hu Ht. cbv zeta.
  destruct a as [ws d]. cbn [windowSnapService screen] in *. subst ws.
  set (d1 := mkDesktop (mainWindow d)
               (<[documentID := mkWindow p0 (VOIDRAFT_WINDOW_WIDTH, VOIDRAFT_WINDOW_HEIGHT)]>
                  (windows d)) (moves d)).
  set (s2 := RegisterWindow documentID now (mkSystem w d1)).
  assert (Hopen : OpenDocumentWindow documentID LookupFound p0 pc now n clk (mkApp (Some w) d)
                  = (None, mkApp (Some (svc (child_moved n documentID pc clk s2)))
                             (desk (child_moved n documentID pc clk s2)))).
  { unfold OpenDocumentWindow, IsDocumentWindowOpen. cbn [windowSnapService screen].
    rewrite bool_decide_eq_false_2 by (rewrite Hn; intros [? ?]; discriminate).
    unfold with_snap. cbn [windowSnapService screen]. fold d1. fold s2.
    now destruct s2. }
  rewrite Hopen. clear Hopen.
  assert (Hp0 : window_Position d1 documentID = p0).
  { unfold window_Position, d1. cbn. now rewrite lookup_insert_eq. }
  assert (Hsz : window_Size d1 documentID = (VOIDRAFT_WINDOW_WIDTH, VOIDRAFT_WINDOW_HEIGHT)).
  { unfold window_Size, d1. cbn. now rewrite lookup_insert_eq. }
  destruct (centred_after_register n documentID now p0 pc clk (mkSystem w d1) Hp0 Hu Ht)
    as (i & E & Hdoc & Hsn & Hed & Hlp).
  pose proof (RegisterWindow_fields documentID now (mkSystem w d1)) as
    (_ & _ & _ & _ & _ & _ & F7 & _ & F9 & _ & _ & F12 & F13).
  cbv zeta in F7, F9, F12, F13. fold s2 in E, F7, F9, F12, F13. cbn [svc desk] in *.
  rewrite Hsz in F9. clearbody s2. rewrite E.
  assert (Hd2 : drag documentID pc (desk s2)
                = mkDesktop (mainWindow d)
                    (<[documentID := mkWindow pc (VOIDRAFT_WINDOW_WIDTH, VOIDRAFT_WINDOW_HEIGHT)]>
                       (<[documentID := mkWindow p0 (VOIDRAFT_WINDOW_WIDTH,
                                                     VOIDRAFT_WINDOW_HEIGHT)]> (windows d)))
                    (moves d)).
  { rewrite F13. unfold drag. rewrite Hsz. reflexivity. }
  cbn [fst snd svc desk on_svc on_desk windowSnapService screen].
  rewrite Hd2. cbn [windows moves mainWindow].
  split; [reflexivity|]. split; [apply lookup_insert_eq|].
  split; [reflexivity|]. split; [reflexivity|].
  split.
  { eexists. split; [reflexivity|]. cbn.
    split; [exists i; rewrite lookup_insert_eq; auto|].
    split; [rewrite F9; apply lookup_insert_eq|].
    split; [rewrite F12; apply elem_of_union; left; now apply elem_of_singleton|].
    intros j Hj. rewrite lookup_insert_ne, F7, lookup_insert_ne by congruence. reflexivity. }
  intros doc p0' pc' now' n' clk'. unfold OpenDocumentWindow, IsDocumentWindowOpen.
  cbn [screen windows]. rewrite bool_decide_eq_true_2; [reflexivity|].
  rewrite lookup_insert_eq. eauto.
Qed.

Lemma X17_open_document_window_witness :
  fst (OpenDocumentWindow 1 LookupFound (mkPos 0 0) (mkPos 805 250) 0 1
         (mkClock (ms 5) (ms 5))
         (mkApp (Some (svc (UpdateMainWindowCache (boot (Some true) desk_A))))
            (mkDesktop (Some primary_A) ∅ [])))
  = None
  /\ windows
       (screen
          (snd (OpenDocumentWindow 1 LookupFound (mkPos 0 0) (mkPos 805 250) 0 1
                  (mkClock (ms 5) (ms 5))
                  (mkApp (Some (svc (UpdateMainWindowCache (boot (Some true) desk_A))))
                     (mkDesktop (Some primary_A) ∅ []))))) !! 1
     = Some (mkWindow (mkPos 805 250) (VOIDRAFT_WINDOW_WIDTH, VOIDRAFT_WINDOW_HEIGHT)).
Proof.
  destruct (X17_open_document_window 1 0 (mkPos 0 0) (mkPos 805 250) 1
              (mkClock (ms 5) (ms 5))
              (mkApp (Some (svc (UpdateMainWindowCache (boot (Some true) desk_A))))
                 (mkDesktop (Some primary_A) ∅ []))
              (svc (UpdateMainWindowCache (boot (Some true) desk_A))))
    as (H1 & H2 & _).
  - reflexivity.
  - reflexivity.
  - vm_compute; reflexivity.
  - vm_compute; reflexivity.
  - split; [exact H1|exact H2].
Defined.

Lemma elem_of_keys {A} (m : gmap Z A) j : j ∈ (map_to_list m).*1 <-> is_Some (m !! j).
Proof.
  rewrite list_elem_of_fmap. split.
  - intros ([k i] & -> & Hin). apply elem_of_map_to_list in Hin. cbn. eauto.
  - intros [i Hi]. exists (j, i). split; [reflexivity|]. now apply elem_of_map_to_list.
Qed.

Lemma GetOpenWindows_spec a id :
  DocumentName id ∈ GetOpenWindows a <-> is_Some (windows (screen a) !! id).
Proof.
  unfold GetOpenWindows. rewrite elem_of_app, <- elem_of_keys, list_elem_of_fmap. split.
  - intros [H|(j & [= ->] & Hj)]; [|exact Hj].
    destruct (mainWindow (screen a)); [|now apply elem_of_nil in H].
    apply list_elem_of_singleton in H. discriminate.
  - intros H. right. now exists id.
Qed.

Lemma document_names_dec (l : list WindowName) :
  (exists id, DocumentName id ∈ l) \/ ~ (exists id, DocumentName id ∈ l).
Proof.
  induction l as [|[|j] l IHl].
  - right. intros (id & H). now apply elem_of_nil in H.
  - destruct IHl as [(id & H)|N].
    + left. exists id. apply elem_of_cons. now right.
    + right. intros (id & H). apply elem_of_cons in H as [H|H]; [discriminate|].
      apply N. eauto.
  - left. exists j. apply elem_of_cons. now left.
Qed.

Lemma unregister_all_effect names : forall w d,
  exists w',
    unregister_all names (mkApp (Some w) d) = mkApp (Some w') d
    /\ snapEnabled w' = snapEnabled w
    /\ (forall id, managedWindows w' !! id
                   = if bool_decide (DocumentName id ∈ names) then None
                     else managedWindows w !! id)
    /\ (forall id, windowSizeCache w' !! id
                   = if bool_decide (DocumentName id ∈ names) then None
                     else windowSizeCache w !! id)
    /\ (forall id, id ∈ windowRefs w' <-> id ∈ windowRefs w /\ DocumentName id ∉ names)
    /\ (forall id, id ∈ windowMoveUnhooks w'
                   <-> id ∈ windowMoveUnhooks w /\ DocumentName id ∉ names)
    /\ (mainMoveUnhook w' = true ->
        mainMoveUnhook w = true
        /\ ((exists id, DocumentName id ∈ names) -> managedWindows w' <> ∅)).
Proof.
  induction names as [|x l IH]; intros w d.
  - exists w. split; [reflexivity|]. split; [reflexivity|].
    split; [intros id; rewrite bool_decide_eq_false_2 by apply not_elem_of_nil; reflexivity|].
    split; [intros id; rewrite bool_decide_eq_false_2 by apply not_elem_of_nil; reflexivity|].
    split; [intros id; split; [intros H; split; [exact H|apply not_elem_of_nil]|tauto]|].
    split; [intros id; split; [intros H; split; [exact H|apply not_elem_of_nil]|tauto]|].
    intros H. split; [exact H|]. intros (id & Hid). now apply elem_of_nil in Hid.
  - cbn [unregister_all fold_left]. destruct x as [|k]; cbn [ParseInt].
    + destruct (IH w d) as (w' & E & He & Hm & Hc & Hr & Hh & Hk).
      fold (unregister_all l (mkApp (Some w) d)). exists w'.
      assert (Hin : forall id, DocumentName id ∈ MainWindowName :: l <-> DocumentName id ∈ l).
      { intros id. rewrite elem_of_cons. split; [intros [?|?]; [discriminate|assumption]|auto]. }
      split; [exact E|]. split; [exact He|].
      split; [intros id; rewrite (bool_decide_ext _ _ (Hin id)); apply Hm|].
      split; [intros id; rewrite (bool_decide_ext _ _ (Hin id)); apply Hc|].
      split; [intros id; rewrite Hin; apply Hr|].
      split; [intros id; rewrite Hin; apply Hh|].
      intros H. destruct (Hk H) as [H1 H2]. split; [exact H1|].
      intros (id & Hid). apply H2. exists id. now apply Hin.
    + pose proof (UnregisterWindow_fields k (mkSystem w d)) as
        (E1 & _ & _ & _ & _ & _ & E7 & E8 & E9 & _ & E11 & E12 & E13).
      cbv zeta in E1, E7, E8, E9, E11, E12, E13. cbn [svc desk] in *.
      set (w1 := svc (UnregisterWindow k (mkSystem w d))) in *.
      assert (Ew : with_snap (UnregisterWindow k) (mkApp (Some w) d) = mkApp (Some w1) d).
      { unfold with_snap. cbn [windowSnapService screen]. cbv zeta. now rewrite E13. }
      rewrite Ew.
      destruct (IH w1 d) as (w' & E & He & Hm & Hc & Hr & Hh & Hk).
      fold (unregister_all l (mkApp (Some w1) d)). exists w'.
      assert (Hin : forall id, DocumentName id ∈ DocumentName k :: l
                               <-> id = k \/ DocumentName id ∈ l).
      { intros id. rewrite elem_of_cons. split; intros [H|H]; auto; left; congruence. }
      split; [exact E|]. split; [congruence|].
      split.
      { intros id. rewrite Hm, E7. destruct (decide (id = k)) as [->|Hne].
        - rewrite lookup_delete_eq, (bool_decide_eq_true_2 (DocumentName k ∈ DocumentName k :: l))
            by (apply Hin; now left).
          destruct (bool_decide (DocumentName k ∈ l)); reflexivity.
        - rewrite lookup_delete_ne by congruence.
          rewrite (bool_decide_ext (DocumentName id ∈ DocumentName k :: l)
                     (DocumentName id ∈ l)); [reflexivity|rewrite Hin; tauto]. }
      split.
      { intros id. rewrite Hc, E9. destruct (decide (id = k)) as [->|Hne].
        - rewrite lookup_delete_eq, (bool_decide_eq_true_2 (DocumentName k ∈ DocumentName k :: l))
            by (apply Hin; now left).
          destruct (bool_decide (DocumentName k ∈ l)); reflexivity.
        - rewrite lookup_delete_ne by congruence.
          rewrite (bool_decide_ext (DocumentName id ∈ DocumentName k :: l)
                     (DocumentName id ∈ l)); [reflexivity|rewrite Hin; tauto]. }
      split; [intros id; rewrite Hr, E8, elem_of_difference, elem_of_singleton, Hin; tauto|].
      split; [intros id; rewrite Hh, E12, elem_of_difference, elem_of_singleton, Hin; tauto|].
      intros H. destruct (Hk H) as [H1 H2]. rewrite E11 in H1.
      apply andb_true_iff in H1 as [H1 H3]. split; [exact H1|]. intros _.
      destruct (document_names_dec l) as [Hl|Hl]; [now apply H2|].
      assert (Em : managedWindows w' = managedWindows w1).
      { apply map_eq. intros id. rewrite Hm, bool_decide_eq_false_2; [reflexivity|].
        intros Hid. apply Hl. now exists id. }
      rewrite Em, E7. apply negb_true_iff, bool_decide_eq_false_1 in H3. exact H3.
Qed.

(** X18: [ServiceShutdown] of the window service unregisters every
    document that has a window: afterwards such a document has no record,
    no cached size, no reference and no hook, the documents without a
    window keep their records, and the windows themselves stay. When every
    registered document has a window the registry ends empty, and the
    hook of the primary window is removed if a document window exists.
    Without a snap service nothing happens. *)
Theorem X18_window_service_shutdown (a : App) :
  let a' := WindowService_ServiceShutdown a in
  screen a' = screen a
  /\ match windowSnapService a with
     | None => windowSnapService a' = None
     | Some w =>
         exists w',
           windowSnapService a' = Some w'
           /\ snapEnabled w' = snapEnabled w
           /\ (forall id, is_Some (windows (screen a) !! id) ->
                 managedWindows w' !! id = None
                 /\ windowSizeCache w' !! id = None
                 /\ (id ∉ windowRefs w')
                 /\ (id ∉ windowMoveUnhooks w'))
           /\ (forall id, windows (screen a) !! id = None ->
                 managedWindows w' !! id = managedWindows w !! id)
           /\ ((forall id, is_Some (managedWindows w !! id) ->
                           is_Some (windows (screen a) !! id)) ->
               managedWindows w' = ∅
               /\ (windows (screen a) <> ∅ -> mainMoveUnhook w' = false))
     end.
Proof.
  cbv zeta. unfold WindowService_ServiceShutdown.
  destruct a as [[w|] d]; cbn [windowSnapService screen]; [|split; reflexivity].
  destruct (unregister_all_effect (GetOpenWindows (mkApp (Some w) d)) w d)
    as (w' & E & He & Hm & Hc & Hr & Hh & Hk).
  rewrite E. cbn [windowSnapService screen]. split; [reflexivity|].
  exists w'. split; [reflexivity|]. split; [exact He|].
  pose proof (GetOpenWindows_spec (mkApp (Some w) d)) as Hopen. cbn [screen] in Hopen.
  split.
  { intros id Hid. apply Hopen in Hid.
    split; [rewrite Hm; now rewrite bool_decide_eq_true_2 by exact Hid|].
    split; [rewrite Hc; now rewrite bool_decide_eq_true_2 by exact Hid|].
    split; [rewrite Hr; tauto|rewrite Hh; tauto]. }
  split.
  { intros id Hid. rewrite Hm, bool_decide_eq_false_2; [reflexivity|].
    rewrite Hopen, Hid. intros [? ?]; discriminate. }
  intros Hall.
  assert (Em : managedWindows w' = ∅).
  { apply map_eq. intros id. rewrite lookup_empty, Hm.
    destruct (bool_decide (DocumentName id ∈ GetOpenWindows (mkApp (Some w) d))) eqn:Hb;
      [reflexivity|].
    apply bool_decide_eq_false_1 in Hb. rewrite Hopen in Hb.
    destruct (managedWindows w !! id) eqn:Hw; [|reflexivity].
    exfalso. apply Hb, Hall. eauto. }
  split; [exact Em|]. intros Hne.
  destruct (mainMoveUnhook w') eqn:Hhook; [|reflexivity].
  destruct (Hk eq_refl) as [_ Hk2]. exfalso. apply Hk2; [|exact Em].
  apply map_choose in Hne as (id & x & Hx). exists id. apply Hopen. eauto.
Qed.





(** ** The configuration migrator *)

Lemma ConfigValue_nested_ind (P : ConfigValue -> Prop) :
  (forall v, P (Leaf v)) ->
  (forall m, Forall (fun kv => P kv.2) m -> P (Nested m)) ->
  forall v, P v.
Proof.
  intros Hl Hn. fix IH 1. intros [v|m]; [apply Hl|]. apply Hn.
  induction m as [|[k v] m IHm]; constructor; [apply IH|exact IHm].
Qed.

(** The loop of [findMissing] over the entries [entries] of the default
    map. *)
Lemma findMissing_nil prefix currentMap missing :
  findMissing prefix [] currentMap missing = missing.
Proof. reflexivity. Qed.

Lemma findMissing_cons prefix key defaultVal entries currentMap missing :
  findMissing prefix ((key, defaultVal) :: entries) currentMap missing
  = findMissing prefix entries currentMap
      (match map_get key currentMap with
       | None => missing ++ [full_key prefix key]
       | Some currentVal =>
           match defaultVal, currentVal with
           | Nested defaultNestedMap, Nested currentNestedMap =>
               findMissing (full_key prefix key) defaultNestedMap currentNestedMap missing
           | _, _ => missing
           end
       end).
Proof.
  unfold findMissing. cbn [findMissing_value].
  destruct (map_get key currentMap) as [[v|cm]|]; try reflexivity;
    destruct defaultVal; reflexivity.
Qed.

Lemma findMissing_app prefix l1 l2 currentMap missing :
  findMissing prefix (l1 ++ l2) currentMap missing
  = findMissing prefix l2 currentMap (findMissing prefix l1 currentMap missing).
Proof.
  revert missing. induction l1 as [|[k v] l1 IH]; intros missing; [reflexivity|].
  cbn [app]. rewrite !findMissing_cons. apply IH.
Qed.

(** The calls only append to the slice. *)
Lemma findMissing_acc defaultMap : forall prefix currentMap missing,
  findMissing prefix defaultMap currentMap missing
  = missing ++ findMissing prefix defaultMap currentMap [].
Proof.
  assert (H : forall v m, v = Nested m ->
             forall prefix currentMap missing,
               findMissing prefix m currentMap missing
               = missing ++ findMissing prefix m currentMap []).
  { intros v. induction v as [v|m Hall] using ConfigValue_nested_ind; [discriminate|].
    intros m' [= <-].
    induction Hall as [|[k v] l Hv _ IHl]; intros prefix currentMap missing.
    - now rewrite !findMissing_nil, app_nil_r.
    - rewrite !findMissing_cons. rewrite IHl. symmetry. rewrite IHl. symmetry.
      rewrite app_assoc. f_equal.
      destruct (map_get k currentMap) as [[cv|cm]|]; [| |reflexivity].
      + destruct v; now rewrite app_nil_r.
      + destruct v as [dv|dm]; [now rewrite app_nil_r|].
        cbn [snd] in Hv. apply (Hv dm eq_refl). }
  intros prefix currentMap missing. exact (H (Nested defaultMap) defaultMap eq_refl _ _ _).
Qed.

(** One level of [findMissing]: a path is appended for a key of the
    default map that the current map lacks, or by the call on two nested
    maps under a common key. *)
Lemma findMissing_level prefix entries currentMap missing p :
  In p (findMissing prefix entries currentMap missing)
  <-> In p missing
      \/ exists key defaultVal,
           In (key, defaultVal) entries
           /\ ((map_get key currentMap = None /\ p = full_key prefix key)
               \/ exists defaultNestedMap currentNestedMap,
                    defaultVal = Nested defaultNestedMap
                    /\ map_get key currentMap = Some (Nested currentNestedMap)
                    /\ In p (findMissing (full_key prefix key)
                               defaultNestedMap currentNestedMap [])).
Proof.
  revert missing. induction entries as [|[k v] l IH]; intros missing.
  - rewrite findMissing_nil. split; [auto|]. intros [H|(key & dv & [] & _)]. exact H.
  - rewrite findMissing_cons, IH. clear IH. split.
    + intros [H|(key & dv & Hin & H)].
      * destruct (map_get k currentMap) as [[cv|cm]|] eqn:Hk.
        -- destruct v; now left.
        -- destruct v as [dv|dm]; [now left|].
           rewrite findMissing_acc in H. apply in_app_or in H as [H|H]; [now left|].
           right. exists k, (Nested dm). split; [now left|]. right. now exists dm, cm.
        -- apply in_app_or in H as [H|[<-|[]]]; [now left|].
           right. exists k, v. split; [now left|]. now left.
      * right. exists key, dv. split; [now right|exact H].
    + intros [H|(key & dv & [E|Hin] & H)].
      * left. destruct (map_get k currentMap) as [[cv|cm]|];
          [destruct v; exact H| |apply in_or_app; now left].
        destruct v; [exact H|]. rewrite findMissing_acc. apply in_or_app. now left.
      * injection E as -> ->. left.
        destruct H as [[Hk ->]|(dm & cm & -> & Hk & H)]; rewrite Hk.
        -- apply in_or_app. right. now left.
        -- rewrite findMissing_acc. apply in_or_app. now right.
      * right. now exists key, dv.
Qed.

Lemma map_get_In key m v : map_get key m = Some v -> In (key, v) m.
Proof.
  induction m as [|[k w] m IH]; [discriminate|]. cbn.
  destruct (decide (k = key)) as [->|Hne]; [intros [= ->]; now left|auto].
Qed.

Lemma In_map_get key m v : NoDup m.*1 -> In (key, v) m -> map_get key m = Some v.
Proof.
  induction m as [|[k w] m IH]; [intros _ []|]. cbn. intros Hnd [[= -> ->]|Hin].
  - now rewrite decide_True.
  - apply NoDup_cons in Hnd as [Hk Hnd]. destruct (decide (k = key)) as [->|Hne]; [|auto].
    exfalso. apply Hk. apply list_elem_of_fmap. exists (key, v). split; [reflexivity|].
    now apply list_elem_of_In.
Qed.

Lemma In_is_Some_map_get key m v : In (key, v) m -> is_Some (map_get key m).
Proof.
  induction m as [|[k w] m IH]; [intros []|]. cbn. intros [[= -> ->]|Hin].
  - rewrite decide_True by reflexivity. eauto.
  - destruct (decide (k = key)); [eauto|auto].
Qed.

Lemma unique_keys_entry m key v :
  unique_keys m -> In (key, v) m -> unique_keys_value v.
Proof.
  unfold unique_keys. cbn. intros [_ Hall]. revert Hall.
  induction m as [|[k w] m IH]; [intros _ []|]. intros [Hw Hall] [[= -> ->]|Hin]; auto.
Qed.

Lemma path_of_cons prefix key keys :
  path_of prefix (key :: keys) = path_of (full_key prefix key) keys.
Proof. reflexivity. Qed.

(** The paths [findMissing] reports. *)
Lemma findMissing_paths defaultMap : forall prefix currentMap p,
  unique_keys defaultMap ->
  (In p (findMissing prefix defaultMap currentMap [])
   <-> exists keys key defaultNested currentNested,
         p = path_of prefix (keys ++ [key])
         /\ descend keys defaultMap = Some defaultNested
         /\ descend keys currentMap = Some currentNested
         /\ is_Some (map_get key defaultNested)
         /\ map_get key currentNested = None).
Proof.
  assert (H : forall v m, v = Nested m ->
             forall prefix currentMap p,
               unique_keys m ->
               (In p (findMissing prefix m currentMap [])
                <-> exists keys key defaultNested currentNested,
                      p = path_of prefix (keys ++ [key])
                      /\ descend keys m = Some defaultNested
                      /\ descend keys currentMap = Some currentNested
                      /\ is_Some (map_get key defaultNested)
                      /\ map_get key currentNested = None)).
  { intros v. induction v as [v|m Hall] using ConfigValue_nested_ind; [discriminate|].
    intros m' [= <-]. intros prefix currentMap p Hu.
    rewrite findMissing_level. split.
    - intros [[]|(k & dv & Hin & [[Hk ->]|(dm & cm & -> & Hk & Hp)])].
      + exists [], k, m, currentMap. split; [reflexivity|]. split; [reflexivity|].
        split; [reflexivity|]. split; [eapply In_is_Some_map_get; eauto|exact Hk].
      + rewrite Forall_forall in Hall.
        apply (Hall (k, Nested dm) ltac:(now apply list_elem_of_In) dm eq_refl) in Hp
          as (keys & key & dn & cn & -> & Hd & Hc & Hs & Hn);
          [|exact (unique_keys_entry _ _ _ Hu Hin)].
        exists (k :: keys), key, dn, cn. split; [reflexivity|].
        cbn [descend]. rewrite (In_map_get _ _ _ (proj1 Hu) Hin), Hk. auto.
    - intros (keys & key & dn & cn & -> & Hd & Hc & Hs & Hn). right.
      destruct keys as [|k keys].
      + cbn in Hd, Hc. injection Hd as <-. injection Hc as <-.
        destruct Hs as [dv Hdv]. exists key, dv. split; [now apply map_get_In|].
        left. split; [exact Hn|reflexivity].
      + cbn [descend] in Hd, Hc.
        destruct (map_get k m) as [[?|dm]|] eqn:Hkm; try discriminate.
        destruct (map_get k currentMap) as [[?|cm]|] eqn:Hkc; try discriminate.
        exists k, (Nested dm). split; [now apply map_get_In|]. right.
        exists dm, cm. split; [reflexivity|]. split; [exact Hkc|].
        rewrite Forall_forall in Hall.
        apply (Hall (k, Nested dm)
                 ltac:(apply list_elem_of_In; now apply map_get_In) dm eq_refl).
        * apply (unique_keys_entry m k); [exact Hu|now apply map_get_In].
        * exists keys, key, dn, cn. auto. }
  intros prefix currentMap p. exact (H (Nested defaultMap) defaultMap eq_refl _ _ _).
Qed.

Lemma unique_keys_config_default : unique_keys config_default.
Proof.
  unfold unique_keys, config_default. cbn.
  repeat split; repeat (apply NoDup_cons; split; [|]); try apply NoDup_nil_2;
    intros H; repeat (apply elem_of_cons in H as [H|H]; [discriminate|]);
    now apply elem_of_nil in H.
Qed.

(** X20: [detectMissingFields] reports exactly the paths of the keys that
    the default configuration has and the current one lacks inside a map
    that both reach through the same keys, each step of which is a nested
    map in both. The keys of the default configuration are distinct, as
    those of a Go map are. *)
Theorem X20_missing_fields_paths (current defaultConfig : ConfigMap) (p : GoString) :
  unique_keys defaultConfig ->
  (In p (detectMissingFields current defaultConfig)
   <-> exists keys key defaultNested currentNested,
         p = path_of [] (keys ++ [key])
         /\ descend keys defaultConfig = Some defaultNested
         /\ descend keys current = Some currentNested
         /\ is_Some (map_get key defaultNested)
         /\ map_get key currentNested = None).
Proof. intros Hu. unfold detectMissingFields. now apply findMissing_paths. Qed.

Lemma X20_missing_fields_paths_witness :
  In [103; 46; 98] (detectMissingFields config_current config_default)
  <-> exists keys key defaultNested currentNested,
        [103; 46; 98] = path_of [] (keys ++ [key])
        /\ descend keys config_default = Some defaultNested
        /\ descend keys config_current = Some currentNested
        /\ is_Some (map_get key defaultNested)
        /\ map_get key currentNested = None.
Proof.
  exact (X20_missing_fields_paths config_current config_default [103; 46; 98]
           unique_keys_config_default).
Defined.

(** X21: [detectMissingFields] reports nothing exactly when, in every map
    the two configurations reach through the same keys, each key of the
    default is a key of the current one. A configuration compared with
    itself has no missing field. *)
Theorem X21_nothing_missing (current defaultConfig : ConfigMap) :
  unique_keys defaultConfig ->
  (detectMissingFields current defaultConfig = []
   <-> forall keys key defaultNested currentNested,
         descend keys defaultConfig = Some defaultNested ->
         descend keys current = Some currentNested ->
         is_Some (map_get key defaultNested) ->
         is_Some (map_get key currentNested))
  /\ detectMissingFields defaultConfig defaultConfig = [].
Proof.
  intros Hu.
  assert (Hnil : forall l : list GoString, l = [] <-> forall p, ~ In p l).
  { intros [|x l]; split; auto; try discriminate. intros H. exfalso. apply (H x). now left. }
  assert (Hiff : forall current,
            detectMissingFields current defaultConfig = []
            <-> forall keys key defaultNested currentNested,
                  descend keys defaultConfig = Some defaultNested ->
                  descend keys current = Some currentNested ->
                  is_Some (map_get key defaultNested) ->
                  is_Some (map_get key currentNested)).
  { intros cur. rewrite Hnil. unfold detectMissingFields. split.
    - intros H keys key dn cn Hd Hc Hs.
      destruct (map_get key cn) eqn:Hk; [eauto|]. exfalso.
      apply (H (path_of [] (keys ++ [key]))). apply findMissing_paths; [exact Hu|].
      exists keys, key, dn, cn. auto.
    - intros H p Hp. apply findMissing_paths in Hp; [|exact Hu].
      destruct Hp as (keys & key & dn & cn & _ & Hd & Hc & Hs & Hn).
      destruct (H keys key dn cn Hd Hc Hs) as [x Hx]. congruence. }
  split; [apply Hiff|]. apply Hiff. intros keys key dn cn Hd Hc Hs. congruence.
Qed.

Lemma X21_nothing_missing_witness :
  detectMissingFields config_default config_default = [].
Proof. exact (proj2 (X21_nothing_missing config_default config_default unique_keys_config_default)). Defined.

(** X22: a key under which the current configuration holds a value that
    is no map adds no path, whatever the default configuration holds under
    it: a nested default map is not compared, and none of its keys is
    reported. The same holds for a key the current configuration has and
    under which the default holds a value that is no map. *)
Theorem X22_non_map_value_shadows (prefix key : GoString) (defaultVal currentVal : ConfigValue)
    (before after current : ConfigMap) (missing : list GoString) :
  map_get key current = Some currentVal ->
  (exists v, currentVal = Leaf v) \/ (exists v, defaultVal = Leaf v) ->
  findMissing prefix (before ++ (key, defaultVal) :: after) current missing
  = findMissing prefix (before ++ after) current missing.
Proof.
  intros Hk Hleaf. rewrite !findMissing_app, findMissing_cons, Hk.
  destruct Hleaf as [(v & ->)|(v & ->)]; [now destruct defaultVal|reflexivity].
Qed.

Lemma X22_non_map_value_shadows_witness :
  detectMissingFields config_current config_default
  = detectMissingFields config_current
      [ ([103], Nested [ ([97], Leaf (VBool true)); ([98], Leaf (VInt 1)) ]);
        ([109], Leaf VNil) ].
Proof.
  apply (X22_non_map_value_shadows [] [101] (Nested [ ([102], Leaf (VInt 12)) ])
           (Leaf (VInt 3))
           [ ([103], Nested [ ([97], Leaf (VBool true)); ([98], Leaf (VInt 1)) ]) ]
           [ ([109], Leaf VNil) ] config_current []).
  - reflexivity.
  - left. now exists (VInt 3).
Defined.
